(** * PyABSA: aspect term extraction and polarity classification

    A shallow embedding of the parts of PyABSA that drive training,
    dataset construction and aspect extraction, together with the
    properties that hold of them.

    Conventions
    - Python integers are [Z]; list indices and loop counters are [nat].
    - A numpy / torch integer tensor of shape [batch, len] is a
      [list (list Z)].
    - A Python call that may raise is a function into [result]. *)

From Stdlib Require Import ZArith QArith String Ascii List Lia.
From stdpp Require Import base option list sorting gmap strings.

Local Open Scope Z_scope.
Local Open Scope list_scope.

(** ** Exceptions *)

(** The exception classes that the modelled code raises or catches. *)
Inductive exn : Type :=
  | ValueError
  | RuntimeError
  | AssertionError
  | NotImplementedError
  | KeyError
  | IndexError
  | ZeroDivisionError
  | UnboundLocalError
  | TypeError
  | OSError.

Inductive result (A : Type) : Type :=
  | Ok (a : A)
  | Raise (e : exn).

Arguments Ok {A} a.
Arguments Raise {A} e.

Definition bind {A B : Type} (r : result A) (k : A -> result B) : result B :=
  match r with
  | Ok a => k a
  | Raise e => Raise e
  end.

Notation "'let*' x ':=' r 'in' k" := (bind r (fun x => k))
  (at level 10, x name, r at level 100, k at level 200).

#[global] Instance exn_eq_dec : EqDecision exn.
Proof. solve_decision. Defined.

(** [for x in l: ...] over a fallible body that builds a list. *)
Fixpoint mapM {A B : Type} (f : A -> result B) (l : list A) : result (list B) :=
  match l with
  | [] => Ok []
  | x :: l' => let* y := f x in let* ys := mapM f l' in Ok (y :: ys)
  end.

(** ** Python helpers *)

Module Py.

(** [sub in s] on strings: [sub] occurs in [s] as a substring. *)
Fixpoint str_in (sub s : string) : bool :=
  if String.prefix sub s then true
  else match s with
       | EmptyString => false
       | String _ s' => str_in sub s'
       end.

(** [min(s)] and [max(s)] of a set; both raise [ValueError] on an
    empty set. *)
Definition min (s : gset Z) : result Z :=
  match elements s with
  | [] => Raise ValueError
  | x :: l => Ok (foldr Z.min x l)
  end.

Definition max (s : gset Z) : result Z :=
  match elements s with
  | [] => Raise ValueError
  | x :: l => Ok (foldr Z.max x l)
  end.

(** [sorted(l)] on integers. *)
Definition sorted (l : list Z) : list Z := merge_sort Z.le l.

(** [range(n)] *)
Definition range (n : Z) : list Z := seqZ 0 n.

(** [l.count(x)] on a list of strings. *)
Definition count (x : string) (l : list string) : nat :=
  length (filter (fun y => y = x) l).

End Py.

(** ** Tensor operations

    The layers and tensor functions that a model's [forward] applies.
    [forward] is written once against this interface; the symbolic
    instance below records which operation was applied to what. *)

Class TensorOps (T : Type) : Type := {
  (** [self.bert4global(ids, token_type_ids, attention_mask)['last_hidden_state']] *)
  bert4global : T -> option T -> option T -> T;
  (** [self.bert4local(ids)['last_hidden_state']] *)
  bert4local : T -> T;
  dropout : T -> T;
  classifier : T -> T;
  SA1 : T -> T;
  SA2 : T -> T;
  linear_double : T -> T;
  linear_triple : T -> T;
  pooler : T -> T;
  dense : T -> T;
  (** [torch.mul] *)
  mul : T -> T -> T;
  (** [torch.cat(..., dim=-1)] *)
  cat : list T -> T;
  (** the loop that gathers the positions with [valid_ids == 1] into a
      prefix of a zero tensor *)
  gather_valid : T -> T -> T;
  (** [get_ids_for_local_context_extractor] *)
  ids_for_local_context : T -> T;
  (** [get_batch_token_labels_bert_base_indices] *)
  labels_bert_base_indices : T -> T;
  (** [CrossEntropyLoss(ignore_index=...)(logits, target)] *)
  cross_entropy : Z -> T -> T -> T
}.

(** The padding sentinel of the polarity mask and of the polarity
    loss, the key [-999] that [_infer] adds to the sentiment map. *)
Definition SENTIMENT_PADDING : Z := -999.

Definition is_Some_b {A : Type} (o : option A) : bool :=
  match o with Some _ => true | None => false end.

(** Symbolic tensors: the free terms over the operations. *)
#[local] Unset Elimination Schemes.
Inductive Sym : Type :=
  | SInput (name : string)
  | SBert4Global (ids : Sym) (token_type_ids attention_mask : option Sym)
  | SBert4Local (ids : Sym)
  | SDropout (x : Sym)
  | SClassifier (x : Sym)
  | SSA1 (x : Sym)
  | SSA2 (x : Sym)
  | SLinearDouble (x : Sym)
  | SLinearTriple (x : Sym)
  | SPooler (x : Sym)
  | SDense (x : Sym)
  | SMul (x y : Sym)
  | SCat (xs : list Sym)
  | SGatherValid (valid_ids x : Sym)
  | SIdsForLocalContext (x : Sym)
  | SLabelsBertBaseIndices (x : Sym)
  | SCrossEntropy (ignore_index : Z) (logits target : Sym).
#[local] Set Elimination Schemes.

#[global] Instance Sym_ops : TensorOps Sym := {
  bert4global := SBert4Global;
  bert4local := SBert4Local;
  dropout := SDropout;
  classifier := SClassifier;
  SA1 := SSA1;
  SA2 := SSA2;
  linear_double := SLinearDouble;
  linear_triple := SLinearTriple;
  pooler := SPooler;
  dense := SDense;
  mul := SMul;
  cat := SCat;
  gather_valid := SGatherValid;
  ids_for_local_context := SIdsForLocalContext;
  labels_bert_base_indices := SLabelsBertBaseIndices;
  cross_entropy := SCrossEntropy
}.



(** ** Models: conversion of BERT-SPC rows to BERT-BASE rows
    (lcf_atepc_large.py, bert_base_atepc.py, lcf_template_atepc.py) *)

Module Numpy.

(** [np.argmax(row == v)]: the index of the first element equal to
    [v]; index 0 when no element matches, because the comparison
    array is then all [False] and its first maximum is at 0. *)
Fixpoint first_index (v : Z) (row : list Z) : option nat :=
  match row with
  | [] => None
  | x :: row' =>
      if Z.eqb x v then Some 0%nat
      else option_map S (first_index v row')
  end.

Definition argmax_eq (v : Z) (row : list Z) : result nat :=
  match row with
  | [] => Raise ValueError (* argmax of an empty sequence *)
  | _ => Ok (default 0%nat (first_index v row))
  end.

(** [row[k:] = 0] *)
Definition assign_zero_from (k : nat) (row : list Z) : list Z :=
  take k row ++ replicate (length row - k) 0.

End Numpy.

(** The loop body shared by both conversion functions:
    [sep_index = np.argmax(row == v); row[sep_index + 1:] = 0]. *)
Definition zero_after_first (v : Z) (row : list Z) : result (list Z) :=
  let* sep_index := Numpy.argmax_eq v row in
  Ok (Numpy.assign_zero_from (sep_index + 1) row).

Module LCF_ATEPC_LARGE.

Definition get_batch_token_labels_bert_base_indices
    (labels : option (list (list Z))) : result (option (list (list Z))) :=
  match labels with
  | None => Ok None
  | Some labels => let* out := mapM (zero_after_first 5) labels in Ok (Some out)
  end.

Definition get_ids_for_local_context_extractor
    (text_indices : list (list Z)) : result (list (list Z)) :=
  mapM (zero_after_first 102) text_indices.

(** What [forward] returns: the two losses when labels are given,
    the two logits otherwise. *)
Inductive ForwardOut (T : Type) : Type :=
  | Losses (loss_ate loss_apc : T)
  | Logits (ate_logits : T) (apc_logits : option T).
Arguments Losses {T} loss_ate loss_apc.
Arguments Logits {T} ate_logits apc_logits.

Section Forward.

Context {T : Type} `{TensorOps T}.

Variable use_bert_spc : bool.
Variable lcf : string.

(** The [if 'cdm' ... elif 'cdw' ... elif 'fusion'] block, which
    binds [cat_out]. Multiplying by a vector that is [None] is a
    type error; when no branch is taken [cat_out] stays unbound. *)
Definition cat_out (global_context_out local_context_out : T)
    (lcf_cdm_vec lcf_cdw_vec : option T) : result T :=
  if Py.str_in "cdm" lcf then
    match lcf_cdm_vec with
    | None => Raise TypeError
    | Some lcf_cdm_vec =>
        let cdm_context_out := mul local_context_out lcf_cdm_vec in
        let cdm_context_out := SA1 cdm_context_out in
        let cat_out := cat [global_context_out; cdm_context_out] in
        Ok (linear_double cat_out)
    end
  else if Py.str_in "cdw" lcf then
    match lcf_cdw_vec with
    | None => Raise TypeError
    | Some lcf_cdw_vec =>
        let cdw_context_out := mul local_context_out lcf_cdw_vec in
        let cdw_context_out := SA1 cdw_context_out in
        let cat_out := cat [global_context_out; cdw_context_out] in
        Ok (linear_double cat_out)
    end
  else if Py.str_in "fusion" lcf then
    match lcf_cdm_vec, lcf_cdw_vec with
    | Some lcf_cdm_vec, Some lcf_cdw_vec =>
        let cdm_context_out := mul local_context_out lcf_cdm_vec in
        let cdw_context_out := mul local_context_out lcf_cdw_vec in
        let cat_out :=
          cat [global_context_out; cdw_context_out; cdm_context_out] in
        Ok (linear_triple cat_out)
    | _, _ => Raise TypeError
    end
  else Raise UnboundLocalError.

Definition forward (input_ids_spc : T)
    (token_type_ids attention_mask labels polarity : option T)
    (valid_ids : T) (lcf_cdm_vec lcf_cdw_vec : option T)
    : result (ForwardOut T) :=
  let '(labels, global_context_out) :=
    if negb use_bert_spc then
      let input_ids := ids_for_local_context input_ids_spc in
      (labels_bert_base_indices <$> labels,
       bert4global input_ids token_type_ids attention_mask)
    else
      (labels, bert4global input_ids_spc token_type_ids attention_mask) in
  let global_valid_output := gather_valid valid_ids global_context_out in
  let global_context_out := dropout global_valid_output in
  let ate_logits := classifier global_context_out in
  let* apc_logits :=
    if is_Some_b lcf_cdm_vec || is_Some_b lcf_cdw_vec then
      let local_context_ids := ids_for_local_context input_ids_spc in
      let local_context_out := bert4local local_context_ids in
      let local_valid_output := gather_valid valid_ids local_context_out in
      let local_context_out := dropout local_valid_output in
      let* cat_out := cat_out global_context_out local_context_out
                        lcf_cdm_vec lcf_cdw_vec in
      let sa_out := SA2 cat_out in
      let pooled_out := pooler sa_out in
      let pooled_out := dropout pooled_out in
      Ok (Some (dense pooled_out))
    else Ok None in
  match labels with
  | Some labels =>
      match apc_logits, polarity with
      | Some apc_logits, Some polarity =>
          Ok (Losses (cross_entropy 0 ate_logits labels)
                     (cross_entropy SENTIMENT_PADDING apc_logits polarity))
      | _, _ => Raise TypeError
      end
  | None => Ok (Logits ate_logits apc_logits)
  end.

End Forward.

End LCF_ATEPC_LARGE.

Module BERT_BASE_ATEPC.

Definition get_batch_token_labels_bert_base_indices
    (labels : option (list (list Z))) : result (option (list (list Z))) :=
  match labels with
  | None => Ok None
  | Some labels => let* out := mapM (zero_after_first 5) labels in Ok (Some out)
  end.

Definition get_ids_for_local_context_extractor
    (text_indices : list (list Z)) : result (list (list Z)) :=
  mapM (zero_after_first 102) text_indices.

End BERT_BASE_ATEPC.

(** ** APC dataset construction (apc/dataset_utils/data_utils_for_training.py) *)

Module ABSADataset.

(** The label bookkeeping of [ABSADataset.__init__]. [polarities]
    holds the integer label of every record of the file, in file
    order; each is added to [polarities_set] in the record loop.
    After the loop the set is checked and [opt.polarities_dim] is
    assigned. The result is the new [polarities_dim]. *)
Definition polarities_set (polarities : list Z) : gset Z :=
  list_to_set polarities.

Definition __init__ (polarities : list Z) : result Z :=
  let polarities_set := polarities_set polarities in
  let* p_min := Py.min polarities_set in
  let* p_max := Py.max polarities_set in
  if p_min <? 0 then Raise RuntimeError
  else if bool_decide (Py.sorted (elements polarities_set)
                       = Py.sorted (Py.range (p_max - p_min + 1)))
       then Ok (Z.of_nat (size polarities_set))
       else Raise AssertionError.

End ABSADataset.

(** ** Aspect extraction at inference (atepc/prediction/aspect_extractor.py) *)

Module AspectExtractor.

(** One entry of the extraction result:
    [(all_tokens[0], _pred_iobs, _polarity)]. *)
Definition extraction : Type := list string * list string * list Z.

(** [label_map = {i: label for i, label in enumerate(label_list, 1)}]
    and [label_map.get(k, 'O')]. *)
Definition label_map_get (label_list : list string) (k : Z) : string :=
  if k <? 1 then "O"%string
  else default "O"%string (label_list !! Z.to_nat (k - 1)).

(** The decoding loop over [enumerate(label_ids[0])]: position 0 is
    skipped, and the loop stops once as many labels were decoded as
    there are tokens. [ate] is the row [ate_logits[0]] after argmax. *)
Fixpoint decode_loop (label_list : list string) (n_tokens : nat)
    (ate : list Z) (pred_iobs : list string) : list string :=
  match ate with
  | [] => pred_iobs
  | a :: ate' =>
      if Nat.eqb (length pred_iobs) n_tokens then pred_iobs
      else decode_loop label_list n_tokens ate'
             (pred_iobs ++ [label_map_get label_list a])
  end.

Definition decode (label_list : list string) (tokens : list string)
    (label_ids0 ate0 : list Z) : list string :=
  decode_loop label_list (length tokens)
    (drop 1 (take (length label_ids0) ate0)) [].

(** [for t, l in zip(all_tokens[0], pred_iobs)]: the polarity mask. *)
Definition polarity_mask (tokens pred_iobs : list string) : list Z :=
  map (fun tl : string * string =>
         if Py.str_in "ASP" tl.2 then - SENTIMENT_PADDING
         else SENTIMENT_PADDING)
      (zip tokens pred_iobs).

(** The condition of the inner [for iob_idx] loop. *)
Definition closes_span (pred_iobs : list string) (iob_idx : nat) : bool :=
  match pred_iobs !! iob_idx, pred_iobs !! S iob_idx with
  | Some cur, Some nxt =>
      (String.eqb "B-ASP" cur && negb (Py.str_in "ASP" nxt))
      || (String.eqb "I-ASP" cur && negb (Py.str_in "ASP" nxt))
  | _, _ => false
  end.

(** The first [iob_idx] in [range(len(_pred_iobs) - 1)] at which the
    loop breaks, if any. *)
Definition first_span_end (pred_iobs : list string) : option nat :=
  List.find (closes_span pred_iobs) (seq 0 (length pred_iobs - 1)).

(** State of the [while asp_idx < asp_num] loop. *)
Record split_state : Type := {
  pred_iobs : list string;
  polarity : list Z;
  res : list extraction
}.

(** One iteration of the [while] loop. *)
Definition split_step (tokens IOB_PADDING : list string)
    (POLARITY_PADDING : list Z) (st : split_state) : split_state :=
  match first_span_end st.(pred_iobs) with
  | Some iob_idx =>
      let _pred_iobs :=
        take (iob_idx + 1) st.(pred_iobs) ++ drop (iob_idx + 1) IOB_PADDING in
      let _polarity :=
        take (iob_idx + 1) st.(polarity)
        ++ drop (iob_idx + 1) POLARITY_PADDING in
      {| pred_iobs :=
           take (iob_idx + 1) IOB_PADDING ++ drop (iob_idx + 1) st.(pred_iobs);
         polarity :=
           take (iob_idx + 1) POLARITY_PADDING
           ++ drop (iob_idx + 1) st.(polarity);
         res := st.(res) ++ [(tokens, _pred_iobs, _polarity)] |}
  | None =>
      {| pred_iobs := st.(pred_iobs);
         polarity := st.(polarity);
         res := st.(res) ++ [(tokens, st.(pred_iobs), st.(polarity))] |}
  end.

Fixpoint split_loop (n : nat) (tokens IOB_PADDING : list string)
    (POLARITY_PADDING : list Z) (st : split_state) : split_state :=
  match n with
  | O => st
  | S n' =>
      split_loop n' tokens IOB_PADDING POLARITY_PADDING
        (split_step tokens IOB_PADDING POLARITY_PADDING st)
  end.

(** The part of [_extract] after the tag sequence was decoded: one
    result tuple per counted ["B-ASP"]. *)
Definition split_aspects (tokens pred_iobs : list string) : list extraction :=
  let polarity := polarity_mask tokens pred_iobs in
  let asp_num := Py.count "B-ASP" pred_iobs in
  let IOB_PADDING := replicate (length pred_iobs) "O"%string in
  let POLARITY_PADDING := replicate (length pred_iobs) SENTIMENT_PADDING in
  (split_loop asp_num tokens IOB_PADDING POLARITY_PADDING
     {| pred_iobs := pred_iobs; polarity := polarity; res := [] |}).(res).

(** The output of feature conversion and of the tagging head for
    one example: [all_tokens[0]], [label_ids[0]] and the argmax of
    [ate_logits[0]]. *)
Record tagged : Type := {
  all_tokens0 : list string;
  label_ids0 : list Z;
  ate_logits0 : list Z
}.

(** The argument of [extract_aspect]. *)
Inductive examples_arg : Type :=
  | ExStr (example : string)
  | ExList (examples : list string)
  | ExOther.

(** One entry of the result of [extract_aspect]:
    [{'extraction_res': ..., 'polarity_res': ...}]. *)
Record aspect_result (P : Type) : Type := {
  extraction_res : list extraction;
  polarity_res : option P
}.
Arguments extraction_res {P} _.
Arguments polarity_res {P} _.

Inductive extract_output (P : Type) : Type :=
  | OutOne (r : aspect_result P)
  | OutMany (rs : list (aspect_result P))
  | OutNone.
Arguments OutOne {P} r.
Arguments OutMany {P} rs.
Arguments OutNone {P}.

Section Pipeline.

(** The list of polarity records that [_infer] returns. *)
Variable P : Type.
Variable label_list : list string.
(** Feature conversion and the forward pass of the tagging head on
    one raw example; raises what tokenizer or model raise. *)
Variable tag_example : string -> result tagged.
(** [_infer]: polarity classification of an extraction result. *)
Variable _infer : list extraction -> result P.
(** [os.path.isdir(s) or os.path.isfile(s)] *)
Variable is_path : string -> bool.

Definition _extract (example : string) : result (list extraction) :=
  let* t := tag_example example in
  Ok (split_aspects t.(all_tokens0)
        (decode label_list t.(all_tokens0) t.(label_ids0) t.(ate_logits0))).

(** The body shared by the single-example branch and by the loop
    over a list of examples. *)
Definition extract_one (pred_sentiment : bool) (example : string)
    : result (aspect_result P) :=
  let* extraction_res := _extract example in
  if pred_sentiment then
    let* polarity_res := _infer extraction_res in
    Ok {| extraction_res := extraction_res;
          polarity_res := Some polarity_res |}
  else
    Ok {| extraction_res := extraction_res; polarity_res := None |}.

Definition extract_aspect (examples : examples_arg) (pred_sentiment : bool)
    : result (extract_output P) :=
  match examples with
  | ExStr example =>
      if is_path example then Raise NotImplementedError
      else let* r := extract_one pred_sentiment example in Ok (OutOne r)
  | ExList examples =>
      let* results := mapM (extract_one pred_sentiment) examples in
      Ok (OutMany results)
  | ExOther => Ok OutNone
  end.

(** What the specification asks of batch inference: an error in
    one example is reported as a failed item and the remaining
    examples are still processed. *)
Definition extract_aspect_per_example_spec (examples : list string)
    (pred_sentiment : bool) : list (result (aspect_result P)) :=
  map (extract_one pred_sentiment) examples.

End Pipeline.

(** *** Vocabulary for tag sequences *)

(** A tag without the substring ["ASP"]. *)
Definition no_asp (t : string) : Prop := Py.str_in "ASP" t = false.

(** An aspect span: ["B-ASP"] followed by [k] times ["I-ASP"]. *)
Definition span (k : nat) : list string :=
  "B-ASP"%string :: replicate k "I-ASP"%string.

(** The loop condition on two neighbouring tags. *)
Definition closes (cur nxt : string) : bool :=
  (String.eqb "B-ASP" cur && negb (Py.str_in "ASP" nxt))
  || (String.eqb "I-ASP" cur && negb (Py.str_in "ASP" nxt)).

(** The search for the first span end, by recursion on the list. *)
Fixpoint first_end (l : list string) : option nat :=
  match l with
  | cur :: (nxt :: _) as l' =>
      if closes cur nxt then Some 0%nat else S <$> first_end l'
  | _ => None
  end.

(** The polarity mask of a tag sequence. *)
Definition pad_mask (l : list string) : list Z :=
  map (fun t => if Py.str_in "ASP" t then - SENTIMENT_PADDING
                else SENTIMENT_PADDING) l.

End AspectExtractor.

(** ** Training (atepc/training/atepc_trainer.py) *)

Module Trainer.

(** *** Samplers and data loaders (torch.utils.data) *)

Inductive Sampler : Type := SequentialSampler | RandomSampler.

(** The order in which a sampler yields the indices of [n] items.
    [randperm] is the permutation of [range(n)] that the random
    generator produces for this pass; a sequential sampler does not
    consult it. *)
Definition Sampler_iter (s : Sampler) (n : nat) (randperm : list nat)
    : list nat :=
  match s with
  | SequentialSampler => seq 0 n
  | RandomSampler => randperm
  end.

Record DataLoader : Type := {
  dataset_len : nat;
  sampler : Sampler;
  loader_batch_size : nat
}.

Fixpoint chunk (fuel k : nat) (l : list nat) : list (list nat) :=
  match fuel, l with
  | _, [] => []
  | O, _ => []
  | S fuel', _ => take k l :: chunk fuel' k (drop k l)
  end.

(** The batches of one pass over a loader, as lists of example
    indices; the last batch may be short. *)
Definition DataLoader_iter (dl : DataLoader) (randperm : list nat)
    : list (list nat) :=
  let idx := Sampler_iter dl.(sampler) dl.(dataset_len) randperm in
  chunk (length idx) dl.(loader_batch_size) idx.

(** [DataLoader(data, sampler=..., batch_size=...)]: a batch size
    that is not positive is rejected with [ValueError]. *)
Definition new_DataLoader (n : nat) (s : Sampler) (batch_size : Z)
    : result DataLoader :=
  if batch_size <=? 0 then Raise ValueError
  else Ok {| dataset_len := n; sampler := s;
             loader_batch_size := Z.to_nat batch_size |}.

(** *** Options *)

Record Opt : Type := {
  model_name : string;
  lcf : string;
  use_bert_spc : bool;
  gradient_accumulation_steps : Z;
  batch_size : Z;
  model_path_to_save : string;
  (** ['test' in opt.dataset_file] *)
  has_test : bool;
  (** [opt.optimizer], the name of the optimizer *)
  optimizer : string;
  l2reg : Q;
  num_epoch : Z;
  log_step : Z;
  evaluate_begin : Z
}.

Definition set_use_bert_spc (b : bool) (o : Opt) : Opt :=
  {| model_name := o.(model_name); lcf := o.(lcf); use_bert_spc := b;
     gradient_accumulation_steps := o.(gradient_accumulation_steps);
     batch_size := o.(batch_size);
     model_path_to_save := o.(model_path_to_save);
     has_test := o.(has_test); optimizer := o.(optimizer);
     l2reg := o.(l2reg);
     num_epoch := o.(num_epoch); log_step := o.(log_step);
     evaluate_begin := o.(evaluate_begin) |}.

Definition set_batch_size (n : Z) (o : Opt) : Opt :=
  {| model_name := o.(model_name); lcf := o.(lcf);
     use_bert_spc := o.(use_bert_spc);
     gradient_accumulation_steps := o.(gradient_accumulation_steps);
     batch_size := n;
     model_path_to_save := o.(model_path_to_save);
     has_test := o.(has_test); optimizer := o.(optimizer);
     l2reg := o.(l2reg);
     num_epoch := o.(num_epoch); log_step := o.(log_step);
     evaluate_begin := o.(evaluate_begin) |}.

(** Truth value of a string: [''] is false. *)
Definition truthy (s : string) : bool := negb (String.eqb s "").

(** *** Instructor construction *)

(** What the environment answers during one run of
    [Instructor.__init__]. *)
Record World : Type := {
  (** [AutoTokenizer.from_pretrained] and [AutoModel.from_pretrained] *)
  from_pretrained : result unit;
  (** [processor.get_train_examples]: the number of training examples *)
  train_examples : result nat;
  (** [convert_examples_to_features] on the training examples *)
  train_features : result unit;
  (** [processor.get_test_examples]: the number of held-out examples *)
  eval_examples : result nat;
  (** [convert_examples_to_features] on the held-out examples *)
  eval_features : result unit;
  (** [self.opt.model(bert_base_model, opt=self.opt)] *)
  build_model : result unit;
  (** names of [self.model.named_parameters()], in order *)
  named_parameters : list string
}.

Record ParamGroup : Type := {
  params : list string;
  weight_decay : Q
}.

Record Instructor : Type := {
  opt : Opt;
  train_dataloader : DataLoader;
  eval_dataloader : option DataLoader;
  optimizer_grouped_parameters : list ParamGroup;
  optimizer_weight_decay : Q
}.

Definition no_decay : list string :=
  ["bias"; "LayerNorm.bias"; "LayerNorm.weight"]%string.

(** [any(nd in n for nd in no_decay)] *)
Definition any_no_decay (n : string) : bool :=
  existsb (fun nd => Py.str_in nd n) no_decay.

Definition grouped_parameters (o : Opt) (param_optimizer : list string)
    : list ParamGroup :=
  [ {| params := List.filter (fun n => negb (any_no_decay n)) param_optimizer;
       weight_decay := o.(l2reg) |};
    {| params := List.filter any_no_decay param_optimizer;
       weight_decay := o.(l2reg) |} ].

(** [self.optimizers = {'adam': ..., 'adamw': ...}] *)
Definition optimizers : list string := ["adam"; "adamw"]%string.

(** [Instructor.__init__]. [opt] is one shared object that the
    constructor mutates, so the options after the call are returned
    also when the constructor raises. Logging, seeding and the
    creation of the save directory are left out. *)
Definition Instructor__init__ (o : Opt) (w : World) : Opt * result Instructor :=
  let o := if o.(use_bert_spc) then set_use_bert_spc false o else o in
  if o.(gradient_accumulation_steps) <? 1 then (o, Raise ValueError)
  else
    let o := set_batch_size
               (o.(batch_size) / o.(gradient_accumulation_steps)) o in
    (o,
     let* _ := w.(from_pretrained) in
     let* n_train := w.(train_examples) in
     (* num_train_optimization_steps divides by the batch size *)
     if o.(batch_size) =? 0 then Raise ZeroDivisionError
     else
       let* _ := w.(train_features) in
       let* train_dl := new_DataLoader n_train SequentialSampler o.(batch_size) in
       let* eval_dl :=
         if o.(has_test) then
           let* n_eval := w.(eval_examples) in
           let* _ := w.(eval_features) in
           let* dl := new_DataLoader n_eval RandomSampler o.(batch_size) in
           Ok (Some dl)
         else Ok None in
       let* _ := w.(build_model) in
       let grouped := grouped_parameters o w.(named_parameters) in
       if existsb (String.eqb o.(optimizer)) optimizers then
         Ok {| opt := o;
               train_dataloader := train_dl;
               eval_dataloader := eval_dl;
               optimizer_grouped_parameters := grouped;
               optimizer_weight_decay := o.(l2reg) |}
       else Raise KeyError).

(** The weight decay that the optimizer applies to the parameter
    named [n]: that of the group holding it. *)
Definition decay_of (groups : list ParamGroup) (n : string) : option Q :=
  weight_decay <$> List.find (fun g => existsb (String.eqb n) g.(params)) groups.

(** The order in which one pass of [evaluate] visits the examples
    of the held-out split. *)
Definition evaluate_order (ins : Instructor) (randperm : list nat)
    : option (list nat) :=
  (fun dl => concat (DataLoader_iter dl randperm)) <$> ins.(eval_dataloader).

(** The order in which one epoch of [train] visits the training
    examples. *)
Definition train_order (ins : Instructor) (randperm : list nat) : list nat :=
  concat (DataLoader_iter ins.(train_dataloader) randperm).

(** *** The training loop *)

(** The three scores of one evaluation pass, in hundredths of a
    percent: [evaluate] returns percentages rounded to two decimals,
    and on such values [round(x, 2)] is the identity and [>] is the
    order of the integers. *)
Record Metrics : Type := {
  apc_test_acc : Z;
  apc_test_f1 : Z;
  ate_result : Z
}.

(** [opt.max_test_metrics] *)
Record MaxMetrics : Type := {
  max_apc_test_acc : Z;
  max_apc_test_f1 : Z;
  max_ate_test_f1 : Z
}.

Inductive SavePath : Type :=
  (** [''] *)
  | NoPath
  (** ['{0}/{1}_{2}_apcacc_{3}_apcf1_{4}_atef1_{5}/'] *)
  | CheckpointPath (dir name lcf_mode : string) (apcacc apcf1 atef1 : Z)
  (** ['{0}/{1}_{2}/'] *)
  | FinalPath (dir name lcf_mode : string).

(** The calls on model and optimizer that the loop performs. *)
Inductive Event : Type :=
  | EvForward
  | EvBackward
  | EvOptimizerStep
  | EvZeroGrad
  | EvEvaluate (eval_ATE : bool) (scores : Metrics)
  | EvSaveModel (path : SavePath).

#[global] Instance Metrics_eq_dec : EqDecision Metrics.
Proof. solve_decision. Defined.

#[global] Instance SavePath_eq_dec : EqDecision SavePath.
Proof. solve_decision. Defined.

#[global] Instance Event_eq_dec : EqDecision Event.
Proof. solve_decision. Defined.

Record TrainState : Type := {
  global_step : Z;
  sum_apc_test_acc : Z;
  sum_apc_test_f1 : Z;
  sum_ate_test_f1 : Z;
  max_test_metrics : MaxMetrics;
  save_path : SavePath;
  events : list Event
}.

Definition initial_state : TrainState :=
  {| global_step := 0;
     sum_apc_test_acc := 0; sum_apc_test_f1 := 0; sum_ate_test_f1 := 0;
     max_test_metrics :=
       {| max_apc_test_acc := 0; max_apc_test_f1 := 0; max_ate_test_f1 := 0 |};
     save_path := NoPath;
     events := [] |}.

(** The condition under which [_save_model] is called at an
    evaluation: some score is above its running maximum. *)
Definition improves (m : Metrics) (mx : MaxMetrics) : bool :=
  (m.(apc_test_acc) >? mx.(max_apc_test_acc))
  || (m.(apc_test_f1) >? mx.(max_apc_test_f1))
  || (m.(ate_result) >? mx.(max_ate_test_f1)).

(** The three independent updates of the running maxima. *)
Definition update_max (m : Metrics) (mx : MaxMetrics) : MaxMetrics :=
  {| max_apc_test_acc :=
       if m.(apc_test_acc) >? mx.(max_apc_test_acc)
       then m.(apc_test_acc) else mx.(max_apc_test_acc);
     max_apc_test_f1 :=
       if m.(apc_test_f1) >? mx.(max_apc_test_f1)
       then m.(apc_test_f1) else mx.(max_apc_test_f1);
     max_ate_test_f1 :=
       if m.(ate_result) >? mx.(max_ate_test_f1)
       then m.(ate_result) else mx.(max_ate_test_f1) |}.

Section Train.

Variable o : Opt.
(** The scores that a full pass over the held-out split gives for
    the model as it is after [global_step] steps. *)
Variable eval_pass : Z -> Metrics.

(** [self.evaluate(eval_ATE=...)]: without [eval_ATE] the ATE
    score stays at its initial 0. *)
Definition evaluate (step : Z) (eval_ATE : bool) : Metrics :=
  let r := eval_pass step in
  {| apc_test_acc := r.(apc_test_acc);
     apc_test_f1 := r.(apc_test_f1);
     ate_result := if eval_ATE then r.(ate_result) else 0 |}.

(** The argument [eval_ATE] of the call of [evaluate]. *)
Definition eval_ATE_flag : bool :=
  negb (String.eqb o.(model_name) "lcf_atepc" && o.(use_bert_spc)).

(** The body of [if epoch >= self.opt.evaluate_begin]: one
    evaluation event. *)
Definition evaluation_event (st : TrainState) : TrainState :=
  let eval_ATE := eval_ATE_flag in
  let m := evaluate st.(global_step) eval_ATE in
  let evs := st.(events) ++ [EvEvaluate eval_ATE m] in
  let mx := st.(max_test_metrics) in
  let '(path, evs) :=
    if truthy o.(model_path_to_save) then
      let path := CheckpointPath o.(model_path_to_save) o.(model_name)
                    o.(lcf) m.(apc_test_acc) m.(apc_test_f1) m.(ate_result) in
      (path, if improves m mx then evs ++ [EvSaveModel path] else evs)
    else (st.(save_path), evs) in
  {| global_step := st.(global_step);
     sum_apc_test_acc := st.(sum_apc_test_acc) + m.(apc_test_acc);
     sum_apc_test_f1 := st.(sum_apc_test_f1) + m.(apc_test_f1);
     sum_ate_test_f1 := st.(sum_ate_test_f1) + m.(ate_result);
     max_test_metrics := update_max m mx;
     save_path := path;
     events := evs |}.

(** Forward pass, loss, backward pass, optimizer step, gradient
    reset and the two increments of [global_step]. *)
Definition optimize_batch (st : TrainState) : TrainState :=
  let evs := st.(events)
             ++ [EvForward; EvBackward; EvOptimizerStep; EvZeroGrad] in
  let global_step := st.(global_step) in
  let global_step := global_step + 1 in
  let global_step := global_step + 1 in
  {| global_step := global_step;
     sum_apc_test_acc := st.(sum_apc_test_acc);
     sum_apc_test_f1 := st.(sum_apc_test_f1);
     sum_ate_test_f1 := st.(sum_ate_test_f1);
     max_test_metrics := st.(max_test_metrics);
     save_path := st.(save_path);
     events := evs |}.

(** Whether the batch that has just been optimized is followed by
    an evaluation; [%] raises on a zero [log_step]. *)
Definition evaluation_due (epoch : Z) (st : TrainState) : result bool :=
  if o.(has_test) then
    if o.(log_step) =? 0 then Raise ZeroDivisionError
    else Ok ((st.(global_step) mod o.(log_step) =? 0)
             && (epoch >=? o.(evaluate_begin)))
  else Ok false.

(** The body of [for step, batch in enumerate(iterator)]. *)
Definition train_batch (epoch : Z) (st : TrainState) : result TrainState :=
  let st := optimize_batch st in
  let* due := evaluation_due epoch st in
  Ok (if due then evaluation_event st else st).

Fixpoint train_batches (epoch : Z) (batches : list (list nat))
    (st : TrainState) : result TrainState :=
  match batches with
  | [] => Ok st
  | _ :: batches' =>
      let* st := train_batch epoch st in
      train_batches epoch batches' st
  end.

(** [for epoch in range(int(num_epoch))] over the batches of the
    training loader. *)
Fixpoint train_epochs (dl : DataLoader) (randperm : Z -> list nat)
    (epochs : list Z) (st : TrainState) : result TrainState :=
  match epochs with
  | [] => Ok st
  | epoch :: epochs' =>
      let* st := train_batches epoch (DataLoader_iter dl (randperm epoch)) st in
      train_epochs dl randperm epochs' st
  end.

End Train.

(** What [train] returns: the last checkpoint path, or the model
    with the accumulated scores. *)
Inductive TrainReturn : Type :=
  | RetPath (path : SavePath)
  | RetModel (sum_acc sum_f1 sum_ate : Z).

(** [Instructor.train]; the final state is returned next to the
    value for the sake of the properties below. *)
Definition train (ins : Instructor) (eval_pass : Z -> Metrics)
    (randperm : Z -> list nat) : result (TrainState * TrainReturn) :=
  let o := ins.(opt) in
  let* st := train_epochs o eval_pass ins.(train_dataloader) randperm
               (Py.range o.(num_epoch)) initial_state in
  match st.(save_path) with
  | NoPath =>
      let evs :=
        if truthy o.(model_path_to_save) then
          st.(events) ++ [EvSaveModel (FinalPath o.(model_path_to_save)
                                         o.(model_name) o.(lcf))]
        else st.(events) in
      Ok ({| global_step := st.(global_step);
             sum_apc_test_acc := st.(sum_apc_test_acc);
             sum_apc_test_f1 := st.(sum_apc_test_f1);
             sum_ate_test_f1 := st.(sum_ate_test_f1);
             max_test_metrics := st.(max_test_metrics);
             save_path := st.(save_path);
             events := evs |},
          RetModel st.(sum_apc_test_acc) st.(sum_apc_test_f1)
            st.(sum_ate_test_f1))
  | path => Ok (st, RetPath path)
  end.

(** *** [train4atepc] *)

(** What is known of a call of [train4atepc] after a bounded number
    of construction attempts. *)
Inductive Outcome : Type :=
  (** [trainer.train()] returned or raised *)
  | Trained (r : result (TrainState * TrainReturn))
  (** the constructor raised an exception that is not caught *)
  | Propagated (e : exn)
  (** still inside [while not trainer] *)
  | Retrying (o : Opt).

(** The [while not trainer] loop, run for at most [fuel] attempts.
    [worlds k] is the environment of attempt [k]. The second
    component lists the arguments of the [time.sleep] calls made. *)
Fixpoint train4atepc_loop (fuel : nat) (o : Opt) (worlds : nat -> World)
    (attempt : nat) (eval_pass : Z -> Metrics) (randperm : Z -> list nat)
    (sleeps : list Z) : Outcome * list Z :=
  match fuel with
  | O => (Retrying o, sleeps)
  | S fuel' =>
      match Instructor__init__ o (worlds attempt) with
      | (_, Ok trainer) => (Trained (train trainer eval_pass randperm), sleeps)
      | (o', Raise ValueError) =>
          train4atepc_loop fuel' o' worlds (S attempt) eval_pass randperm
            (sleeps ++ [60])
      | (_, Raise e) => (Propagated e, sleeps)
      end
  end.

Definition train4atepc (fuel : nat) (o : Opt) (worlds : nat -> World)
    (eval_pass : Z -> Metrics) (randperm : Z -> list nat)
    : Outcome * list Z :=
  train4atepc_loop fuel o worlds 0 eval_pass randperm [].

(** *** The checkpoint policy, stated on traces

    The running maximum as a pointwise maximum, and the events that
    the policy prescribes for a sequence of evaluation scores: every
    evaluation is followed by one save when a score is above its
    running maximum, and by none otherwise. *)

Definition exceeds (m : Metrics) (mx : MaxMetrics) : Prop :=
  m.(apc_test_acc) > mx.(max_apc_test_acc)
  \/ m.(apc_test_f1) > mx.(max_apc_test_f1)
  \/ m.(ate_result) > mx.(max_ate_test_f1).

#[global] Instance exceeds_dec m mx : Decision (exceeds m mx).
Proof. unfold exceeds. apply _. Defined.

Definition running_max (mx : MaxMetrics) (m : Metrics) : MaxMetrics :=
  {| max_apc_test_acc := Z.max mx.(max_apc_test_acc) m.(apc_test_acc);
     max_apc_test_f1 := Z.max mx.(max_apc_test_f1) m.(apc_test_f1);
     max_ate_test_f1 := Z.max mx.(max_ate_test_f1) m.(ate_result) |}.

Definition max_le (a b : MaxMetrics) : Prop :=
  a.(max_apc_test_acc) <= b.(max_apc_test_acc)
  /\ a.(max_apc_test_f1) <= b.(max_apc_test_f1)
  /\ a.(max_ate_test_f1) <= b.(max_ate_test_f1).

(** The scores of the evaluations in a trace, in order. *)
Fixpoint evaluations (evs : list Event) : list Metrics :=
  match evs with
  | [] => []
  | EvEvaluate _ m :: evs' => m :: evaluations evs'
  | _ :: evs' => evaluations evs'
  end.

(** The evaluations and saves of a trace, in order. *)
Fixpoint policy_events (evs : list Event) : list Event :=
  match evs with
  | [] => []
  | EvEvaluate b m :: evs' => EvEvaluate b m :: policy_events evs'
  | EvSaveModel p :: evs' => EvSaveModel p :: policy_events evs'
  | _ :: evs' => policy_events evs'
  end.

Definition checkpoint_path (o : Opt) (m : Metrics) : SavePath :=
  CheckpointPath o.(model_path_to_save) o.(model_name) o.(lcf)
    m.(apc_test_acc) m.(apc_test_f1) m.(ate_result).

Fixpoint prescribed_events (o : Opt) (eval_ATE : bool) (mx : MaxMetrics)
    (ms : list Metrics) : list Event :=
  match ms with
  | [] => []
  | m :: ms' =>
      EvEvaluate eval_ATE m
      :: (if decide (exceeds m mx) then [EvSaveModel (checkpoint_path o m)] else [])
      ++ prescribed_events o eval_ATE (running_max mx m) ms'
  end.

(** A later state continues an earlier one in accordance with the
    policy: the events added since hold, for the evaluations among
    them, exactly the prescribed evaluations and saves, and the
    maxima are the running maxima over these evaluations. *)
Definition follows_policy (o : Opt) (st st' : TrainState) : Prop :=
  exists new,
    st'.(events) = st.(events) ++ new
    /\ policy_events new
       = prescribed_events o (eval_ATE_flag o) st.(max_test_metrics)
           (evaluations new)
    /\ st'.(max_test_metrics)
       = foldl running_max st.(max_test_metrics) (evaluations new).

(** The number of batches that [train] processes. *)
Definition batches_run (dl : DataLoader) (randperm : Z -> list nat)
    (epochs : list Z) : nat :=
  sum_list (map (fun epoch => length (DataLoader_iter dl (randperm epoch))) epochs).

(** The events of one batch. *)
Definition batch_events : list Event :=
  [EvForward; EvBackward; EvOptimizerStep; EvZeroGrad].

Definition is_batch_event (e : Event) : Prop := e ∈ batch_events.

(** The number of occurrences of an event in a trace. *)
Definition occurrences (e : Event) (evs : list Event) : nat :=
  length (filter (fun e' => e' = e) evs).

(** After [k] batches: the counter and the number of each batch event. *)
Definition counts_batches (k : nat) (st st' : TrainState) : Prop :=
  global_step st' = global_step st + 2 * Z.of_nat k
  /\ forall e, is_batch_event e ->
       occurrences e (events st') = (occurrences e (events st) + k)%nat.

End Trainer.

(** ** Concrete inputs used in examples *)

Module Examples.

Import Trainer.

Local Open Scope string_scope.

Definition opt_ok : Opt :=
  {| model_name := "lcf_atepc_large"; lcf := "cdm"; use_bert_spc := true;
     gradient_accumulation_steps := 1; batch_size := 2;
     model_path_to_save := "checkpoints"; has_test := true;
     optimizer := "adam"; l2reg := (1 # 100)%Q; num_epoch := 2; log_step := 2;
     evaluate_begin := 0 |}.

(** The same options with [gradient_accumulation_steps = 0]. *)
Definition opt_zero_steps : Opt :=
  {| model_name := "lcf_atepc_large"; lcf := "cdm"; use_bert_spc := true;
     gradient_accumulation_steps := 0; batch_size := 2;
     model_path_to_save := "checkpoints"; has_test := true;
     optimizer := "adam"; l2reg := (1 # 100)%Q; num_epoch := 2; log_step := 2;
     evaluate_begin := 0 |}.

(** Five training examples, three held-out examples, and a model
    with a weight, a bias and a normalization weight. *)
Definition world_ok : World :=
  {| from_pretrained := Ok ();
     train_examples := Ok 5%nat;
     train_features := Ok ();
     eval_examples := Ok 3%nat;
     eval_features := Ok ();
     build_model := Ok ();
     named_parameters :=
       ["dense.weight"; "dense.bias"; "bert.LayerNorm.weight"] |}.

(** The trainer that [Instructor(opt_ok)] constructs in [world_ok]. *)
Definition trainer_ok : Instructor :=
  let o := set_batch_size 2 (set_use_bert_spc false opt_ok) in
  {| opt := o;
     train_dataloader :=
       {| dataset_len := 5; sampler := SequentialSampler;
          loader_batch_size := 2 |};
     eval_dataloader :=
       Some {| dataset_len := 3; sampler := RandomSampler;
               loader_batch_size := 2 |};
     optimizer_grouped_parameters :=
       grouped_parameters o world_ok.(named_parameters);
     optimizer_weight_decay := (1 # 100)%Q |}.

(** Scores of successive evaluations: the accuracy improves at the
    first, nothing improves at the second, the F1 improves later. *)
Definition scores (step : Z) : Metrics :=
  if (step =? 2)%Z then
    {| apc_test_acc := 7000; apc_test_f1 := 6000; ate_result := 5000 |}
  else if (step =? 4)%Z then
    {| apc_test_acc := 6000; apc_test_f1 := 6000; ate_result := 5000 |}
  else
    {| apc_test_acc := 6000; apc_test_f1 := 6100; ate_result := 5000 |}.

Definition no_shuffle (epoch : Z) : list nat := [].

(** An inference pipeline in which tagging the example ["bad"] raises. *)
Definition tag_example (example : string) : result AspectExtractor.tagged :=
  if String.eqb example "bad" then Raise IndexError
  else Ok {| AspectExtractor.all_tokens0 := ["nice"; "screen"];
             AspectExtractor.label_ids0 := [4; 1; 2; 5];
             AspectExtractor.ate_logits0 := [4; 1; 2; 5] |}.

Definition label_list : list string :=
  ["O"; "B-ASP"; "I-ASP"; "[CLS]"; "[SEP]"].

Definition infer (ex : list AspectExtractor.extraction) : result (list string) :=
  Ok (map (fun _ => "Positive") ex).

Definition is_path (s : string) : bool := false.

End Examples.
(** ** Loops with a fallible body *)

(** [for x in l: ...] over a body that updates a state and may raise. *)
Fixpoint foldM {S A : Type} (f : S -> A -> result S) (l : list A) (s : S)
    : result S :=
  match l with
  | [] => Ok s
  | x :: l' => let* s' := f s x in foldM f l' s'
  end.

(** ** Models: gathering the valid positions
    (the double loop of [forward] in lcf_atepc_large.py and
    bert_base_atepc.py) *)

Module ValidOutput.

Section Gather.

(** Feature vectors, with the zero vector of [torch.zeros]. *)
Context {V : Type} (zero : V).

(** The body of [for j in range(max_len)]: at a position whose
    [valid_ids] entry is 1 the counter [jj] is raised and the row
    [j] of the encoder output is stored at index [jj]. The state is
    [jj] and the output row built so far. *)
Definition gather_step (valid_row : list Z) (out_row : list V)
    (st : Z * list V) (j : nat) : result (Z * list V) :=
  match valid_row !! j, out_row !! j with
  | Some v, Some x =>
      if v =? 1 then
        let jj := st.1 + 1 in
        Ok (jj, <[Z.to_nat jj := x]> st.2)
      else Ok st
  | _, _ => Raise IndexError
  end.

(** One iteration of [for i in range(batch_size)]: [jj = -1], the
    inner loop over [range(max_len)], on a row of zeros. *)
Definition gather_row (valid_row : list Z) (out_row : list V)
    : result (list V) :=
  let max_len := length out_row in
  let* st := foldM (gather_step valid_row out_row) (seq 0 max_len)
               (-1, replicate max_len zero) in
  Ok st.2.

(** The outer loop over the batch. *)
Definition gather (valid_ids : list (list Z)) (context_out : list (list V))
    : result (list (list V)) :=
  mapM (fun p : nat * list V =>
          match valid_ids !! p.1 with
          | Some valid_row => gather_row valid_row p.2
          | None => Raise IndexError
          end)
       (imap pair context_out).

(** The rows of the encoder output at the valid positions, in order. *)
Definition selected (valid_row : list Z) (out_row : list V) : list V :=
  (filter (fun p : Z * V => p.1 = 1) (zip valid_row out_row)).*2.

End Gather.

End ValidOutput.

(** ** Models: [BERT_BASE_ATEPC.forward] (bert_base_atepc.py) *)

Module BERT_BASE_ATEPC_forward.

Section Forward.

Context {T : Type} `{TensorOps T}.

Variable use_bert_spc : bool.
(** [opt.use_dual_bert]: [bert4local] is a deep copy of [bert4global]
    when set and the very same encoder otherwise. *)
Variable use_dual_bert : bool.

Definition forward (input_ids_spc : T)
    (token_type_ids attention_mask labels polarity : option T)
    (valid_ids : T) (lcf_cdm_vec lcf_cdw_vec : option T)
    : result (LCF_ATEPC_LARGE.ForwardOut T) :=
  let '(input_ids, labels, global_context_out) :=
    if negb use_bert_spc then
      let input_ids := ids_for_local_context input_ids_spc in
      (Some input_ids, labels_bert_base_indices <$> labels,
       bert4global input_ids token_type_ids attention_mask)
    else
      (None, labels,
       bert4global input_ids_spc token_type_ids attention_mask) in
  let global_valid_output := gather_valid valid_ids global_context_out in
  let global_context_out := dropout global_valid_output in
  let ate_logits := classifier global_context_out in
  (* [input_ids] is bound in the first branch only *)
  match input_ids with
  | None => Raise UnboundLocalError
  | Some input_ids =>
      let local_context_out :=
        if use_dual_bert then bert4local input_ids
        else bert4global input_ids None None in
      let pooled_out := pooler local_context_out in
      let pooled_out := dropout pooled_out in
      let apc_logits := dense pooled_out in
      match labels with
      | Some labels =>
          match polarity with
          | Some polarity =>
              Ok (LCF_ATEPC_LARGE.Losses
                    (cross_entropy 0 ate_logits labels)
                    (cross_entropy SENTIMENT_PADDING apc_logits polarity))
          | None => Raise TypeError
          end
      | None => Ok (LCF_ATEPC_LARGE.Logits ate_logits (Some apc_logits))
      end
  end.

End Forward.

End BERT_BASE_ATEPC_forward.

(** ** Aspect extraction: vocabulary for masked views *)

Module AspectViews.


End AspectViews.

(** ** Sentiment labels at inference
    ([set_sentiment_map] and [_infer] in aspect_extractor.py) *)

Module Sentiments.

(** [set_sentiment_map]: a map that is given and not empty gets the
    entry for the padding sentinel unless it has one; an empty map
    and [None] are stored as they are. *)
Definition set_sentiment_map (sentiment_map : option (gmap Z string))
    : option (gmap Z string) :=
  match sentiment_map with
  | Some m =>
      if bool_decide (m <> ∅) && bool_decide (m !! SENTIMENT_PADDING = None)
      then Some (<[SENTIMENT_PADDING := ""%string]> m)
      else Some m
  | None => None
  end.

(** One record of the result of [_infer]. *)
Record sentiment_record : Type := {
  aspect : string;
  position : string;
  sentiment : string
}.

(** [sep.join(l)] *)
Fixpoint join (sep : string) (l : list string) : string :=
  match l with
  | [] => ""
  | [x] => x
  | x :: l' => x +:+ sep +:+ join sep l'
  end.

(** [torch.where(polarity[0] > 0)]: the positions with a positive
    entry, in increasing order. *)
Definition positive_positions (polarity0 : list Z) : list nat :=
  (filter (fun p : nat * Z => 0 < p.2) (imap pair polarity0)).*1.

Section Infer.

(** [str(n)] on integers. *)
Variable str : Z -> string.

(** The dictionary [sentiments] that [_infer] builds. *)
Definition default_sentiments (polarities_dim : Z) : gmap Z string :=
  if polarities_dim =? 3 then
    <[0 := "Negative"%string]> (<[1 := "Neutral"%string]>
      (<[2 := "Positive"%string]> (<[-999 := ""%string]> ∅)))
  else
    <[-999 := ""%string]>
      (list_to_map ((fun p => (p, str p)) <$> Py.range (polarities_dim + 1))).

Definition sentiments (sentiment_map : option (gmap Z string))
    (polarities_dim : Z) : gmap Z string :=
  match sentiment_map with
  | Some m => if bool_decide (m <> ∅) then m else default_sentiments polarities_dim
  | None => default_sentiments polarities_dim
  end.

(** The body of the loop of [_infer] after the forward pass: [sent]
    is the argmax of the polarity logits, [polarity0] the row
    [polarity[0]] and [tokens] the list [all_tokens[0]]. *)
Definition infer_record (sentiments : gmap Z string) (tokens : list string)
    (polarity0 : list Z) (sent : Z) : result sentiment_record :=
  let aspect_idx := positive_positions polarity0 in
  let* aspect :=
    mapM (fun idx => match tokens !! idx with
                     | Some t => Ok t
                     | None => Raise IndexError
                     end) aspect_idx in
  match sentiments !! sent with
  | Some s =>
      Ok {| aspect := join " " aspect;
            position := join "," ((fun idx => str (Z.of_nat idx)) <$> aspect_idx);
            sentiment := s |}
  | None => Raise KeyError
  end.

End Infer.

End Sentiments.

(** ** Finding files (pyabsa_utils.py) *)

Module Files.

(** What [find_target_file] returns: a string or a list of strings. *)
Inductive found : Type :=
  | FStr (s : string)
  | FList (l : list string).

(** Truth value: [''] and [[]] are false. *)
Definition found_truthy (f : found) : bool :=
  match f with
  | FStr s => Trainer.truthy s
  | FList [] => false
  | FList (_ :: _) => true
  end.

(** [f[0]]: the first character of a string, the first element of a
    list. *)
Definition found_first (f : found) : result string :=
  match f with
  | FStr EmptyString => Raise IndexError
  | FStr (String c _) => Ok (String c EmptyString)
  | FList [] => Raise IndexError
  | FList (p :: _) => Ok p
  end.

Section FileSystem.

(** [os.path.isfile] *)
Variable isfile : string -> bool.
(** [os.listdir] *)
Variable listdir : string -> result (list string).
(** [os.path.join] *)
Variable join : string -> string -> string.
(** [str.lower] *)
Variable lower : string -> string.

(** The filter of both comprehensions:
    [file_type in p.lower() and not (exclude_key and exclude_key in p.lower())]. *)
Definition name_matches (file_type exclude_key p : string) : bool :=
  Py.str_in file_type (lower p)
  && negb (Trainer.truthy exclude_key && Py.str_in exclude_key (lower p)).

Definition find_target_file (dir_path file_type exclude_key : string)
    (find_all : bool) : result found :=
  if negb (Trainer.truthy dir_path) then Ok (FStr "")
  else if isfile dir_path && Py.str_in file_type dir_path then
    Ok (if find_all then FList [dir_path] else FStr dir_path)
  else if isfile dir_path && negb (Py.str_in file_type dir_path) then
    Ok (FStr "")
  else if negb find_all then
    let* ps := listdir dir_path in
    match List.filter (name_matches file_type exclude_key) ps with
    | [] => Raise IndexError
    | p :: _ => Ok (FStr (join dir_path p))
    end
  else
    let* ps := listdir dir_path in
    Ok (FList (map (join dir_path)
                 (List.filter (name_matches file_type exclude_key) ps))).

End FileSystem.

End Files.

(** ** Construction of the extractor
    ([AspectExtractor.__init__] in aspect_extractor.py) *)

Module ExtractorInit.

(** How the construction can end: besides the exceptions of [exn],
    with the [FileNotFoundError] of the handler around the loading
    block and with the [AttributeError] of reading an attribute that
    was never assigned. *)
Inductive init_exn : Type :=
  | FileNotFoundError
  | AttributeError
  | Uncaught (e : exn).

Inductive init_result (A : Type) : Type :=
  | Built (a : A)
  | Failed (e : init_exn).
Arguments Built {A} a.
Arguments Failed {A} e.

Definition init_bind {A B : Type} (r : init_result A)
    (k : A -> init_result B) : init_result B :=
  match r with
  | Built a => k a
  | Failed e => Failed e
  end.

Notation "'let+' x ':=' r 'in' k" := (init_bind r (fun x => k))
  (at level 10, x name, r at level 100, k at level 200).

Definition lift {A : Type} (r : result A) : init_result A :=
  match r with
  | Ok a => Built a
  | Raise e => Failed (Uncaught e)
  end.

(** [try: ... except: raise FileNotFoundError(...)] *)
Definition or_file_not_found {A : Type} (r : init_result A) : init_result A :=
  match r with
  | Built a => Built a
  | Failed _ => Failed FileNotFoundError
  end.

Section Init.

(** Models and tokenizers. *)
Context {M Tk : Type}.

Variable isfile : string -> bool.
Variable listdir : string -> result (list string).
Variable join : string -> string -> string.
Variable lower : string -> string.
(** [pickle.load(open(path, 'rb'))] on a configuration file *)
Variable load_config : string -> result Trainer.Opt.
(** [BertModel.from_pretrained(opt.pretrained_bert_name)] *)
Variable bert_from_pretrained : Trainer.Opt -> result unit.
(** [torch.load(path)] *)
Variable torch_load : string -> result M.
(** [pickle.load(open(path, 'rb'))] on a tokenizer file *)
Variable load_tokenizer : string -> result Tk.
(** [BertTokenizer.from_pretrained(opt.pretrained_bert_name, ...)] *)
Variable tokenizer_from_pretrained : Trainer.Opt -> result Tk.
(** names of [model.named_parameters()] *)
Variable named_parameters : M -> list string.

(** The argument [model_arg]: a path, or what training returned. *)
Inductive model_arg : Type :=
  | FromPath (path : string)
  | FromTraining (model : M) (opt : Trainer.Opt) (tokenizer : Tk).

Record Extractor : Type := {
  model : M;
  opt : Trainer.Opt;
  tokenizer : Tk;
  optimizer_grouped_parameters : list Trainer.ParamGroup;
  sentiment_map : option (gmap Z string)
}.

(** The keys of the dictionary [optimizers]. *)
Definition optimizers : list string :=
  ["adadelta"; "adagrad"; "adam"; "adamax"; "asgd"; "rmsprop"; "sgd";
   "adamw"]%string.

Definition find (path file_type : string) : init_result Files.found :=
  lift (Files.find_target_file isfile listdir join lower path file_type "" true).

(** The body of the [try] block. [self.model] stays unassigned when
    neither a state dict nor a model file is found. *)
Definition load (path : string)
    : init_result (option M * Trainer.Opt * Tk) :=
  let+ state_dict_path := find path ".state_dict" in
  let+ model_path := find path ".model" in
  let+ tokenizer_path := find path ".tokenizer" in
  let+ config_path := find path ".config" in
  let+ config_file := lift (Files.found_first config_path) in
  let+ opt := lift (load_config config_file) in
  let+ model :=
    if Files.found_truthy state_dict_path then
      let+ _ := lift (bert_from_pretrained opt) in
      (* [self.num_labels] is assigned after the [try] block only *)
      Failed AttributeError
    else Built None in
  let+ model :=
    if Files.found_truthy model_path then
      let+ model_file := lift (Files.found_first model_path) in
      let+ m := lift (torch_load model_file) in
      Built (Some m)
    else Built model in
  let+ tokenizer :=
    if Files.found_truthy tokenizer_path then
      let+ tokenizer_file := lift (Files.found_first tokenizer_path) in
      lift (load_tokenizer tokenizer_file)
    else lift (tokenizer_from_pretrained opt) in
  Built (model, opt, tokenizer).

Definition __init__ (arg : model_arg) (sentiment_map : option (gmap Z string))
    : init_result Extractor :=
  let+ loaded :=
    match arg with
    | FromTraining model opt tokenizer => Built (Some model, opt, tokenizer)
    | FromPath path => or_file_not_found (load path)
    end in
  let '(model, opt, tokenizer) := loaded in
  if opt.(Trainer.gradient_accumulation_steps) <? 1 then
    Failed (Uncaught ValueError)
  else
    let opt :=
      Trainer.set_batch_size
        (opt.(Trainer.batch_size) / opt.(Trainer.gradient_accumulation_steps))
        opt in
    match model with
    | None => Failed AttributeError
    | Some model =>
        let grouped := Trainer.grouped_parameters opt (named_parameters model) in
        if existsb (String.eqb opt.(Trainer.optimizer)) optimizers then
          Built {| model := model; opt := opt; tokenizer := tokenizer;
                   optimizer_grouped_parameters := grouped;
                   sentiment_map := Sentiments.set_sentiment_map sentiment_map |}
        else Failed (Uncaught KeyError)
    end.

End Init.

End ExtractorInit.

(** ** Further concrete inputs *)

Module MoreExamples.

Local Open Scope string_scope.

(** A directory ["ckpt"] that holds a state dict next to its
    configuration; no path is a regular file. *)
Definition isfile (path : string) : bool := false.

Definition listdir (path : string) : result (list string) :=
  if String.eqb path "ckpt" then Ok ["lcf.state_dict"; "lcf.config"]
  else Raise OSError.

Definition join (dir name : string) : string := dir +:+ "/" +:+ name.

(** File names in these examples are in lower case already. *)
Definition lower (s : string) : string := s.

Definition load_config (path : string) : result Trainer.Opt :=
  Ok Examples.opt_ok.

End MoreExamples.

(** ** Training: vocabulary for whole runs *)

Module Runs.

Import Trainer.

(** The options that the [k]-th further attempt of [train4atepc]
    starts from, when the attempts from number [attempt] on are
    made on the options [o]: the constructor mutates the one [opt]
    object in every attempt. *)
Fixpoint opt_after_retries (o : Opt) (worlds : nat -> World)
    (attempt k : nat) : Opt :=
  match k with
  | O => o
  | S k' =>
      opt_after_retries (Instructor__init__ o (worlds attempt)).1 worlds
        (S attempt) k'
  end.

(** The sum of one score over a list of evaluations. *)
Definition sum_scores (f : Metrics -> Z) (ms : list Metrics) : Z :=
  foldr (fun m acc => f m + acc) 0 ms.

Definition is_save (e : Event) : bool :=
  match e with
  | EvSaveModel _ => true
  | _ => false
  end.

(** A later state continues an earlier one: the sums have grown by
    the scores of the evaluations made since, and the save path is
    that of the last of them when a directory is configured. *)
Definition continues (o : Opt) (st st' : TrainState) : Prop :=
  exists new,
    st'.(events) = st.(events) ++ new
    /\ st'.(sum_apc_test_acc)
       = st.(sum_apc_test_acc) + sum_scores apc_test_acc (evaluations new)
    /\ st'.(sum_apc_test_f1)
       = st.(sum_apc_test_f1) + sum_scores apc_test_f1 (evaluations new)
    /\ st'.(sum_ate_test_f1)
       = st.(sum_ate_test_f1) + sum_scores ate_result (evaluations new)
    /\ st'.(save_path)
       = (if truthy o.(model_path_to_save)
          then from_option (checkpoint_path o) st.(save_path)
                 (last (evaluations new))
          else st.(save_path))
    /\ (truthy o.(model_path_to_save) = false ->
        forallb (fun e => negb (is_save e)) new = true).

(** The number of batches between two evaluations: the step counter
    grows by two per batch and is compared with [log_step]. *)
Definition evaluation_period (log_step : Z) : Z :=
  if Z.even log_step then log_step / 2 else log_step.

(** The state after [k] batches in all: the counter stands at
    [2 * k], and one evaluation has been made per full period. *)
Definition counted (o : Opt) (k : Z) (st : TrainState) : Prop :=
  0 <= k
  /\ global_step st = 2 * k
  /\ Z.of_nat (length (evaluations (events st)))
     = k / evaluation_period (log_step o).

End Runs.

(** ** Evaluation: collecting the tag sequences
    (the [eval_ATE] part of [Instructor.evaluate]) *)

Module Evaluate.

Section Collect.

(** [self.label_list] *)
Variable label_list : list string.

(** [len(self.label_list)], the label id that ends a row. *)
Definition end_marker : Z := Z.of_nat (length label_list).

(** [for j, m in enumerate(label)] from position [j] on. The row
    [ate_logits[i]] is looked up where the loop reads it; [None]
    stands for a row index out of range. The result is [None] when
    the loop ends without [break], so that nothing is appended. *)
Fixpoint collect_loop (j : nat) (label : list Z) (ate_row : option (list Z))
    (temp_1 temp_2 : list string)
    : result (option (list string * list string)) :=
  match label with
  | [] => Ok None
  | m :: label' =>
      if Nat.eqb j 0 then collect_loop (S j) label' ate_row temp_1 temp_2
      else if m =? end_marker then Ok (Some (temp_1, temp_2))
      else
        match ate_row ≫= (fun row => row !! j) with
        | None => Raise IndexError
        | Some p =>
            collect_loop (S j) label' ate_row
              (temp_1 ++ [AspectExtractor.label_map_get label_list m])
              (temp_2 ++ [AspectExtractor.label_map_get label_list p])
        end
  end.

(** Whether the row of predictions reaches as far as the labels
    that the loop has still to read from position [j] on. *)
Definition reaches (j : nat) (label : list Z) (ate_row : option (list Z))
    : bool :=
  match label, ate_row with
  | [], _ => true
  | _, Some preds => (j + length label <=? length preds)%nat
  | _, None => false
  end.

Definition collect_row (label : list Z) (ate_row : option (list Z))
    : result (option (list string * list string)) :=
  collect_loop 0 label ate_row [] [].

(** The body of [for i, label in enumerate(label_ids)] on the pair
    [(y_true, y_pred)]. *)
Definition collect_step (ate_logits : list (list Z))
    (acc : list (list string) * list (list string)) (il : nat * list Z)
    : result (list (list string) * list (list string)) :=
  let* r := collect_row il.2 (ate_logits !! il.1) in
  Ok (match r with
      | Some (temp_1, temp_2) => (acc.1 ++ [temp_1], acc.2 ++ [temp_2])
      | None => acc
      end).

(** The [if eval_ATE] block for one batch: [label_ids] is first
    converted unless [opt.use_bert_spc] is set. [ate_logits] holds
    the tag ids after [argmax]. *)
Definition collect_batch (use_bert_spc : bool)
    (label_ids ate_logits : list (list Z))
    (acc : list (list string) * list (list string))
    : result (list (list string) * list (list string)) :=
  let* label_ids :=
    if negb use_bert_spc then mapM (zero_after_first 5) label_ids
    else Ok label_ids in
  foldM (collect_step ate_logits) (imap pair label_ids) acc.

(** Rows of [y_true] and [y_pred] correspond and are equally long. *)
Definition aligned (acc : list (list string) * list (list string)) : Prop :=
  Forall2 (fun t p : list string => length t = length p) acc.1 acc.2.

End Collect.

End Evaluate.

(** ** APC dataset construction: the record loop
    (apc/dataset_utils/data_utils_for_training.py) *)

Module DatasetRecords.

Local Open Scope string_scope.

(** The model classes that key [ABSADataset.input_colses];
    [OtherModel] stands for any class that is not a key. *)
Inductive model_class : Type :=
  | BERT_BASE
  | BERT_SPC
  | LCA_BERT
  | LCF_BERT
  | FAST_LCF_BERT
  | LCF_BERT_LARGE
  | LCFS_BERT
  | FAST_LCFS_BERT
  | LCFS_BERT_LARGE
  | SLIDE_LCFS_BERT
  | SLIDE_LCF_BERT
  | LCF_TEMPLATE_BERT
  | OtherModel.

(** [ABSADataset.input_colses[model]] *)
Definition input_colses (model : model_class) : result (list string) :=
  match model with
  | BERT_BASE => Ok ["text_raw_bert_indices"]
  | BERT_SPC => Ok ["text_bert_indices"]
  | LCA_BERT =>
      Ok ["text_bert_indices"; "text_raw_bert_indices"; "lca_ids"; "lcf_vec"]
  | LCF_BERT | FAST_LCF_BERT | LCF_BERT_LARGE | LCFS_BERT | FAST_LCFS_BERT
  | LCFS_BERT_LARGE | LCF_TEMPLATE_BERT =>
      Ok ["text_bert_indices"; "text_raw_bert_indices"; "lcf_vec"]
  | SLIDE_LCFS_BERT | SLIDE_LCF_BERT =>
      Ok ["text_bert_indices"; "spc_mask_vec"; "lcf_vec"; "left_lcf_vec";
          "right_lcf_vec"]
  | OtherModel => Raise KeyError
  end.

(** [col in cols] on a list of column names. *)
Definition has_column (col : string) (cols : list string) : bool :=
  existsb (String.eqb col) cols.

(** [range(0, n, 3)] *)
Definition range3 (n : nat) : list nat :=
  (fun k => 3 * k)%nat <$> seq 0 ((n + 2) / 3).

Section Records.

(** Index sequences and vectors, as the tokenizer produces them. *)
Context {T : Type}.

(** What [prepare_input_for_apc] returns. *)
Record prepared : Type := {
  p_text_raw : string;
  p_aspect : string;
  p_text_bert_indices : T;
  p_text_raw_bert_indices : T;
  p_aspect_bert_indices : T;
  p_lca_ids : T;
  p_lcf_cdm_vec : T;
  p_lcf_cdw_vec : T
}.

(** One item of the dataset; [None] is the [0] that stands in for
    a column that the model does not use. *)
Record data : Type := {
  text_raw : string;
  aspect : string;
  lca_ids : option T;
  lcf_vec : option T;
  spc_mask_vec : option T;
  text_bert_indices : option T;
  aspect_bert_indices : option T;
  text_raw_bert_indices : option T;
  polarity : Z
}.

(** [opt.model], [opt.model_name], [opt.lcf] *)
Variable model : model_class.
Variable model_name : string.
Variable lcf : string.

(** [str.strip], [str.lower], [str.partition("$T$")], [int] *)
Variable strip : string -> string.
Variable lower : string -> string.
Variable partition : string -> string * string * string.
Variable int : string -> result Z.

(** The helpers of apc_utils. *)
Variable prepare_input_for_apc : string -> string -> string -> result prepared.
Variable build_spc_mask_vec : T -> result T.
Variable build_sentiment_window : list data -> result (list data).

(** [lines[i]] *)
Definition line (lines : list string) (i : nat) : result string :=
  match lines !! i with
  | Some l => Ok l
  | None => Raise IndexError
  end.

Definition keep (col : string) (cols : list string) (v : T) : option T :=
  if has_column col cols then Some v else None.

(** The body of the loop over [range(0, len(lines), 3)]. *)
Definition read_record (lines : list string) (i : nat) : result data :=
  let* l0 := line lines i in
  let '(text_left, _, text_right) := partition l0 in
  let text_left := strip text_left in
  let text_right := strip text_right in
  let* l1 := line lines (i + 1) in
  let aspect := strip (lower l1) in
  let* l2 := line lines (i + 2) in
  let* polarity := int (strip l2) in
  let* prepared_inputs := prepare_input_for_apc text_left text_right aspect in
  let lcf_vec :=
    if String.eqb lcf "cdm" then prepared_inputs.(p_lcf_cdm_vec)
    else prepared_inputs.(p_lcf_cdw_vec) in
  let* cols := input_colses model in
  let* spc :=
    if has_column "spc_mask_vec" cols then
      let* v := build_spc_mask_vec prepared_inputs.(p_text_raw_bert_indices) in
      Ok (Some v)
    else Ok None in
  Ok {| text_raw := prepared_inputs.(p_text_raw);
        aspect := prepared_inputs.(p_aspect);
        lca_ids := keep "lca_ids" cols prepared_inputs.(p_lca_ids);
        lcf_vec := keep "lcf_vec" cols lcf_vec;
        spc_mask_vec := spc;
        text_bert_indices :=
          keep "text_bert_indices" cols prepared_inputs.(p_text_bert_indices);
        aspect_bert_indices :=
          keep "aspect_bert_indices" cols
            prepared_inputs.(p_aspect_bert_indices);
        text_raw_bert_indices :=
          keep "text_raw_bert_indices" cols
            prepared_inputs.(p_text_raw_bert_indices);
        polarity := polarity |}.

Definition read_records (lines : list string) : result (list data) :=
  mapM (read_record lines) (range3 (length lines)).

(** [ABSADataset.__init__] on the lines of the file: the items of
    the dataset and the new [opt.polarities_dim]. The labels are
    those of the records read, in file order. *)
Definition __init__ (lines : list string) : result (list data * Z) :=
  let* records := read_records lines in
  let* all_data :=
    if Py.str_in "slide" model_name then build_sentiment_window records
    else Ok records in
  let* polarities_dim := ABSADataset.__init__ (polarity <$> records) in
  Ok (all_data, polarities_dim).

End Records.

End DatasetRecords.

(** A dataset file of two reviews, with the helpers of a tokenizer
    that keeps nothing but the texts. *)
Module DatasetExamples.

Local Open Scope string_scope.

Definition lines : list string :=
  ["the $T$ is nice"; "screen"; "1"; "the $T$ is weak"; "battery"; "0"].

Definition strip (s : string) : string := s.

Definition lower (s : string) : string := s.

Definition partition (s : string) : string * string * string := (s, "", "").

Definition int (s : string) : result Z :=
  if String.eqb s "0" then Ok 0
  else if String.eqb s "1" then Ok 1
  else Raise ValueError.

Definition prepare_input_for_apc (text_left text_right aspect : string)
    : result (@DatasetRecords.prepared unit) :=
  Ok {| DatasetRecords.p_text_raw := text_left;
        DatasetRecords.p_aspect := aspect;
        DatasetRecords.p_text_bert_indices := ();
        DatasetRecords.p_text_raw_bert_indices := ();
        DatasetRecords.p_aspect_bert_indices := ();
        DatasetRecords.p_lca_ids := ();
        DatasetRecords.p_lcf_cdm_vec := ();
        DatasetRecords.p_lcf_cdw_vec := () |}.

Definition build_spc_mask_vec (v : unit) : result unit := Ok ().

Definition read_records (lines : list string)
    : result (list (@DatasetRecords.data unit)) :=
  DatasetRecords.read_records DatasetRecords.LCF_BERT "cdm" strip lower
    partition int prepare_input_for_apc build_spc_mask_vec lines.

End DatasetExamples.

(** ** Checkpoint lists by version (model_utils.py) *)

Module Checkpoints.

Local Open Scope string_scope.

(** [c in s] for a string [c] of one character. *)
Fixpoint char_in (c : ascii) (s : string) : bool :=
  match s with
  | EmptyString => false
  | String a s' => Ascii.eqb a c || char_in c s'
  end.

(** [s.partition(c)]: what precedes and what follows the first
    occurrence of [c]; all of [s] and the empty string when [c]
    does not occur. *)
Fixpoint partition (c : ascii) (s : string) : string * string :=
  match s with
  | EmptyString => (EmptyString, EmptyString)
  | String a s' =>
      if Ascii.eqb a c then (EmptyString, s')
      else let '(l, r) := partition c s' in (String a l, r)
  end.

Section Update.

(** The checkpoints of one task, by name. *)
Context {M : Type}.

(** [__version__] *)
Variable version : string.

(** [str.upper] *)
Variable upper : string -> string.

(** [min_ver <= __version__ <= max_ver] for a key with the
    separator [sep]; strings are compared character by character. *)
Definition between (sep : ascii) (t_map : string) : bool :=
  let '(min_ver, max_ver) := partition sep t_map in
  let max_ver := if Trainer.truthy max_ver then max_ver else "N.A." in
  String.leb min_ver version && String.leb version max_ver.

(** Whether the loop merges the entry of the key [t_map]. *)
Definition in_range (t_map : string) : bool :=
  if char_in "-" t_map then between "-" t_map
  else if char_in "+" t_map then between "+" t_map
  else String.leb t_map version.

(** The loop over the keys of [checkpoint_map], given as the list
    of the items of the dictionary in order;
    [current_version_map.update] replaces the entry of a task that
    it has already. *)
Definition update_step (current : gmap string M)
    (item : string * gmap string M) : gmap string M :=
  if in_range item.1 then item.2 ∪ current else current.

Definition current_version_map (checkpoint_map : list (string * gmap string M))
    : gmap string M :=
  foldl update_step ∅ checkpoint_map.

Definition getitem (d : gmap string M) (key : string) : result M :=
  match d !! key with
  | Some v => Ok v
  | None => Raise KeyError
  end.

(** [update_checkpoints(task)]; [downloaded] is [None] when the
    download raises [ConnectionError], the one exception that is
    caught, and the function then returns [None]. *)
Definition update_checkpoints (downloaded : option (list (string * gmap string M)))
    (task : string) : result (option M) :=
  match downloaded with
  | None => Ok None
  | Some checkpoint_map =>
      let current_version_map := current_version_map checkpoint_map in
      let* APC_checkpoint_map := getitem current_version_map "APC" in
      let* ATEPC_checkpoint_map := getitem current_version_map "ATEPC" in
      Ok (Some (if String.eqb (upper task) "APC" then APC_checkpoint_map
                else ATEPC_checkpoint_map))
  end.

End Update.

End Checkpoints.

(** * Properties *)

(** ** Rows without a separator *)

Section MapM.

Context {A B : Type} (f : A -> result B).

Lemma mapM_total (l : list A) :
  Forall (fun x => exists y, f x = Ok y) l ->
  exists out, mapM f l = Ok out /\ length out = length l
    /\ forall i x, l !! i = Some x -> exists y, f x = Ok y /\ out !! i = Some y.
Proof.
  induction 1 as [|x l [y Hy] _ (out & Hout & Hlen & Hlook)]; simpl.
  - exists []. split_and!; [done..|]. intros i x Hi. by rewrite lookup_nil in Hi.
  - exists (y :: out). rewrite Hy, Hout. simpl. split_and!; [done|by f_equal|].
    intros [|i] x'; simpl.
    + intros [= <-]. eauto.
    + apply Hlook.
Qed.

Lemma mapM_raises (pre : list A) (x : A) (post : list A) (ys : list B) (e : exn) :
  map f pre = map Ok ys -> f x = Raise e -> mapM f (pre ++ x :: post) = Raise e.
Proof.
  revert ys. induction pre as [|a pre IH]; intros ys Hpre Hx; simpl.
  - by rewrite Hx.
  - destruct ys as [|y ys]; [done|]. simpl in Hpre. injection Hpre as Ha Hpre.
    rewrite Ha. simpl. by rewrite (IH ys).
Qed.

Lemma mapM_Ok (l : list A) (ys : list B) :
  mapM f l = Ok ys <-> map f l = map Ok ys.
Proof.
  revert ys. induction l as [|a l IH]; intros ys; simpl.
  - split; [intros [= <-]; done|]. destruct ys; [done|discriminate].
  - destruct (f a) as [y|e] eqn:Ha; simpl.
    + destruct (mapM f l) as [ys'|e'] eqn:Hm; simpl.
      * split.
        -- intros [= <-]. simpl. f_equal. by apply IH.
        -- destruct ys as [|y0 ys0]; [done|]. simpl. intros [= -> Hrest].
           apply IH in Hrest. by injection Hrest as ->.
      * split; [done|]. destruct ys as [|y0 ys0]; [done|]. simpl.
        intros [= _ Hrest]. apply IH in Hrest. discriminate.
    + split; [done|]. destruct ys; [done|]. simpl. intros [= ? _].
Qed.

Lemma mapM_Raise (l : list A) (e : exn) :
  mapM f l = Raise e ->
  exists pre x post ys,
    l = pre ++ x :: post /\ map f pre = map Ok ys /\ f x = Raise e.
Proof.
  induction l as [|a l IH]; simpl; [done|].
  destruct (f a) as [y|e'] eqn:Ha; simpl.
  - destruct (mapM f l) as [ys'|e'] eqn:Hm; simpl; [done|].
    intros [= ->]. destruct (IH eq_refl) as (pre & x & post & ys & -> & Hpre & Hx).
    exists (a :: pre), x, post, (y :: ys). simpl. by rewrite Ha, Hpre.
  - intros [= ->]. by exists [], a, l, [].
Qed.

End MapM.

Lemma first_index_absent (v : Z) (row : list Z) :
  v ∉ row -> Numpy.first_index v row = None.
Proof.
  induction row as [|x row IH]; intros Hnot; simpl; [done|].
  apply not_elem_of_cons in Hnot as [Hne Hnot].
  destruct (Z.eqb_spec x v); [congruence|]. by rewrite IH.
Qed.

Lemma zero_after_first_nonempty (v : Z) (row : list Z) :
  row <> [] -> exists out, zero_after_first v row = Ok out.
Proof. destruct row; [done|]. intros _. unfold zero_after_first. simpl. eauto. Qed.

Lemma zero_after_first_absent (v : Z) (row : list Z) :
  row <> [] -> v ∉ row ->
  zero_after_first v row = Ok (take 1 row ++ replicate (length row - 1) 0).
Proof.
  intros Hne Hnot. unfold zero_after_first, Numpy.argmax_eq.
  destruct row as [|x row]; [done|].
  rewrite (first_index_absent v (x :: row) Hnot). reflexivity.
Qed.

Lemma rows_without_marker_erased (v : Z) (rows : list (list Z)) :
  Forall (fun row => row <> []) rows ->
  exists out, mapM (zero_after_first v) rows = Ok out
    /\ length out = length rows
    /\ forall i row, rows !! i = Some row -> v ∉ row ->
         out !! i = Some (take 1 row ++ replicate (length row - 1) 0).
Proof.
  intros Hne.
  destruct (mapM_total (zero_after_first v) rows) as (out & Hout & Hlen & Hlook).
  { eapply Forall_impl; [exact Hne|]. intros row. apply zero_after_first_nonempty. }
  exists out. split_and!; [done..|].
  intros i row Hi Hnot. destruct (Hlook i row Hi) as (y & Hy & ->).
  rewrite zero_after_first_absent in Hy; [congruence| |done].
  eapply Forall_lookup_1 in Hne; eauto.
Qed.

(** C10: a row of token ids that holds no separator id 102 comes out
    of [get_ids_for_local_context_extractor] with every position
    after index 0 set to 0 (only its first element is kept), and the
    same happens to a label row without tag id 5 in
    [get_batch_token_labels_bert_base_indices]; this holds for both
    model classes, on every batch of non-empty rows. *)
Theorem rows_without_separator_are_zeroed (rows : list (list Z)) :
  Forall (fun row => row <> []) rows ->
  (exists out,
      LCF_ATEPC_LARGE.get_ids_for_local_context_extractor rows = Ok out
      /\ BERT_BASE_ATEPC.get_ids_for_local_context_extractor rows = Ok out
      /\ length out = length rows
      /\ forall i row, rows !! i = Some row -> 102 ∉ row ->
           out !! i = Some (take 1 row ++ replicate (length row - 1) 0))
  /\ (exists out,
      LCF_ATEPC_LARGE.get_batch_token_labels_bert_base_indices (Some rows)
        = Ok (Some out)
      /\ BERT_BASE_ATEPC.get_batch_token_labels_bert_base_indices (Some rows)
        = Ok (Some out)
      /\ length out = length rows
      /\ forall i row, rows !! i = Some row -> 5 ∉ row ->
           out !! i = Some (take 1 row ++ replicate (length row - 1) 0)).
Proof.
  intros Hne. split.
  - destruct (rows_without_marker_erased 102 rows Hne) as (out & Hout & Hlen & Hrow).
    exists out. by split_and!.
  - destruct (rows_without_marker_erased 5 rows Hne) as (out & Hout & Hlen & Hrow).
    exists out.
    unfold LCF_ATEPC_LARGE.get_batch_token_labels_bert_base_indices,
      BERT_BASE_ATEPC.get_batch_token_labels_bert_base_indices.
    rewrite Hout. by split_and!.
Qed.

Lemma rows_without_separator_are_zeroed_witness :
  exists out,
    LCF_ATEPC_LARGE.get_ids_for_local_context_extractor [[101; 7; 8; 9]] = Ok out
    /\ out !! 0%nat = Some [101; 0; 0; 0].
Proof.
  destruct (rows_without_separator_are_zeroed [[101; 7; 8; 9]])
    as [(out & Hout & _ & _ & Hrow) _].
  { repeat constructor; discriminate. }
  exists out. split; [exact Hout|].
  apply (Hrow 0%nat [101; 7; 8; 9]); [reflexivity|].
  intros Hin. repeat (apply elem_of_cons in Hin as [Hin|Hin]; [discriminate|]).
  by apply elem_of_nil in Hin.
Defined.

(** ** Polarity labels of a dataset *)

Lemma foldr_min_spec (x : Z) (l : list Z) :
  foldr Z.min x l ∈ x :: l /\ forall y, y ∈ x :: l -> foldr Z.min x l <= y.
Proof.
  induction l as [|a l [IHin IHle]]; simpl.
  - split; [left|]. intros y Hy. apply list_elem_of_singleton in Hy. lia.
  - split.
    + destruct (Z.min_spec a (foldr Z.min x l)) as [[_ ->]|[_ ->]].
      * right; left.
      * apply elem_of_cons in IHin as [->|Hin]; [left|by do 2 right].
    + intros y Hy. rewrite !elem_of_cons in Hy.
      assert (foldr Z.min x l <= y \/ y = a) as [Hle| ->]; [|lia..].
      destruct Hy as [->|[->|Hy]]; [left; apply IHle; left|by right|].
      left. apply IHle. by right.
Qed.


Lemma py_min_spec (s : gset Z) :
  match Py.min s with
  | Ok m => m ∈ s /\ forall y, y ∈ s -> m <= y
  | Raise e => e = ValueError /\ s = ∅
  end.
Proof.
  unfold Py.min. destruct (elements s) as [|x l] eqn:He.
  - split; [done|]. by apply elements_empty_inv in He; apply leibniz_equiv.
  - destruct (foldr_min_spec x l) as [Hin Hle]. rewrite <- He in Hin, Hle.
    split; [by apply elem_of_elements|].
    intros y Hy. apply Hle. by apply elem_of_elements.
Qed.






(** ** Splitting a tag sequence into single-aspect views *)

Section SplitAspects.

Import AspectExtractor.

Local Open Scope string_scope.
Local Open Scope list_scope.

Lemma first_end_cons (cur nxt : string) (l : list string) :
  first_end (cur :: nxt :: l)
  = if closes cur nxt then Some 0%nat else S <$> first_end (nxt :: l).
Proof. reflexivity. Qed.

Lemma find_seq_S (f : nat -> bool) (s n : nat) :
  List.find f (seq (S s) n) = S <$> List.find (fun j => f (S j)) (seq s n).
Proof.
  revert s. induction n as [|n IH]; intros s; simpl; [done|].
  destruct (f (S s)); [done|]. apply IH.
Qed.

Lemma find_ext_seq (f g : nat -> bool) (s n : nat) :
  (forall j, f j = g j) -> List.find f (seq s n) = List.find g (seq s n).
Proof.
  intros Hfg. revert s. induction n as [|n IH]; intros s; simpl; [done|].
  rewrite Hfg. destruct (g s); [done|]. apply IH.
Qed.

Lemma first_span_end_rec (l : list string) : first_span_end l = first_end l.
Proof.
  unfold first_span_end. induction l as [|cur l IH]; [done|].
  destruct l as [|nxt l]; [done|].
  replace (length (cur :: nxt :: l) - 1)%nat with (S (length (nxt :: l) - 1))
    by (simpl; lia).
  cbn [seq List.find].
  change (closes_span (cur :: nxt :: l) 0) with (closes cur nxt).
  change (first_end (cur :: nxt :: l))
    with (if closes cur nxt then Some 0%nat else S <$> first_end (nxt :: l)).
  destruct (closes cur nxt); [done|].
  rewrite find_seq_S, <- IH. f_equal.
Qed.

Lemma closes_no_asp (cur nxt : string) : no_asp cur -> closes cur nxt = false.
Proof.
  unfold no_asp, closes. intros Hcur.
  destruct (String.eqb_spec "B-ASP" cur) as [<-|_]; [discriminate|].
  destruct (String.eqb_spec "I-ASP" cur) as [<-|_]; [discriminate|]. done.
Qed.

Lemma closes_before_I (cur : string) : closes cur "I-ASP" = false.
Proof. unfold closes. simpl. by rewrite !andb_false_r. Qed.

Lemma closes_before_B (cur : string) : closes cur "B-ASP" = false.
Proof. unfold closes. simpl. by rewrite !andb_false_r. Qed.

Lemma closes_I (nxt : string) : no_asp nxt -> closes "I-ASP" nxt = true.
Proof. unfold closes, no_asp. intros ->. done. Qed.

Lemma closes_B (nxt : string) : no_asp nxt -> closes "B-ASP" nxt = true.
Proof. unfold closes, no_asp. intros ->. done. Qed.

(** A run of ["I-ASP"] followed by a tag without ["ASP"] ends at its
    last element. *)
Lemma first_end_inside (cur : string) (k : nat) (y : string) (rest : list string) :
  cur = "B-ASP" \/ cur = "I-ASP" -> no_asp y ->
  first_end (cur :: replicate k "I-ASP" ++ y :: rest) = Some k.
Proof.
  revert cur. induction k as [|k IH]; intros cur Hcur Hy; simpl.
  - destruct Hcur as [-> | ->]; [by rewrite closes_B|by rewrite closes_I].
  - rewrite closes_before_I.
    change (S <$> first_end ("I-ASP" :: replicate k "I-ASP" ++ y :: rest) = Some (S k)).
    rewrite IH by auto. done.
Qed.

Lemma first_end_inside_last (cur : string) (k : nat) :
  first_end (cur :: replicate k "I-ASP") = None.
Proof.
  revert cur. induction k as [|k IH]; intros cur; simpl; [done|].
  rewrite closes_before_I.
  change (S <$> first_end ("I-ASP" :: replicate k "I-ASP") = None).
  by rewrite IH.
Qed.

(** In a list that begins with tags without ["ASP"], followed by one
    span and one more tag without ["ASP"], the first span end is the
    last tag of the span. *)
Lemma first_end_span (xs : list string) (k : nat) (y : string)
    (rest : list string) :
  Forall no_asp xs -> no_asp y ->
  first_end (xs ++ span k ++ y :: rest) = Some (length xs + k)%nat.
Proof.
  intros Hxs Hy. induction Hxs as [|x xs Hx Hxs IH].
  - simpl. apply first_end_inside; auto.
  - change ((x :: xs) ++ span k ++ y :: rest)
      with (x :: (xs ++ span k ++ y :: rest)).
    destruct (xs ++ span k ++ y :: rest) as [|z zs] eqn:Heq.
    { destruct xs; discriminate. }
    rewrite first_end_cons, (closes_no_asp x z Hx), IH. done.
Qed.

Lemma first_end_span_last (xs : list string) (k : nat) :
  Forall no_asp xs -> first_end (xs ++ span k) = None.
Proof.
  intros Hxs. induction Hxs as [|x xs Hx Hxs IH].
  - simpl. apply first_end_inside_last.
  - change ((x :: xs) ++ span k) with (x :: (xs ++ span k)).
    destruct (xs ++ span k) as [|z zs] eqn:Heq.
    { destruct xs; discriminate. }
    rewrite first_end_cons, (closes_no_asp x z Hx), IH. done.
Qed.

Lemma no_asp_O : no_asp "O".
Proof. reflexivity. Qed.

Lemma Forall_no_asp_O (n : nat) : Forall no_asp (replicate n "O").
Proof. apply Forall_replicate, no_asp_O. Qed.

Lemma count_no_asp (l : list string) :
  Forall no_asp l -> Py.count "B-ASP" l = 0%nat.
Proof.
  unfold Py.count. induction 1 as [|x l Hx _ IH]; [done|].
  rewrite filter_cons. case_decide as Heq; [|done].
  subst x. discriminate Hx.
Qed.

Lemma count_app (x : string) (l1 l2 : list string) :
  Py.count x (l1 ++ l2) = (Py.count x l1 + Py.count x l2)%nat.
Proof. unfold Py.count. by rewrite filter_app, length_app. Qed.

Lemma count_span (k : nat) : Py.count "B-ASP" (span k) = 1%nat.
Proof.
  unfold Py.count, span. rewrite filter_cons. case_decide; [|done]. simpl.
  f_equal. induction k as [|k IH]; [done|]. simpl.
  rewrite filter_cons. case_decide; [discriminate|done].
Qed.

Lemma polarity_mask_tags (tokens tags : list string) :
  (length tags <= length tokens)%nat ->
  polarity_mask tokens tags = pad_mask tags.
Proof.
  intros Hlen. unfold polarity_mask, pad_mask.
  rewrite <- (snd_zip tokens tags) at 2 by done.
  by rewrite <- list_fmap_compose.
Qed.

Lemma pad_mask_no_asp (l : list string) :
  Forall no_asp l -> pad_mask l = replicate (length l) SENTIMENT_PADDING.
Proof.
  induction 1 as [|x l Hx _ IH]; [done|]. simpl. rewrite Hx. by f_equal.
Qed.

Lemma pad_mask_span (k : nat) :
  pad_mask (span k) = replicate (S k) (- SENTIMENT_PADDING).
Proof.
  unfold span. simpl. f_equal. induction k as [|k IH]; [done|]. simpl. by f_equal.
Qed.

Lemma pad_mask_app (l1 l2 : list string) :
  pad_mask (l1 ++ l2) = pad_mask l1 ++ pad_mask l2.
Proof. unfold pad_mask. apply map_app. Qed.

Lemma length_span (k : nat) : length (span k) = S k.
Proof. unfold span. simpl. by rewrite length_replicate. Qed.

Lemma split_step_at (tokens : list string) (n i : nat) (st : split_state)
    (keep rest : list string) (pkeep prest : list Z) :
  st.(pred_iobs) = keep ++ rest -> length keep = S i ->
  st.(polarity) = pkeep ++ prest -> length pkeep = S i ->
  first_span_end st.(pred_iobs) = Some i -> (S i <= n)%nat ->
  split_step tokens (replicate n "O") (replicate n SENTIMENT_PADDING) st
  = {| pred_iobs := replicate (S i) "O" ++ rest;
       polarity := replicate (S i) SENTIMENT_PADDING ++ prest;
       res := st.(res)
              ++ [(tokens, keep ++ replicate (n - S i) "O",
                   pkeep ++ replicate (n - S i) SENTIMENT_PADDING)] |}.
Proof.
  intros Hpred Hkeep Hpol Hpkeep Hend Hn. unfold split_step. rewrite Hend.
  replace (i + 1)%nat with (S i) by lia. rewrite Hpred, Hpol.
  rewrite !take_app_length', !drop_app_length' by done.
  rewrite !take_replicate, !drop_replicate.
  by replace (S i `min` n)%nat with (S i) by lia.
Qed.

Lemma split_step_last (tokens IOB_PADDING : list string)
    (POLARITY_PADDING : list Z) (st : split_state) :
  first_span_end st.(pred_iobs) = None ->
  split_step tokens IOB_PADDING POLARITY_PADDING st
  = {| pred_iobs := st.(pred_iobs);
       polarity := st.(polarity);
       res := st.(res) ++ [(tokens, st.(pred_iobs), st.(polarity))] |}.
Proof. intros Hend. unfold split_step. by rewrite Hend. Qed.

End SplitAspects.

(** C7, as the code has it: for a tag sequence with exactly two spans
    of the form B-ASP I-ASP* that are separated by at least one tag
    without "ASP", and with no other tag containing "ASP", the
    extraction yields exactly two tuples; the first keeps the first
    span and has every later position reset to the O tag and to the
    padding sentinel, the second keeps the second span and has every
    position up to the end of the first span reset to O and the
    sentinel, so each tuple shows one aspect. *)
Theorem two_separated_spans_give_two_single_aspect_views
    (tokens pre mid post : list string) (k1 k2 : nat) :
  let tags :=
    pre ++ AspectExtractor.span k1 ++ mid ++ AspectExtractor.span k2 ++ post in
  let PAD := SENTIMENT_PADDING in
  Forall AspectExtractor.no_asp pre ->
  Forall AspectExtractor.no_asp mid ->
  Forall AspectExtractor.no_asp post ->
  mid <> [] -> (length tags <= length tokens)%nat ->
  AspectExtractor.split_aspects tokens tags
  = [ (tokens,
       pre ++ AspectExtractor.span k1
         ++ replicate (length mid + S k2 + length post) "O"%string,
       replicate (length pre) PAD ++ replicate (S k1) (- PAD)
         ++ replicate (length mid + S k2 + length post) PAD);
      (tokens,
       replicate (length pre + S k1) "O"%string ++ mid
         ++ AspectExtractor.span k2 ++ replicate (length post) "O"%string,
       replicate (length pre + S k1 + length mid) PAD
         ++ replicate (S k2) (- PAD) ++ replicate (length post) PAD) ].
Proof.
  intros tags PAD Hpre Hmid Hpost Hne Hlen.
  destruct mid as [|y mid']; [done|]. clear Hne.
  apply Forall_cons in Hmid as Hy. destruct Hy as [Hy Hmid'].
  unfold AspectExtractor.split_aspects.
  assert (Py.count "B-ASP" tags = 2%nat) as ->.
  { unfold tags. rewrite !count_app, !count_span, !count_no_asp by done. done. }
  rewrite polarity_mask_tags by done.
  set (n := length tags).
  assert (n = length pre + S k1 + S (length mid') + S k2 + length post)%nat as Hn.
  { unfold n, tags. rewrite !length_app, !length_span. simpl. lia. }
  cbn [AspectExtractor.split_loop].
  (* first iteration *)
  rewrite (split_step_at tokens n (length pre + k1)
             {| AspectExtractor.pred_iobs := tags;
                AspectExtractor.polarity := AspectExtractor.pad_mask tags;
                AspectExtractor.res := [] |}
              (pre ++ AspectExtractor.span k1) ((y :: mid') ++ AspectExtractor.span k2 ++ post)
              (AspectExtractor.pad_mask (pre ++ AspectExtractor.span k1))
              (AspectExtractor.pad_mask ((y :: mid') ++ AspectExtractor.span k2 ++ post))).
  2:{ cbn [AspectExtractor.pred_iobs]. unfold tags. by rewrite <- !app_assoc. }
  2:{ rewrite length_app, length_span. lia. }
  2:{ cbn [AspectExtractor.polarity]. unfold tags.
      by rewrite <- pad_mask_app, <- !app_assoc. }
  2:{ unfold AspectExtractor.pad_mask. rewrite length_map, length_app, length_span. lia. }
  2:{ cbn [AspectExtractor.pred_iobs]. rewrite first_span_end_rec. unfold tags.
      change ((y :: mid') ++ AspectExtractor.span k2 ++ post)
        with (y :: (mid' ++ AspectExtractor.span k2 ++ post)).
      by apply first_end_span. }
  2:{ lia. }
  cbn [AspectExtractor.res]. rewrite app_nil_l.
  (* second iteration *)
  set (a := S (length pre + k1)).
  destruct post as [|p post'].
  - rewrite split_step_last.
    2:{ cbn [AspectExtractor.pred_iobs]. rewrite first_span_end_rec.
        rewrite app_nil_r, app_assoc. apply first_end_span_last.
        apply Forall_app. split; [apply Forall_no_asp_O|done]. }
    cbn [AspectExtractor.res AspectExtractor.pred_iobs AspectExtractor.polarity].
    change ([?x] ++ [?y]) with [x; y].
    rewrite !pad_mask_app, !pad_mask_span, !pad_mask_no_asp by done.
    rewrite !app_nil_r. simpl length. simpl in Hn. unfold PAD.
    replace (n - a)%nat with (S (length mid') + S k2 + 0)%nat by (unfold a; lia).
    replace (length pre + S k1)%nat with a by (unfold a; lia).
    rewrite (replicate_add a), <- !app_assoc. reflexivity.
  - apply Forall_cons in Hpost as Hp. destruct Hp as [Hp Hpost'].
    erewrite (split_step_at tokens n (a + S (length mid') + k2) _
                ((replicate a "O"%string ++ y :: mid') ++ AspectExtractor.span k2) (p :: post')
                (replicate a SENTIMENT_PADDING
                   ++ AspectExtractor.pad_mask ((y :: mid') ++ AspectExtractor.span k2))
                (AspectExtractor.pad_mask (p :: post'))).
    2:{ cbn [AspectExtractor.pred_iobs]. by rewrite <- !app_assoc. }
    2:{ rewrite !length_app, length_replicate, length_span. simpl. lia. }
    2:{ cbn [AspectExtractor.polarity].
        rewrite (pad_mask_app (y :: mid')), (pad_mask_app (AspectExtractor.span k2)).
        rewrite (pad_mask_app (y :: mid')). by rewrite <- !app_assoc. }
    2:{ unfold AspectExtractor.pad_mask. rewrite !length_app, length_replicate, length_map,
          length_app, length_span. simpl. lia. }
    2:{ cbn [AspectExtractor.pred_iobs]. rewrite first_span_end_rec.
        replace (a + S (length mid') + k2)%nat
          with (length (replicate a "O"%string ++ y :: mid') + k2)%nat
          by (rewrite length_app, length_replicate; simpl; lia).
        rewrite app_assoc. apply first_end_span; [|done].
        apply Forall_app. split; [apply Forall_no_asp_O|done]. }
    2:{ simpl in Hn. lia. }
    cbn [AspectExtractor.res]. change ([?x] ++ [?y]) with [x; y].
    rewrite !pad_mask_app, !pad_mask_span, !pad_mask_no_asp by done.
    simpl length. simpl in Hn. unfold PAD.
    replace (n - a)%nat with (S (length mid') + S k2 + S (length post'))%nat
      by (unfold a; lia).
    replace (n - S (a + S (length mid') + k2))%nat with (S (length post'))
      by (unfold a; lia).
    replace (length pre + S k1)%nat with a by (unfold a; lia).
    rewrite (replicate_add a), <- !app_assoc. reflexivity.
Qed.

Lemma two_separated_spans_give_two_single_aspect_views_witness :
  AspectExtractor.split_aspects
    ["the"; "battery"; "life"; "and"; "screen"; "rock"]%string
    ["O"; "B-ASP"; "I-ASP"; "O"; "B-ASP"; "O"]%string
  = [ (["the"; "battery"; "life"; "and"; "screen"; "rock"]%string,
       ["O"; "B-ASP"; "I-ASP"; "O"; "O"; "O"]%string,
       [-999; 999; 999; -999; -999; -999]);
      (["the"; "battery"; "life"; "and"; "screen"; "rock"]%string,
       ["O"; "O"; "O"; "O"; "B-ASP"; "O"]%string,
       [-999; -999; -999; -999; 999; -999]) ].
Proof.
  apply (two_separated_spans_give_two_single_aspect_views
           ["the"; "battery"; "life"; "and"; "screen"; "rock"]%string
           ["O"%string] ["O"%string] ["O"%string] 1 0).
  - repeat constructor.
  - repeat constructor.
  - repeat constructor.
  - discriminate.
  - simpl. lia.
Defined.

(** Two adjacent spans, each a single B-ASP: the first tuple still
    shows both of them, the second shows none. *)
Lemma adjacent_spans_are_not_separated :
  AspectExtractor.split_aspects
    ["food"; "service"; "good"]%string ["B-ASP"; "B-ASP"; "O"]%string
  = [ (["food"; "service"; "good"]%string,
       ["B-ASP"; "B-ASP"; "O"]%string, [999; 999; -999]);
      (["food"; "service"; "good"]%string,
       ["O"; "O"; "O"]%string, [-999; -999; -999]) ].
Proof. reflexivity. Qed.

(** ** Errors during batch inference *)

Lemma constructed_trainer_is_run (fuel : nat) (o o' : Trainer.Opt)
    (worlds : nat -> Trainer.World) (ins : Trainer.Instructor)
    (eval_pass : Z -> Trainer.Metrics) (randperm : Z -> list nat) :
  Trainer.Instructor__init__ o (worlds 0%nat) = (o', Ok ins) ->
  Trainer.train4atepc (S fuel) o worlds eval_pass randperm
  = (Trainer.Trained (Trainer.train ins eval_pass randperm), []).
Proof.
  intros Hinit. unfold Trainer.train4atepc. simpl. by rewrite Hinit.
Qed.

(** C8, as the code has it: [extract_aspect] on a list of examples
    has no handler around the per-example work. It returns the list
    of results exactly when every example succeeds; otherwise the
    exception of the first failing example leaves the call, no result
    is returned for the examples before it and the examples after it
    are not reported. Training has no handler either: whatever
    [trainer.train()] raises is the outcome of [train4atepc]. *)
Theorem batch_inference_stops_at_first_error {P : Type}
    (label_list : list string)
    (tag_example : string -> result AspectExtractor.tagged)
    (_infer : list AspectExtractor.extraction -> result P)
    (is_path : string -> bool)
    (examples : list string) (pred_sentiment : bool) :
  let extract_one :=
    AspectExtractor.extract_one P label_list tag_example _infer pred_sentiment in
  let extract_aspect :=
    AspectExtractor.extract_aspect P label_list tag_example _infer is_path in
  (forall rs,
      extract_aspect (AspectExtractor.ExList examples) pred_sentiment
        = Ok (AspectExtractor.OutMany rs)
      <-> map extract_one examples = map Ok rs)
  /\ (forall e,
      extract_aspect (AspectExtractor.ExList examples) pred_sentiment = Raise e
      <-> exists pre x post rs,
            examples = pre ++ x :: post
            /\ map extract_one pre = map Ok rs
            /\ extract_one x = Raise e)
  /\ (forall fuel o o' worlds ins eval_pass randperm e,
      Trainer.Instructor__init__ o (worlds 0%nat) = (o', Ok ins) ->
      Trainer.train ins eval_pass randperm = Raise e ->
      Trainer.train4atepc (S fuel) o worlds eval_pass randperm
      = (Trainer.Trained (Raise e), [])).
Proof.
  intros extract_one extract_aspect. split_and!.
  - intros rs. unfold extract_aspect, AspectExtractor.extract_aspect.
    fold extract_one. rewrite <- mapM_Ok.
    destruct (mapM _ examples) as [ys|e]; simpl; [|done].
    split; congruence.
  - intros e. unfold extract_aspect, AspectExtractor.extract_aspect.
    fold extract_one. split.
    + destruct (mapM _ examples) as [ys|e'] eqn:Hm; simpl; [done|].
      intros [= ->]. by apply mapM_Raise in Hm.
    + intros (pre & x & post & rs & -> & Hpre & Hx).
      by rewrite (mapM_raises _ pre x post rs e).
  - intros fuel o o' worlds ins eval_pass randperm e Hinit Htrain.
    by rewrite (constructed_trainer_is_run fuel o o' worlds ins), Htrain.
Qed.

(** The second of three examples raises: the call raises and returns
    nothing, where a per-example report would hold three items. *)
Lemma error_in_one_example_aborts_batch :
  let r := {| AspectExtractor.extraction_res :=
                [(["nice"; "screen"], ["O"; "B-ASP"], [-999; 999])]%string;
              AspectExtractor.polarity_res := Some ["Positive"%string] |} in
  AspectExtractor.extract_aspect (list string) Examples.label_list
    Examples.tag_example Examples.infer Examples.is_path
    (AspectExtractor.ExList ["good"; "bad"; "fine"]%string) true
  = Raise IndexError
  /\ AspectExtractor.extract_aspect_per_example_spec (list string)
       Examples.label_list Examples.tag_example Examples.infer
       ["good"; "bad"; "fine"]%string true
     = [Ok r; Raise IndexError; Ok r].
Proof. split; reflexivity. Qed.

(** ** Fusion of global and local features *)



(** ** Instructor construction *)

Section Construction.

Import Trainer.

Lemma Instructor_init_opt (o : Opt) (w : World) :
  let o' := (Instructor__init__ o w).1 in
  gradient_accumulation_steps o' = gradient_accumulation_steps o
  /\ l2reg o' = l2reg o /\ has_test o' = has_test o.
Proof.
  unfold Instructor__init__. destruct o as [? ? [] ? ? ? ? ? ? ? ? ?]; simpl;
    destruct (_ <? 1); simpl; done.
Qed.

(** The fields of a constructed [Instructor]. *)
Lemma Instructor_init_Ok (o : Opt) (w : World) (ins : Instructor) :
  (Instructor__init__ o w).2 = Ok ins ->
  let o' := (Instructor__init__ o w).1 in
  exists n_train,
    w.(train_examples) = Ok n_train
    /\ 0 < batch_size o'
    /\ ins.(opt) = o'
    /\ ins.(train_dataloader)
       = {| dataset_len := n_train; sampler := SequentialSampler;
            loader_batch_size := Z.to_nat (batch_size o') |}
    /\ (if has_test o
        then exists n_eval,
               w.(eval_examples) = Ok n_eval
               /\ ins.(eval_dataloader)
                  = Some {| dataset_len := n_eval; sampler := RandomSampler;
                            loader_batch_size := Z.to_nat (batch_size o') |}
        else ins.(eval_dataloader) = None)
    /\ ins.(optimizer_grouped_parameters)
       = grouped_parameters o' w.(named_parameters).
Proof.
  pose proof (Instructor_init_opt o w) as (_ & _ & Htest). revert Htest.
  unfold Instructor__init__.
  set (o1 := if use_bert_spc o then set_use_bert_spc false o else o).
  destruct (gradient_accumulation_steps o1 <? 1); [done|].
  set (o2 := set_batch_size _ o1). cbn [fst snd]. intros Htest.
  destruct (from_pretrained w) as [[]|]; [|done].
  destruct (train_examples w) as [n_train|]; [|done]. cbn [bind].
  destruct (Z.eqb_spec (batch_size o2) 0) as [|Hnz]; [done|].
  destruct (train_features w) as [[]|]; [|done]. cbn [bind].
  unfold new_DataLoader.
  destruct (Z.leb_spec (batch_size o2) 0) as [|Hpos]; [done|]. cbn [bind].
  rewrite <- Htest.
  destruct (has_test o2).
  - destruct (eval_examples w) as [n_eval|]; [|done]. cbn [bind].
    destruct (eval_features w) as [[]|]; [|done]. cbn [bind].
    destruct (build_model w) as [[]|]; [|done]. cbn [bind].
    destruct (existsb _ optimizers); [|done].
    intros [= <-]. exists n_train. split_and!; try done. by exists n_eval.
  - cbn [bind]. destruct (build_model w) as [[]|]; [|done]. cbn [bind].
    destruct (existsb _ optimizers); [|done].
    intros [= <-]. by exists n_train.
Qed.

Lemma decay_of_grouped (o : Opt) (names : list string) (n : string) :
  n ∈ names -> decay_of (grouped_parameters o names) n = Some (l2reg o).
Proof.
  intros Hin. unfold decay_of, grouped_parameters. cbn [List.find params].
  destruct (existsb (String.eqb n) (List.filter _ names)) eqn:H1; [done|].
  destruct (existsb (String.eqb n) (List.filter any_no_decay names)) eqn:H2;
    [done|]. exfalso.
  apply list_elem_of_In in Hin.
  destruct (any_no_decay n) eqn:Hnd.
  - apply not_true_iff_false in H2. apply H2, existsb_exists.
    exists n. split; [|apply String.eqb_refl]. apply filter_In. by split.
  - apply not_true_iff_false in H1. apply H1, existsb_exists.
    exists n. split; [|apply String.eqb_refl]. apply filter_In.
    split; [done|]. by rewrite Hnd.
Qed.

Lemma concat_chunk (fuel k : nat) (l : list nat) :
  (0 < k)%nat -> (length l <= fuel)%nat -> concat (chunk fuel k l) = l.
Proof.
  intros Hk. revert l. induction fuel as [|fuel IH]; intros l Hlen.
  - destruct l; [done|simpl in Hlen; lia].
  - destruct l as [|x l]; [done|]. cbn [chunk concat].
    rewrite IH; [apply take_drop|].
    rewrite length_drop. simpl in *. lia.
Qed.

End Construction.

(** C6, on the code: every parameter of the model, also a bias or a
    normalization parameter, is placed in a group whose weight decay
    is the configured [l2reg]; no group has decay zero. *)
Theorem no_decay_parameters_get_l2reg (o : Trainer.Opt) (w : Trainer.World)
    (ins : Trainer.Instructor) (n : string) :
  (Trainer.Instructor__init__ o w).2 = Ok ins ->
  n ∈ w.(Trainer.named_parameters) ->
  Trainer.any_no_decay n = true ->
  Trainer.decay_of ins.(Trainer.optimizer_grouped_parameters) n
  = Some o.(Trainer.l2reg).
Proof.
  intros Hinit Hin _.
  destruct (Instructor_init_Ok o w ins Hinit) as (? & _ & _ & _ & _ & _ & ->).
  rewrite decay_of_grouped by done.
  by destruct (Instructor_init_opt o w) as (_ & -> & _).
Qed.

Lemma no_decay_parameters_get_l2reg_witness :
  exists ins,
    (Trainer.Instructor__init__ Examples.opt_ok Examples.world_ok).2 = Ok ins
    /\ Trainer.decay_of ins.(Trainer.optimizer_grouped_parameters) "dense.bias"
       = Some (1 # 100)%Q.
Proof.
  eexists. split; [reflexivity|].
  apply (no_decay_parameters_get_l2reg Examples.opt_ok Examples.world_ok).
  - reflexivity.
  - right; left.
  - reflexivity.
Defined.

(** C5, on the code: the loader of the held-out split is built with
    a random sampler and the loader of the training split with a
    sequential one. A pass of [evaluate] visits the examples in the
    order of the permutation drawn for that pass, while an epoch of
    training visits them in file order whatever is drawn. *)
Theorem evaluation_order_is_random (o : Trainer.Opt) (w : Trainer.World)
    (ins : Trainer.Instructor) (randperm : list nat) :
  (Trainer.Instructor__init__ o w).2 = Ok ins ->
  o.(Trainer.has_test) = true ->
  (exists dl, ins.(Trainer.eval_dataloader) = Some dl
              /\ dl.(Trainer.sampler) = Trainer.RandomSampler)
  /\ ins.(Trainer.train_dataloader).(Trainer.sampler) = Trainer.SequentialSampler
  /\ Trainer.evaluate_order ins randperm = Some randperm
  /\ Trainer.train_order ins randperm
     = seq 0 ins.(Trainer.train_dataloader).(Trainer.dataset_len).
Proof.
  intros Hinit Htest.
  destruct (Instructor_init_Ok o w ins Hinit)
    as (n_train & _ & Hpos & _ & Htrain & Heval & _).
  rewrite Htest in Heval. destruct Heval as (n_eval & _ & Heval).
  unfold Trainer.evaluate_order, Trainer.train_order.
  rewrite Heval, Htrain. cbn [Trainer.sampler Trainer.dataset_len].
  split_and!; [by eexists|done| |].
  - cbn [fmap option_fmap option_map]. f_equal.
    unfold Trainer.DataLoader_iter. cbn. apply concat_chunk; lia.
  - unfold Trainer.DataLoader_iter. cbn. apply concat_chunk; lia.
Qed.

Lemma evaluation_order_is_random_witness :
  exists ins,
    (Trainer.Instructor__init__ Examples.opt_ok Examples.world_ok).2 = Ok ins
    /\ Trainer.evaluate_order ins [2; 0; 1]%nat = Some [2; 0; 1]%nat
    /\ Trainer.evaluate_order ins [0; 1; 2]%nat = Some [0; 1; 2]%nat.
Proof.
  eexists. split; [reflexivity|]. split.
  - apply (evaluation_order_is_random Examples.opt_ok Examples.world_ok);
      reflexivity.
  - apply (evaluation_order_is_random Examples.opt_ok Examples.world_ok);
      reflexivity.
Defined.

(** ** The retry loop of [train4atepc] *)

Section Retry.

Import Trainer.

Lemma Instructor_init_invalid_steps (o : Opt) (w : World) :
  gradient_accumulation_steps o < 1 ->
  (Instructor__init__ o w).2 = Raise ValueError.
Proof.
  intros Hlt. unfold Instructor__init__.
  set (o1 := if use_bert_spc o then set_use_bert_spc false o else o).
  assert (gradient_accumulation_steps o1 = gradient_accumulation_steps o) as Hgas
    by (unfold o1; by destruct (use_bert_spc o)).
  rewrite Hgas. by destruct (Z.ltb_spec (gradient_accumulation_steps o) 1); [|lia].
Qed.

Lemma train4atepc_loop_invalid_steps (fuel : nat) (o : Opt)
    (worlds : nat -> World) (attempt : nat) (eval_pass : Z -> Metrics)
    (randperm : Z -> list nat) (sleeps : list Z) :
  gradient_accumulation_steps o < 1 ->
  exists o',
    train4atepc_loop fuel o worlds attempt eval_pass randperm sleeps
    = (Retrying o', sleeps ++ replicate fuel 60)
    /\ gradient_accumulation_steps o' = gradient_accumulation_steps o.
Proof.
  revert o attempt sleeps. induction fuel as [|fuel IH]; intros o attempt sleeps Hlt.
  - exists o. simpl. by rewrite app_nil_r.
  - cbn [train4atepc_loop].
    pose proof (Instructor_init_invalid_steps o (worlds attempt) Hlt) as Hraise.
    pose proof (Instructor_init_opt o (worlds attempt)) as (Hgas & _).
    destruct (Instructor__init__ o (worlds attempt)) as [o1 r]. simpl in Hraise, Hgas.
    subst r.
    destruct (IH o1 (S attempt) (sleeps ++ [60])) as (o' & Hloop & Hgas');
      [lia|].
    exists o'. rewrite Hloop. split; [|lia].
    by rewrite <- app_assoc.
Qed.

End Retry.

(** C1, on the code: with [gradient_accumulation_steps < 1] the
    [ValueError] of the constructor is caught by [train4atepc]: after
    any number of attempts the call is still in its retry loop, it
    has slept 60 seconds after each attempt, and it has neither
    raised nor returned. *)
Theorem invalid_accumulation_steps_are_retried (fuel : nat) (o : Trainer.Opt)
    (worlds : nat -> Trainer.World) (eval_pass : Z -> Trainer.Metrics)
    (randperm : Z -> list nat) :
  o.(Trainer.gradient_accumulation_steps) < 1 ->
  exists o',
    Trainer.train4atepc fuel o worlds eval_pass randperm
    = (Trainer.Retrying o', replicate fuel 60).
Proof.
  intros Hlt. unfold Trainer.train4atepc.
  destruct (train4atepc_loop_invalid_steps fuel o worlds 0 eval_pass randperm []
              Hlt) as (o' & Hloop & _).
  by exists o'.
Qed.

Lemma invalid_accumulation_steps_are_retried_witness :
  Examples.opt_zero_steps.(Trainer.gradient_accumulation_steps) < 1
  /\ exists o',
       Trainer.train4atepc 3 Examples.opt_zero_steps (fun _ => Examples.world_ok)
         Examples.scores Examples.no_shuffle
       = (Trainer.Retrying o', [60; 60; 60]).
Proof.
  split; [reflexivity|].
  apply (invalid_accumulation_steps_are_retried 3 Examples.opt_zero_steps).
  reflexivity.
Defined.

(** ** The training loop *)

Section Loop.

Import Trainer.

Variable o : Opt.
Variable eval_pass : Z -> Metrics.

Hypothesis log_step_nonzero : has_test o = true -> log_step o <> 0.

Lemma evaluation_due_total (epoch : Z) (st : TrainState) :
  exists due, evaluation_due o epoch st = Ok due.
Proof.
  unfold evaluation_due. destruct (has_test o); [|by eexists].
  destruct (Z.eqb_spec (log_step o) 0) as [Hz|_]; [|by eexists].
  by destruct log_step_nonzero.
Qed.

Lemma train_batch_cases (epoch : Z) (st : TrainState) :
  train_batch o eval_pass epoch st = Ok (optimize_batch st)
  \/ train_batch o eval_pass epoch st
     = Ok (evaluation_event o eval_pass (optimize_batch st)).
Proof.
  unfold train_batch.
  destruct (evaluation_due_total epoch (optimize_batch st)) as [[] ->]; auto.
Qed.

(** *** Step counter and optimizer calls *)

Lemma occurrences_app (e : Event) (l1 l2 : list Event) :
  occurrences e (l1 ++ l2) = (occurrences e l1 + occurrences e l2)%nat.
Proof. unfold occurrences. by rewrite filter_app, length_app. Qed.

Lemma occurrences_batch_events (e : Event) :
  is_batch_event e -> occurrences e batch_events = 1%nat.
Proof.
  unfold is_batch_event, batch_events. rewrite !elem_of_cons, elem_of_nil.
  intros [->|[->|[->|[->|[]]]]]; reflexivity.
Qed.

Lemma counts_batches_trans (k1 k2 : nat) (st1 st2 st3 : TrainState) :
  counts_batches k1 st1 st2 -> counts_batches k2 st2 st3 ->
  counts_batches (k1 + k2) st1 st3.
Proof.
  intros [Hg1 He1] [Hg2 He2]. split; [lia|].
  intros e He. rewrite (He2 e He), (He1 e He). lia.
Qed.

Lemma optimize_batch_counts (st : TrainState) :
  counts_batches 1 st (optimize_batch st).
Proof.
  split; [unfold optimize_batch; simpl; lia|].
  intros e He. unfold optimize_batch. cbn [events].
  rewrite occurrences_app. f_equal. apply (occurrences_batch_events e He).
Qed.

Lemma occurrences_absent (e : Event) (l : list Event) :
  e ∉ l -> occurrences e l = 0%nat.
Proof.
  unfold occurrences. induction l as [|x l IH]; [done|].
  rewrite not_elem_of_cons. intros [Hne Hnot]. rewrite filter_cons.
  case_decide; [congruence|auto].
Qed.

Lemma batch_event_not_policy (e : Event) (l : list Event) :
  is_batch_event e ->
  Forall (fun e' => match e' with
                    | EvEvaluate _ _ | EvSaveModel _ => True
                    | _ => False
                    end) l ->
  e ∉ l.
Proof.
  intros He Hl Hin. eapply Forall_forall in Hl; [|exact Hin].
  unfold is_batch_event, batch_events in He.
  rewrite !elem_of_cons, elem_of_nil in He.
  by destruct He as [->|[->|[->|[->|[]]]]].
Qed.

Lemma evaluation_event_counts (st : TrainState) :
  counts_batches 0 st (evaluation_event o eval_pass st).
Proof.
  split; [unfold evaluation_event; destruct (truthy _); simpl; lia|].
  intros e He. unfold evaluation_event.
  destruct (truthy _); [destruct (improves _ _)|]; cbn [events];
    rewrite ?occurrences_app, Nat.add_0_r, <- ?Nat.add_assoc;
    rewrite <- (Nat.add_0_r (occurrences e (events st))) at 2; f_equal;
    rewrite <- ?occurrences_app; apply occurrences_absent;
    apply batch_event_not_policy; try done; repeat constructor.
Qed.

Lemma train_batch_counts (epoch : Z) (st : TrainState) :
  exists st', train_batch o eval_pass epoch st = Ok st'
              /\ counts_batches 1 st st'.
Proof.
  destruct (train_batch_cases epoch st) as [-> | ->]; eexists; (split; [done|]).
  - apply optimize_batch_counts.
  - apply (counts_batches_trans 1 0 _ _ _ (optimize_batch_counts st)),
      evaluation_event_counts.
Qed.

Lemma train_batches_counts (epoch : Z) (batches : list (list nat))
    (st : TrainState) :
  exists st', train_batches o eval_pass epoch batches st = Ok st'
              /\ counts_batches (length batches) st st'.
Proof.
  revert st. induction batches as [|b batches IH]; intros st.
  - exists st. split; [done|]. split; [simpl; lia|]. intros; simpl; lia.
  - destruct (train_batch_counts epoch st) as (st1 & H1 & Hc1).
    destruct (IH st1) as (st2 & H2 & Hc2).
    exists st2. cbn [train_batches]. rewrite H1. cbn [bind].
    split; [done|]. apply (counts_batches_trans 1 _ _ _ _ Hc1 Hc2).
Qed.

Lemma train_epochs_counts (dl : DataLoader) (randperm : Z -> list nat)
    (epochs : list Z) (st : TrainState) :
  exists st', train_epochs o eval_pass dl randperm epochs st = Ok st'
              /\ counts_batches (batches_run dl randperm epochs) st st'.
Proof.
  revert st. induction epochs as [|epoch epochs IH]; intros st.
  - exists st. split; [done|]. unfold batches_run.
    split; [simpl; lia|]. intros; simpl; lia.
  - destruct (train_batches_counts epoch (DataLoader_iter dl (randperm epoch)) st)
      as (st1 & H1 & Hc1).
    destruct (IH st1) as (st2 & H2 & Hc2).
    exists st2. cbn [train_epochs]. rewrite H1. cbn [bind].
    split; [done|].
    change (batches_run dl randperm (epoch :: epochs))
      with (length (DataLoader_iter dl (randperm epoch))
            + batches_run dl randperm epochs)%nat.
    apply (counts_batches_trans _ _ _ _ _ Hc1 Hc2).
Qed.

(** [train] runs the epochs from the initial state; on the way out
    it adds at most the save of the final model. *)
Lemma train_result (ins : Instructor) (randperm : Z -> list nat)
    (st_loop : TrainState) :
  o = ins.(opt) ->
  train_epochs o eval_pass ins.(train_dataloader) randperm
    (Py.range o.(num_epoch)) initial_state = Ok st_loop ->
  exists st r final,
    train ins eval_pass randperm = Ok (st, r)
    /\ st.(global_step) = st_loop.(global_step)
    /\ st.(max_test_metrics) = st_loop.(max_test_metrics)
    /\ st.(events) = st_loop.(events) ++ final
    /\ (final = []
        \/ final = [EvSaveModel (FinalPath o.(model_path_to_save)
                                   o.(model_name) o.(lcf))]).
Proof.
  intros -> Hloop. unfold train. rewrite Hloop. cbn [bind].
  destruct (save_path st_loop) eqn:Hpath.
  - destruct (truthy _); do 3 eexists;
      (split_and!; [reflexivity|done|done|cbn [events]|]).
    + reflexivity.
    + by right.
    + by rewrite app_nil_r.
    + by left.
  - exists st_loop, (RetPath (CheckpointPath dir name lcf_mode apcacc apcf1 atef1)), [].
    rewrite app_nil_r. by split_and!; [|..|left].
  - exists st_loop, (RetPath (FinalPath dir name lcf_mode)), [].
    rewrite app_nil_r. by split_and!; [|..|left].
Qed.

End Loop.

(** C4, on the code: every processed batch performs one forward
    pass, one backward pass, one optimizer step and one gradient
    reset, and raises the global step counter by two: when [train]
    returns, each of the four calls was made once per batch and the
    counter is twice the number of batches. *)
Theorem global_step_grows_by_two_per_batch (ins : Trainer.Instructor)
    (eval_pass : Z -> Trainer.Metrics) (randperm : Z -> list nat) :
  let o := ins.(Trainer.opt) in
  let batches :=
    Trainer.batches_run ins.(Trainer.train_dataloader) randperm
      (Py.range o.(Trainer.num_epoch)) in
  (o.(Trainer.has_test) = true -> o.(Trainer.log_step) <> 0) ->
  exists st r,
    Trainer.train ins eval_pass randperm = Ok (st, r)
    /\ st.(Trainer.global_step) = 2 * Z.of_nat batches
    /\ forall e,
         e ∈ [Trainer.EvForward; Trainer.EvBackward; Trainer.EvOptimizerStep;
              Trainer.EvZeroGrad] ->
         Trainer.occurrences e st.(Trainer.events) = batches.
Proof.
  intros o batches Hlog.
  destruct (train_epochs_counts o eval_pass Hlog ins.(Trainer.train_dataloader)
              randperm (Py.range o.(Trainer.num_epoch)) Trainer.initial_state)
    as (st_loop & Hrun & Hstep & Hevents).
  destruct (train_result o eval_pass Hlog ins randperm st_loop eq_refl Hrun)
    as (st & r & final & Htrain & Hgs & _ & Hev & Hfinal).
  exists st, r. split_and!; [done| |].
  - rewrite Hgs, Hstep. simpl. fold batches. lia.
  - intros e He. rewrite Hev, occurrences_app, (Hevents e He).
    fold batches. simpl.
    assert (Trainer.occurrences e final = 0%nat) as ->; [|lia].
    apply occurrences_absent.
    destruct Hfinal as [-> | ->]; [apply not_elem_of_nil|].
    apply batch_event_not_policy; [done|repeat constructor].
Qed.

Lemma global_step_grows_by_two_per_batch_witness :
  (Trainer.Instructor__init__ Examples.opt_ok Examples.world_ok).2
  = Ok Examples.trainer_ok
  /\ exists st r,
       Trainer.train Examples.trainer_ok Examples.scores Examples.no_shuffle
       = Ok (st, r)
       /\ st.(Trainer.global_step) = 12.
Proof.
  split; [reflexivity|].
  destruct (global_step_grows_by_two_per_batch Examples.trainer_ok
              Examples.scores Examples.no_shuffle)
    as (st & r & Hrun & Hstep & _).
  { discriminate. }
  exists st, r. split; [exact Hrun|exact Hstep].
Defined.

(** ** The checkpoint policy *)

Section Policy.

Import Trainer.

Variable o : Opt.
Variable eval_pass : Z -> Metrics.

Hypothesis log_step_nonzero : has_test o = true -> log_step o <> 0.
Hypothesis path_configured : truthy (model_path_to_save o) = true.

Lemma improves_exceeds (m : Metrics) (mx : MaxMetrics) :
  improves m mx = true <-> exceeds m mx.
Proof.
  unfold improves, exceeds. rewrite !orb_true_iff, !Z.gtb_gt. tauto.
Qed.

Lemma update_max_running_max (m : Metrics) (mx : MaxMetrics) :
  update_max m mx = running_max mx m.
Proof.
  unfold update_max, running_max.
  f_equal;
    match goal with
    | |- (if ?a >? ?b then _ else _) = _ =>
        destruct (Z.gtb_spec a b); lia
    end.
Qed.

Lemma running_max_le (mx : MaxMetrics) (m : Metrics) :
  max_le mx (running_max mx m).
Proof. unfold max_le, running_max. simpl. lia. Qed.

Lemma max_le_refl (mx : MaxMetrics) : max_le mx mx.
Proof. unfold max_le. lia. Qed.

Lemma max_le_trans (a b c : MaxMetrics) : max_le a b -> max_le b c -> max_le a c.
Proof. unfold max_le. lia. Qed.

Lemma foldl_running_max_le (ms : list Metrics) (mx : MaxMetrics) :
  max_le mx (foldl running_max mx ms).
Proof.
  revert mx. induction ms as [|m ms IH]; intros mx; [apply max_le_refl|].
  simpl. eapply max_le_trans; [apply running_max_le|apply IH].
Qed.

Lemma evaluations_app (l1 l2 : list Event) :
  evaluations (l1 ++ l2) = evaluations l1 ++ evaluations l2.
Proof.
  induction l1 as [|e l1 IH]; [done|]. destruct e; simpl; by rewrite ?IH.
Qed.

Lemma policy_events_app (l1 l2 : list Event) :
  policy_events (l1 ++ l2) = policy_events l1 ++ policy_events l2.
Proof.
  induction l1 as [|e l1 IH]; [done|]. destruct e; simpl; by rewrite ?IH.
Qed.

Lemma prescribed_events_app (b : bool) (mx : MaxMetrics) (ms1 ms2 : list Metrics) :
  prescribed_events o b mx (ms1 ++ ms2)
  = prescribed_events o b mx ms1
    ++ prescribed_events o b (foldl running_max mx ms1) ms2.
Proof.
  revert mx. induction ms1 as [|m ms1 IH]; intros mx; [done|].
  simpl. rewrite IH. by rewrite <- !app_assoc.
Qed.

Lemma follows_policy_refl (st : TrainState) : follows_policy o st st.
Proof. exists []. by rewrite app_nil_r. Qed.

Lemma follows_policy_trans (st1 st2 st3 : TrainState) :
  follows_policy o st1 st2 -> follows_policy o st2 st3 ->
  follows_policy o st1 st3.
Proof.
  intros (new1 & He1 & Hp1 & Hm1) (new2 & He2 & Hp2 & Hm2).
  exists (new1 ++ new2). split_and!.
  - by rewrite He2, He1, app_assoc.
  - rewrite policy_events_app, evaluations_app, prescribed_events_app.
    by rewrite Hp1, Hp2, Hm1.
  - by rewrite evaluations_app, foldl_app, <- Hm1.
Qed.

Lemma optimize_batch_policy (st : TrainState) :
  follows_policy o st (optimize_batch st).
Proof. by exists [EvForward; EvBackward; EvOptimizerStep; EvZeroGrad]. Qed.

(** One evaluation event: the evaluation is followed by one save when
    a score exceeds its running maximum and by none otherwise, and
    each maximum becomes the larger of itself and the new score. *)
Lemma evaluation_event_policy (st : TrainState) :
  let m := evaluate eval_pass st.(global_step) (eval_ATE_flag o) in
  (evaluation_event o eval_pass st).(events)
  = st.(events)
    ++ EvEvaluate (eval_ATE_flag o) m
       :: (if decide (exceeds m st.(max_test_metrics))
           then [EvSaveModel (checkpoint_path o m)] else [])
  /\ (evaluation_event o eval_pass st).(max_test_metrics)
     = running_max st.(max_test_metrics) m.
Proof.
  intros m. unfold evaluation_event. rewrite path_configured. fold m.
  pose proof (improves_exceeds m (max_test_metrics st)) as Himp.
  destruct (improves m (max_test_metrics st)); cbn [events max_test_metrics].
  - rewrite decide_True by (by apply Himp).
    split; [by rewrite <- app_assoc|apply update_max_running_max].
  - rewrite decide_False by (intros Hex; by apply Himp in Hex).
    split; [done|apply update_max_running_max].
Qed.

Lemma evaluation_event_follows (st : TrainState) :
  follows_policy o st (evaluation_event o eval_pass st).
Proof.
  destruct (evaluation_event_policy st) as [Hev Hmax].
  eexists. split; [exact Hev|].
  cbn [policy_events evaluations prescribed_events foldl].
  destruct (decide _); cbn [policy_events evaluations prescribed_events foldl app];
    by rewrite ?app_nil_r.
Qed.

Lemma train_batch_policy (epoch : Z) (st : TrainState) :
  exists st', train_batch o eval_pass epoch st = Ok st'
              /\ follows_policy o st st'.
Proof.
  destruct (train_batch_cases o eval_pass log_step_nonzero epoch st) as [-> | ->];
    eexists; (split; [done|]).
  - apply optimize_batch_policy.
  - eapply follows_policy_trans;
      [apply optimize_batch_policy|apply evaluation_event_follows].
Qed.

Lemma train_batches_policy (epoch : Z) (batches : list (list nat))
    (st : TrainState) :
  exists st', train_batches o eval_pass epoch batches st = Ok st'
              /\ follows_policy o st st'.
Proof.
  revert st. induction batches as [|b batches IH]; intros st.
  - exists st. split; [done|apply follows_policy_refl].
  - destruct (train_batch_policy epoch st) as (st1 & H1 & Hp1).
    destruct (IH st1) as (st2 & H2 & Hp2).
    exists st2. cbn [train_batches]. rewrite H1. cbn [bind].
    split; [done|]. by eapply follows_policy_trans.
Qed.

Lemma train_epochs_policy (dl : DataLoader) (randperm : Z -> list nat)
    (epochs : list Z) (st : TrainState) :
  exists st', train_epochs o eval_pass dl randperm epochs st = Ok st'
              /\ follows_policy o st st'.
Proof.
  revert st. induction epochs as [|epoch epochs IH]; intros st.
  - exists st. split; [done|apply follows_policy_refl].
  - destruct (train_batches_policy epoch (DataLoader_iter dl (randperm epoch)) st)
      as (st1 & H1 & Hp1).
    destruct (IH st1) as (st2 & H2 & Hp2).
    exists st2. cbn [train_epochs]. rewrite H1. cbn [bind].
    split; [done|]. by eapply follows_policy_trans.
Qed.

End Policy.

(** C2: with a save path configured, (a) at every evaluation
    event none of the three running maxima decreases, and the
    evaluation is followed by one save when at least one of its
    scores is strictly above its running maximum and by no save
    otherwise, also when several scores improve at once; (b) over a
    whole run of [train], the evaluations and saves performed are
    exactly the prescribed ones (the save of the final model at the
    end of a run apart, which is not at an evaluation), each maximum
    ends as the largest score seen, and the maxima after any number
    of evaluations are below those after more. *)
Theorem running_maxima_and_saves_follow_policy (ins : Trainer.Instructor)
    (eval_pass : Z -> Trainer.Metrics) (randperm : Z -> list nat) :
  let o := ins.(Trainer.opt) in
  let zero := Trainer.initial_state.(Trainer.max_test_metrics) in
  Trainer.truthy o.(Trainer.model_path_to_save) = true ->
  (o.(Trainer.has_test) = true -> o.(Trainer.log_step) <> 0) ->
  (forall st0,
      let st1 := Trainer.evaluation_event o eval_pass st0 in
      let m := Trainer.evaluate eval_pass st0.(Trainer.global_step)
                 (Trainer.eval_ATE_flag o) in
      Trainer.max_le st0.(Trainer.max_test_metrics) st1.(Trainer.max_test_metrics)
      /\ st1.(Trainer.events)
         = st0.(Trainer.events)
           ++ Trainer.EvEvaluate (Trainer.eval_ATE_flag o) m
              :: (if decide (Trainer.exceeds m st0.(Trainer.max_test_metrics))
                  then [Trainer.EvSaveModel (Trainer.checkpoint_path o m)]
                  else []))
  /\ exists st r new final,
      Trainer.train ins eval_pass randperm = Ok (st, r)
      /\ st.(Trainer.events) = new ++ final
      /\ (final = []
          \/ final = [Trainer.EvSaveModel
                        (Trainer.FinalPath o.(Trainer.model_path_to_save)
                           o.(Trainer.model_name) o.(Trainer.lcf))])
      /\ Trainer.policy_events new
         = Trainer.prescribed_events o (Trainer.eval_ATE_flag o) zero
             (Trainer.evaluations new)
      /\ st.(Trainer.max_test_metrics)
         = foldl Trainer.running_max zero (Trainer.evaluations new)
      /\ (forall ms1 ms2 ms3,
            Trainer.evaluations new = ms1 ++ ms2 ++ ms3 ->
            Trainer.max_le (foldl Trainer.running_max zero ms1)
              (foldl Trainer.running_max zero (ms1 ++ ms2))).
Proof.
  intros o zero Hpath Hlog. split.
  - intros st0 st1 m.
    destruct (evaluation_event_policy o eval_pass Hpath st0) as [Hev Hmax].
    split; [|exact Hev]. unfold st1. rewrite Hmax. apply running_max_le.
  - destruct (train_epochs_policy o eval_pass Hlog Hpath
                ins.(Trainer.train_dataloader) randperm
                (Py.range o.(Trainer.num_epoch)) Trainer.initial_state)
      as (st_loop & Hrun & new & Hev & Hpol & Hmax).
    destruct (train_result o eval_pass Hlog ins randperm st_loop eq_refl Hrun)
      as (st & r & final & Htrain & _ & Hmx & Hevs & Hfinal).
    exists st, r, new, final. split_and!; try done.
    + by rewrite Hevs, Hev.
    + by rewrite Hmx, Hmax.
    + intros ms1 ms2 ms3 _. rewrite foldl_app. apply foldl_running_max_le.
Qed.

Lemma running_maxima_and_saves_follow_policy_witness :
  (Trainer.Instructor__init__ Examples.opt_ok Examples.world_ok).2
  = Ok Examples.trainer_ok
  /\ exists st r new final,
       Trainer.train Examples.trainer_ok Examples.scores Examples.no_shuffle
       = Ok (st, r)
       /\ st.(Trainer.events) = new ++ final
       /\ Trainer.policy_events new
          = Trainer.prescribed_events Examples.trainer_ok.(Trainer.opt)
              (Trainer.eval_ATE_flag Examples.trainer_ok.(Trainer.opt))
              Trainer.initial_state.(Trainer.max_test_metrics)
              (Trainer.evaluations new).
Proof.
  split; [reflexivity|].
  destruct (running_maxima_and_saves_follow_policy Examples.trainer_ok
              Examples.scores Examples.no_shuffle)
    as (_ & st & r & new & final & Hrun & Hev & _ & Hpol & _).
  { reflexivity. }
  { discriminate. }
  exists st, r, new, final.
  split_and!; [exact Hrun|exact Hev|exact Hpol].
Defined.

(** * Further properties *)

(** ** Rows with a separator *)

Lemma first_index_app (v : Z) (pre post : list Z) :
  v ∉ pre -> Numpy.first_index v (pre ++ v :: post) = Some (length pre).
Proof.
  induction pre as [|x pre IH]; intros Hnot; simpl.
  - by rewrite Z.eqb_refl.
  - apply not_elem_of_cons in Hnot as [Hne Hnot].
    destruct (Z.eqb_spec x v); [congruence|]. by rewrite IH.
Qed.

Lemma zero_after_first_present (v : Z) (pre post : list Z) :
  v ∉ pre ->
  zero_after_first v (pre ++ v :: post)
  = Ok (pre ++ v :: replicate (length post) 0).
Proof.
  intros Hnot. unfold zero_after_first.
  assert (Numpy.argmax_eq v (pre ++ v :: post) = Ok (length pre)) as ->.
  { unfold Numpy.argmax_eq. rewrite first_index_app by done. by destruct pre. }
  cbn [bind]. unfold Numpy.assign_zero_from. f_equal.
  replace (length pre + 1)%nat with (length (pre ++ [v])) by
    (rewrite length_app; simpl; lia).
  rewrite (cons_middle v pre post), app_assoc, take_app_length.
  rewrite !length_app. simpl.
  rewrite <- app_assoc. simpl. do 3 f_equal. lia.
Qed.

Lemma elem_of_split_first (v : Z) (row : list Z) :
  v ∈ row -> exists pre post, row = pre ++ v :: post /\ v ∉ pre.
Proof.
  induction row as [|x row IH]; intros Hin; [by apply elem_of_nil in Hin|].
  destruct (decide (x = v)) as [->|Hne].
  - exists [], row. split; [done|apply not_elem_of_nil].
  - apply elem_of_cons in Hin as [->|Hin]; [done|].
    destruct (IH Hin) as (pre & post & -> & Hnot).
    exists (x :: pre), post. split; [done|].
    apply not_elem_of_cons. by split.
Qed.

(** X1: in a row of token ids that holds the separator id 102, the
    conversion keeps everything up to and including the first 102
    and sets every later position to 0; the same holds for label
    rows with tag id 5. A second or later separator is erased. *)
Theorem row_is_cut_after_first_separator (pre post : list Z)
    (before after : list (list Z)) :
  let cut v := pre ++ v :: replicate (length post) 0 in
  Forall (fun row => row <> []) (before ++ after) ->
  (102 ∉ pre ->
   exists out,
     LCF_ATEPC_LARGE.get_ids_for_local_context_extractor
       (before ++ (pre ++ 102 :: post) :: after) = Ok out
     /\ BERT_BASE_ATEPC.get_ids_for_local_context_extractor
          (before ++ (pre ++ 102 :: post) :: after) = Ok out
     /\ out !! length before = Some (cut 102))
  /\ (5 ∉ pre ->
      exists out,
        LCF_ATEPC_LARGE.get_batch_token_labels_bert_base_indices
          (Some (before ++ (pre ++ 5 :: post) :: after)) = Ok (Some out)
        /\ BERT_BASE_ATEPC.get_batch_token_labels_bert_base_indices
             (Some (before ++ (pre ++ 5 :: post) :: after)) = Ok (Some out)
        /\ out !! length before = Some (cut 5)).
Proof.
  intros cut Hne.
  assert (forall v, v ∉ pre ->
            exists out,
              mapM (zero_after_first v) (before ++ (pre ++ v :: post) :: after)
              = Ok out
              /\ out !! length before = Some (cut v)) as Hgen.
  { intros v Hnot.
    destruct (mapM_total (zero_after_first v)
                (before ++ (pre ++ v :: post) :: after))
      as (out & Hout & _ & Hlook).
    { apply Forall_app in Hne as [Hb Ha]. apply Forall_app. split.
      - eapply Forall_impl; [exact Hb|]. apply zero_after_first_nonempty.
      - constructor; [rewrite zero_after_first_present by done; eauto|].
        eapply Forall_impl; [exact Ha|]. apply zero_after_first_nonempty. }
    exists out. split; [done|].
    destruct (Hlook (length before) (pre ++ v :: post)) as (y & Hy & ->).
    { by rewrite list_lookup_middle. }
    rewrite zero_after_first_present in Hy by done. unfold cut. congruence. }
  split; intros Hnot; destruct (Hgen _ Hnot) as (out & Hout & Hrow).
  - exists out. by split_and!.
  - exists out.
    unfold LCF_ATEPC_LARGE.get_batch_token_labels_bert_base_indices,
      BERT_BASE_ATEPC.get_batch_token_labels_bert_base_indices.
    rewrite Hout. by split_and!.
Qed.

Lemma row_is_cut_after_first_separator_witness :
  exists out,
    LCF_ATEPC_LARGE.get_ids_for_local_context_extractor
      [[101; 7; 102; 8; 102; 0]] = Ok out
    /\ out !! 0%nat = Some [101; 7; 102; 0; 0; 0].
Proof.
  destruct (row_is_cut_after_first_separator [101; 7] [8; 102; 0] [] [])
    as [Hids _].
  { constructor. }
  destruct Hids as (out & Hout & _ & Hrow).
  { intros Hin. repeat (apply elem_of_cons in Hin as [Hin|Hin]; [discriminate|]).
    by apply elem_of_nil in Hin. }
  exists out. split; [exact Hout|exact Hrow].
Defined.

Lemma zero_after_first_length (v : Z) (row out : list Z) :
  zero_after_first v row = Ok out -> length out = length row.
Proof.
  unfold zero_after_first, Numpy.argmax_eq. destruct row as [|x row]; [done|].
  cbn [bind]. intros [= <-]. unfold Numpy.assign_zero_from.
  rewrite length_app, length_take, length_replicate. lia.
Qed.

Lemma zero_after_first_idempotent (v : Z) (row out : list Z) :
  v <> 0 -> zero_after_first v row = Ok out -> zero_after_first v out = Ok out.
Proof.
  intros Hv Hrow. destruct (decide (v ∈ row)) as [Hin|Hnot].
  - destruct (elem_of_split_first v row Hin) as (pre & post & -> & Hpre).
    rewrite zero_after_first_present in Hrow by done. injection Hrow as <-.
    rewrite zero_after_first_present by done. by rewrite length_replicate.
  - destruct row as [|x row]; [done|].
    rewrite zero_after_first_absent in Hrow by done. injection Hrow as <-.
    simpl. rewrite Nat.sub_0_r.
    apply not_elem_of_cons in Hnot as [Hne _].
    rewrite zero_after_first_absent; [|done|].
    + simpl. by rewrite length_replicate, Nat.sub_0_r.
    + apply not_elem_of_cons. split; [done|].
      intros Hin. apply elem_of_replicate in Hin as [Hz _]. done.
Qed.

Lemma mapM_idempotent {A : Type} (f : A -> result A) (l out : list A) :
  (forall x y, f x = Ok y -> f y = Ok y) ->
  mapM f l = Ok out -> mapM f out = Ok out.
Proof.
  intros Hf. revert out. induction l as [|x l IH]; intros out; simpl.
  - by intros [= <-].
  - destruct (f x) as [y|] eqn:Hx; [|done]. cbn [bind].
    destruct (mapM f l) as [ys|] eqn:Hl; [|done]. cbn [bind].
    intros [= <-]. simpl. by rewrite (Hf x y Hx), (IH ys eq_refl).
Qed.

(** X2: converting a batch keeps its shape, and converting the
    converted batch again changes nothing: [forward] may apply the
    conversion to the same ids more than once with the same result.
    The same holds for the label conversion. *)
Theorem conversion_keeps_shape_and_is_idempotent (rows out : list (list Z)) :
  (LCF_ATEPC_LARGE.get_ids_for_local_context_extractor rows = Ok out ->
   LCF_ATEPC_LARGE.get_ids_for_local_context_extractor out = Ok out
   /\ Forall2 (fun row row' => length row' = length row) rows out)
  /\ (LCF_ATEPC_LARGE.get_batch_token_labels_bert_base_indices (Some rows)
      = Ok (Some out) ->
      LCF_ATEPC_LARGE.get_batch_token_labels_bert_base_indices (Some out)
      = Ok (Some out)
      /\ Forall2 (fun row row' => length row' = length row) rows out).
Proof.
  assert (forall v, v <> 0 -> mapM (zero_after_first v) rows = Ok out ->
            mapM (zero_after_first v) out = Ok out
            /\ Forall2 (fun row row' => length row' = length row) rows out)
    as Hgen.
  { intros v Hv Hm. split.
    - eapply mapM_idempotent; [|exact Hm].
      intros x y. by apply zero_after_first_idempotent.
    - apply mapM_Ok in Hm. revert out Hm.
      induction rows as [|row rows IH]; intros [|row' out] Hm;
        try discriminate; [constructor|].
      simpl in Hm. injection Hm as Hrow Hm.
      constructor; [by eapply zero_after_first_length|by apply IH]. }
  split.
  - by apply Hgen.
  - unfold LCF_ATEPC_LARGE.get_batch_token_labels_bert_base_indices.
    destruct (mapM (zero_after_first 5) rows) as [out'|] eqn:Hm; [|done].
    cbn [bind]. intros [= ->].
    destruct (Hgen 5 ltac:(done) Hm) as [-> Hlen]. done.
Qed.

Lemma conversion_keeps_shape_and_is_idempotent_witness :
  LCF_ATEPC_LARGE.get_ids_for_local_context_extractor
    [[101; 0; 0; 0]; [101; 7; 102; 0]]
  = Ok [[101; 0; 0; 0]; [101; 7; 102; 0]].
Proof.
  apply (conversion_keeps_shape_and_is_idempotent
           [[101; 9; 9; 9]; [101; 7; 102; 8]]).
  reflexivity.
Defined.

(** ** Gathering the valid positions *)

Section GatherProofs.

Import ValidOutput.

Context {V : Type} (zero : V).

(** The selection among the first [a] positions. *)
Lemma selected_take_S (valid_row : list Z) (out_row : list V) (a : nat)
    (v : Z) (x : V) :
  valid_row !! a = Some v -> out_row !! a = Some x ->
  selected (take (S a) valid_row) (take (S a) out_row)
  = selected (take a valid_row) (take a out_row)
    ++ (if v =? 1 then [x] else []).
Proof.
  intros Hv Hx. unfold selected.
  rewrite (take_S_r _ _ _ Hv), (take_S_r _ _ _ Hx).
  rewrite zip_with_app by (rewrite !length_take; apply lookup_lt_Some in Hv, Hx; lia).
  rewrite filter_app, fmap_app. f_equal. simpl.
  rewrite filter_cons. simpl.
  destruct (Z.eqb_spec v 1); case_decide; simpl; done.
Qed.

Lemma length_selected_le (valid_row : list Z) (out_row : list V) :
  (length (selected valid_row out_row) <= length out_row)%nat.
Proof.
  unfold selected. rewrite length_fmap.
  etrans; [apply length_filter|]. rewrite length_zip_with. lia.
Qed.

(** The loop from position [a] on, started in a state that holds the
    selection among the first [a] positions. *)
Lemma gather_loop (valid_row : list Z) (out_row : list V) (k a : nat) :
  (a + k = length out_row)%nat ->
  (length out_row <= length valid_row)%nat ->
  let sel := selected (take a valid_row) (take a out_row) in
  foldM (gather_step valid_row out_row) (seq a k)
    (Z.of_nat (length sel) - 1,
     sel ++ replicate (length out_row - length sel) zero)
  = Ok (Z.of_nat (length (selected valid_row out_row)) - 1,
        selected valid_row out_row
          ++ replicate (length out_row - length (selected valid_row out_row))
               zero).
Proof.
  revert a. induction k as [|k IH]; intros a Hak Hlen sel.
  - simpl. unfold sel.
    rewrite (take_ge out_row) by lia.
    assert (selected (take a valid_row) out_row = selected valid_row out_row)
      as ->; [|done].
    unfold selected. f_equal. f_equal.
    rewrite <- (take_drop a valid_row) at 2.
    rewrite <- (app_nil_r out_row) at 2.
    rewrite zip_with_app by (rewrite length_take; lia).
    by rewrite zip_with_nil_r, app_nil_r.
  - cbn [seq foldM]. unfold gather_step at 1.
    destruct (lookup_lt_is_Some_2 valid_row a) as [v Hv]; [lia|].
    destruct (lookup_lt_is_Some_2 out_row a) as [x Hx]; [lia|].
    rewrite Hv, Hx. cbn [fst snd].
    pose proof (selected_take_S valid_row out_row a v x Hv Hx) as Hsel.
    fold sel in Hsel.
    assert (length sel <= a)%nat as Hsl.
    { unfold sel. etrans; [apply length_selected_le|]. rewrite length_take. lia. }
    specialize (IH (S a) ltac:(lia) Hlen). cbn zeta in IH. rewrite Hsel in IH.
    destruct (v =? 1); cbn [bind].
    + rewrite <- IH. f_equal. f_equal.
      * rewrite length_app. simpl. lia.
      * replace (Z.to_nat (Z.of_nat (length sel) - 1 + 1)) with (length sel + 0)%nat
          by lia.
        rewrite insert_app_r.
        replace (length out_row - length sel)%nat
          with (S (length out_row - length (sel ++ [x]))) by
          (rewrite length_app; simpl; lia).
        simpl. by rewrite <- app_assoc.
    + rewrite <- IH. by rewrite app_nil_r.
Qed.

End GatherProofs.

(** X3: for one sentence the double loop returns the encoder rows at
    the positions whose [valid_ids] entry is 1, in their order,
    packed at the front, followed by zero rows up to the length of
    the encoder output; it raises [IndexError] when [valid_ids] has
    fewer positions than the encoder output. *)
Theorem gather_packs_valid_rows_in_front {V : Type} (zero : V)
    (valid_row : list Z) (out_row : list V) :
  let sel := ValidOutput.selected valid_row out_row in
  ((length out_row <= length valid_row)%nat ->
   ValidOutput.gather_row zero valid_row out_row
   = Ok (sel ++ replicate (length out_row - length sel) zero))
  /\ ((length valid_row < length out_row)%nat ->
      ValidOutput.gather_row zero valid_row out_row = Raise IndexError).
Proof.
  intros sel. split.
  - intros Hlen. unfold ValidOutput.gather_row.
    pose proof (gather_loop zero valid_row out_row (length out_row) 0
                  ltac:(lia) Hlen) as Hloop.
    cbn zeta in Hloop. rewrite !take_0 in Hloop.
    change (ValidOutput.selected [] []) with (@nil V) in Hloop.
    simpl length in Hloop. rewrite Nat.sub_0_r in Hloop. simpl app in Hloop.
    change (Z.of_nat 0 - 1) with (-1) in Hloop.
    by rewrite Hloop.
  - intros Hlen. unfold ValidOutput.gather_row.
    assert (forall k a st,
              (a <= length valid_row)%nat -> (length valid_row < a + k)%nat ->
              (a + k <= length out_row)%nat ->
              foldM (ValidOutput.gather_step valid_row out_row) (seq a k) st
              = Raise IndexError) as Hloop.
    { induction k as [|k IH]; intros a st Ha Hk Hout; [lia|].
      cbn [seq foldM]. unfold ValidOutput.gather_step at 1.
      destruct (valid_row !! a) as [v|] eqn:Hv.
      - destruct (lookup_lt_is_Some_2 out_row a) as [x Hx]; [lia|].
        rewrite Hx. apply lookup_lt_Some in Hv.
        destruct (v =? 1); cbn [bind]; apply IH; lia.
      - done. }
    by rewrite (Hloop (length out_row) 0%nat) by lia.
Qed.

Lemma gather_packs_valid_rows_in_front_witness :
  ValidOutput.gather_row 0 [1; 0; 1; 1; 0] [10; 11; 12; 13; 14]
  = Ok [10; 12; 13; 0; 0].
Proof.
  apply (gather_packs_valid_rows_in_front 0 [1; 0; 1; 1; 0] [10; 11; 12; 13; 14]).
  simpl. lia.
Defined.

(** ** When [forward] returns *)

(** X4: in inference mode (no labels) [LCF_ATEPC_LARGE.forward]
    skips the polarity head when neither fusion vector is given;
    otherwise it takes the first of the branches cdm, cdw, fusion
    whose name occurs in [opt.lcf], raises [TypeError] when a vector
    that this branch multiplies by is missing, and raises
    [UnboundLocalError] when no name occurs. The tag logits never
    depend on the fusion vectors or on [opt.lcf]. *)
Theorem forward_returns_iff_mode_and_vectors_fit {T : Type} `{TensorOps T}
    (use_bert_spc : bool) (lcf : string) (input_ids_spc : T)
    (token_type_ids attention_mask polarity : option T) (valid_ids : T)
    (lcf_cdm_vec lcf_cdw_vec : option T) :
  let forward :=
    LCF_ATEPC_LARGE.forward use_bert_spc lcf input_ids_spc token_type_ids
      attention_mask None polarity valid_ids in
  let ate_logits :=
    classifier (dropout (gather_valid valid_ids
      (bert4global
         (if use_bert_spc then input_ids_spc
          else ids_for_local_context input_ids_spc)
         token_type_ids attention_mask))) in
  let has v := Py.str_in v lcf = true in
  forward None None = Ok (LCF_ATEPC_LARGE.Logits ate_logits None)
  /\ (is_Some lcf_cdm_vec \/ is_Some lcf_cdw_vec ->
      ((exists apc_logits,
           forward lcf_cdm_vec lcf_cdw_vec
           = Ok (LCF_ATEPC_LARGE.Logits ate_logits (Some apc_logits)))
       <-> (has "cdm" /\ is_Some lcf_cdm_vec)
           \/ (~ has "cdm" /\ has "cdw" /\ is_Some lcf_cdw_vec)
           \/ (~ has "cdm" /\ ~ has "cdw" /\ has "fusion"
               /\ is_Some lcf_cdm_vec /\ is_Some lcf_cdw_vec))
      /\ (~ has "cdm" /\ ~ has "cdw" /\ ~ has "fusion" ->
          forward lcf_cdm_vec lcf_cdw_vec = Raise UnboundLocalError)
      /\ forall out, forward lcf_cdm_vec lcf_cdw_vec = Ok out ->
           exists apc_logits,
             out = LCF_ATEPC_LARGE.Logits ate_logits (Some apc_logits)).
Proof.
  intros forward ate_logits has. unfold has. split.
  { unfold forward, LCF_ATEPC_LARGE.forward. by destruct use_bert_spc. }
  intros Hvec. unfold forward, LCF_ATEPC_LARGE.forward, LCF_ATEPC_LARGE.cat_out.
  assert (is_Some_b lcf_cdm_vec || is_Some_b lcf_cdw_vec = true) as Hb.
  { destruct Hvec as [[? ->]|[? ->]]; [done|by rewrite orb_true_r]. }
  destruct use_bert_spc; cbn [negb]; rewrite Hb;
    destruct (Py.str_in "cdm" lcf), (Py.str_in "cdw" lcf),
      (Py.str_in "fusion" lcf), lcf_cdm_vec as [cdm|], lcf_cdw_vec as [cdw|];
    cbn [bind];
    (split_and!;
     [ split;
       [ intros [apc Heq]; try discriminate Heq;
         first [ left; split; [done|by eexists]
               | right; left; split_and!; [done|done|by eexists]
               | right; right; split_and!; [done|done|done|by eexists..] ]
       | intros [[? [? ?]]|[[? [? [? ?]]]|[? [? [? [[? ?] [? ?]]]]]]];
         try done; by eexists ]
     | intros (? & ? & ?); done
     | intros out Heq; try discriminate Heq; injection Heq as <-; by eexists ]).
Qed.

(** X5: [BERT_BASE_ATEPC.forward] raises [UnboundLocalError] whenever
    [opt.use_bert_spc] is set, because the ids for the local encoder
    are bound in the other branch only. A trainer never meets this:
    its constructor resets [use_bert_spc], so that with the options
    of any constructed trainer inference returns logits; the polarity
    logits do not depend on the fusion vectors and come from the
    global encoder itself unless [opt.use_dual_bert] is set. *)
Theorem bert_base_forward_needs_plain_input {T : Type} `{TensorOps T}
    (use_dual_bert : bool) (input_ids_spc : T)
    (token_type_ids attention_mask labels polarity : option T) (valid_ids : T)
    (lcf_cdm_vec lcf_cdw_vec : option T) :
  let ids := ids_for_local_context input_ids_spc in
  let encoder x := if use_dual_bert then bert4local x else bert4global x None None in
  BERT_BASE_ATEPC_forward.forward true use_dual_bert input_ids_spc
    token_type_ids attention_mask labels polarity valid_ids
    lcf_cdm_vec lcf_cdw_vec
  = Raise UnboundLocalError
  /\ forall o w ins,
       (Trainer.Instructor__init__ o w).2 = Ok ins ->
       BERT_BASE_ATEPC_forward.forward
         ins.(Trainer.opt).(Trainer.use_bert_spc) use_dual_bert input_ids_spc
         token_type_ids attention_mask None polarity valid_ids
         lcf_cdm_vec lcf_cdw_vec
       = Ok (LCF_ATEPC_LARGE.Logits
               (classifier (dropout (gather_valid valid_ids
                  (bert4global ids token_type_ids attention_mask))))
               (Some (dense (dropout (pooler (encoder ids)))))).
Proof.
  split; [reflexivity|]. intros o w ins Hinit.
  assert (ins.(Trainer.opt).(Trainer.use_bert_spc) = false) as ->; [|reflexivity].
  destruct (Instructor_init_Ok o w ins Hinit) as (_ & _ & _ & -> & _).
  unfold Trainer.Instructor__init__.
  destruct o as [? ? [] ? ? ? ? ? ? ? ? ?]; cbn;
    by destruct (_ <? 1).
Qed.

(** ** Decoding and splitting at inference *)

Section DecodeProofs.

Import AspectExtractor AspectViews.

Lemma decode_loop_spec (label_list : list string) (n : nat) (ate : list Z)
    (acc : list string) :
  (length acc <= n)%nat ->
  decode_loop label_list n ate acc
  = acc ++ map (label_map_get label_list) (take (n - length acc) ate).
Proof.
  revert acc. induction ate as [|a ate IH]; intros acc Hacc; simpl.
  - by rewrite take_nil, app_nil_r.
  - destruct (Nat.eqb_spec (length acc) n) as [->|Hne].
    + by rewrite Nat.sub_diag, take_0, app_nil_r.
    + rewrite IH by (rewrite length_app; simpl; lia).
      rewrite length_app. simpl.
      replace (n - length acc)%nat with (S (n - (length acc + 1))) by lia.
      simpl. by rewrite <- app_assoc.
Qed.

Lemma label_map_get_cases (label_list : list string) (k : Z) :
  label_map_get label_list k = "O"%string
  \/ label_map_get label_list k ∈ label_list.
Proof.
  unfold label_map_get. destruct (k <? 1); [by left|].
  destruct (label_list !! Z.to_nat (k - 1)) as [l|] eqn:Hl; [|by left].
  right. simpl. by eapply list_elem_of_lookup_2.
Qed.








End DecodeProofs.

(** X6: the decoded tag sequence is never longer than the token
    list; token [j] gets the label of position [j + 1] of the argmax
    row (position 0 is skipped); every decoded tag is a label of the
    label list or ["O"]; and every token is tagged when the label
    row and the argmax row are longer than the token list. *)
Theorem decode_tags_each_token_once (label_list tokens : list string)
    (label_ids0 ate_logits0 : list Z) :
  let tags := AspectExtractor.decode label_list tokens label_ids0 ate_logits0 in
  (length tags <= length tokens)%nat
  /\ ((length tokens < length label_ids0)%nat ->
      (length tokens < length ate_logits0)%nat ->
      length tags = length tokens)
  /\ (forall j, (j < length tags)%nat ->
        tags !! j
        = AspectExtractor.label_map_get label_list <$> ate_logits0 !! S j)
  /\ Forall (fun t => t = "O"%string \/ t ∈ label_list) tags.
Proof.
  intros tags.
  assert (tags = map (AspectExtractor.label_map_get label_list)
                   (take (length tokens)
                      (drop 1 (take (length label_ids0) ate_logits0)))) as Htags.
  { unfold tags, AspectExtractor.decode.
    rewrite decode_loop_spec by (simpl; lia). simpl. by rewrite Nat.sub_0_r. }
  split_and!.
  - rewrite Htags, length_map, length_take. lia.
  - intros Hl Ha.
    rewrite Htags, length_map, length_take, length_drop, length_take. lia.
  - intros j Hj. rewrite Htags in Hj |- *.
    rewrite length_map, length_take, length_drop, length_take in Hj.
    rewrite list_lookup_fmap. f_equal.
    rewrite lookup_take_lt by lia. rewrite lookup_drop.
    rewrite lookup_take_lt by lia. done.
  - rewrite Htags. apply Forall_fmap, Forall_forall. intros k _.
    apply label_map_get_cases.
Qed.


(** ** Sentiment labels *)

Section SentimentProofs.

Import Sentiments.

Variable str : Z -> string.

Lemma default_sentiments_padding (dim : Z) :
  default_sentiments str dim !! SENTIMENT_PADDING = Some ""%string.
Proof.
  unfold default_sentiments. destruct (dim =? 3); [done|].
  apply lookup_insert_eq.
Qed.

Lemma default_sentiments_class (dim sent : Z) :
  0 <= sent < dim -> is_Some (default_sentiments str dim !! sent).
Proof.
  intros Hsent. unfold default_sentiments. destruct (Z.eqb_spec dim 3) as [->|_].
  - assert (sent = 0 \/ sent = 1 \/ sent = 2) as [-> | [-> | ->]] by lia;
      by eexists.
  - exists (str sent). rewrite lookup_insert_ne by (unfold SENTIMENT_PADDING; lia).
    apply elem_of_list_to_map_1.
    + assert (forall l : list Z, ((fun p => (p, str p)) <$> l).*1 = l) as Hfst.
      { induction l as [|? ? IH]; [done|]. rewrite !fmap_cons. simpl. by f_equal. }
      rewrite Hfst. apply NoDup_seqZ.
    + apply list_elem_of_fmap. exists sent. split; [done|].
      unfold Py.range. apply elem_of_seqZ. lia.
Qed.

Lemma sentiments_always_cover_padding_default
    (sentiment_map : option (gmap Z string)) (dim sent : Z) :
  sentiment_map = None \/ sentiment_map = Some ∅ ->
  0 <= sent < dim ->
  is_Some (sentiments str (set_sentiment_map sentiment_map) dim !! sent).
Proof.
  intros [-> | ->] Hsent; unfold sentiments, set_sentiment_map.
  - by apply default_sentiments_class.
  - rewrite bool_decide_false by (intros Hn; by apply Hn). cbn [andb].
    rewrite bool_decide_false by (intros Hn; by apply Hn).
    by apply default_sentiments_class.
Qed.

End SentimentProofs.

(** X8: whatever map is handed to [set_sentiment_map], the dictionary
    that [_infer] then uses has an entry for the padding sentinel. A
    non-empty custom map is used as it is, with only the padding
    entry added when it was missing: its other labels, and a padding
    label of its own, are kept. An empty map falls back to the
    default labels. *)
Theorem sentiments_always_cover_padding (str : Z -> string)
    (sentiment_map : option (gmap Z string)) (polarities_dim : Z) :
  let used :=
    Sentiments.sentiments str (Sentiments.set_sentiment_map sentiment_map)
      polarities_dim in
  is_Some (used !! SENTIMENT_PADDING)
  /\ (forall m,
        sentiment_map = Some m -> m <> ∅ ->
        (forall k, k <> SENTIMENT_PADDING -> used !! k = m !! k)
        /\ (forall s, m !! SENTIMENT_PADDING = Some s ->
                      used !! SENTIMENT_PADDING = Some s))
  /\ (sentiment_map = None \/ sentiment_map = Some ∅ ->
      used = Sentiments.default_sentiments str polarities_dim).
Proof.
  intros used. unfold used, Sentiments.sentiments, Sentiments.set_sentiment_map.
  destruct sentiment_map as [m|]; cycle 1.
  { split_and!; [by rewrite default_sentiments_padding|done|done]. }
  destruct (decide (m = ∅)) as [->|Hne].
  { rewrite bool_decide_false by (intros Hn; by apply Hn). cbn [andb].
    rewrite bool_decide_false by (intros Hn; by apply Hn).
    split_and!; [by rewrite default_sentiments_padding| |done].
    intros m [= <-] Hn. by destruct Hn. }
  rewrite (bool_decide_true (m <> ∅)) by done. cbn [andb].
  destruct (m !! SENTIMENT_PADDING) as [s|] eqn:Hpad.
  - rewrite bool_decide_false by done.
    rewrite bool_decide_true by done.
    split_and!; [by rewrite Hpad| |].
    + intros m' [= <-] _. split; [done|]. intros s' Hs'. congruence.
    + intros [H|H]; [done|]. injection H as ->. done.
  - rewrite bool_decide_true by done.
    rewrite bool_decide_true by apply insert_non_empty.
    split_and!; [by rewrite lookup_insert_eq| |].
    + intros m' [= <-] _. split; [|congruence].
      intros k Hk. by rewrite lookup_insert_ne.
    + intros [H|H]; [done|]. injection H as ->. done.
Qed.

Section InferProofs.

Import Sentiments.

Lemma elem_of_positive_positions (polarity0 : list Z) (j : nat) :
  j ∈ positive_positions polarity0
  <-> exists p, polarity0 !! j = Some p /\ 0 < p.
Proof.
  unfold positive_positions. rewrite list_elem_of_fmap. split.
  - intros ([j' p] & -> & Hin). apply list_elem_of_filter in Hin as [Hp Hin].
    apply elem_of_lookup_imap in Hin as (i & p' & [= -> ->] & Hlook).
    by exists p'.
  - intros (p & Hlook & Hp). exists (j, p). split; [done|].
    apply list_elem_of_filter. split; [done|].
    apply elem_of_lookup_imap. by exists j, p.
Qed.

End InferProofs.

(** X9: one record of [_infer] is built exactly when every positive
    position of the polarity row is a position of the token list and
    the predicted class has a label: a positive position beyond the
    tokens raises [IndexError] (whatever the labels), a class without
    label raises [KeyError]. With the default labels every class
    below [polarities_dim] has one, so only a custom map can lead to
    [KeyError]. *)
Theorem infer_record_fails_only_on_position_or_label (str : Z -> string)
    (sentiment_map : option (gmap Z string)) (polarities_dim : Z)
    (tokens : list string) (polarity0 : list Z) (sent : Z) :
  let used :=
    Sentiments.sentiments str (Sentiments.set_sentiment_map sentiment_map)
      polarities_dim in
  let run := Sentiments.infer_record str used tokens polarity0 sent in
  ((exists j p, polarity0 !! j = Some p /\ 0 < p /\ (length tokens <= j)%nat) ->
   run = Raise IndexError)
  /\ ((forall j p, polarity0 !! j = Some p -> 0 < p -> (j < length tokens)%nat) ->
      (used !! sent = None -> run = Raise KeyError)
      /\ (forall s, used !! sent = Some s ->
            exists r, run = Ok r /\ r.(Sentiments.sentiment) = s)
      /\ (sentiment_map = None \/ sentiment_map = Some ∅ ->
          0 <= sent < polarities_dim ->
          exists r, run = Ok r)).
Proof.
  intros used run.
  set (get := fun idx : nat => match tokens !! idx with
                               | Some t => Ok t
                               | None => Raise IndexError
                               end).
  assert (forall e, mapM get (Sentiments.positive_positions polarity0) = Raise e ->
            e = IndexError
            /\ exists j p, polarity0 !! j = Some p /\ 0 < p
                           /\ (length tokens <= j)%nat) as Hraise.
  { intros e He. apply mapM_Raise in He as (pre & j & post & ys & Hsplit & _ & Hj).
    unfold get in Hj. destruct (tokens !! j) eqn:Hlook; [done|].
    injection Hj as <-. split; [done|].
    assert (j ∈ Sentiments.positive_positions polarity0) as Hin
      by (rewrite Hsplit; apply elem_of_app; right; left).
    apply elem_of_positive_positions in Hin as (p & Hp & Hpos).
    exists j, p. split_and!; [done..|]. by apply lookup_ge_None. }
  split.
  - intros (j & p & Hp & Hpos & Hlen). unfold run, Sentiments.infer_record.
    fold get.
    destruct (mapM get _) as [ys|e] eqn:Hm; [|by destruct (Hraise e eq_refl) as [-> _]].
    exfalso. apply mapM_Ok in Hm.
    assert (j ∈ Sentiments.positive_positions polarity0) as Hin
      by (apply elem_of_positive_positions; eauto).
    apply list_elem_of_lookup in Hin as [i Hi].
    apply (f_equal (fun l => l !! i)) in Hm.
    rewrite !list_lookup_fmap, Hi in Hm. simpl in Hm. unfold get in Hm.
    rewrite (lookup_ge_None_2 tokens j) in Hm by done.
    destruct (ys !! i); discriminate.
  - intros Hin.
    assert (exists ys, mapM get (Sentiments.positive_positions polarity0) = Ok ys)
      as [ys Hys].
    { destruct (mapM get _) as [ys|e] eqn:Hm; [by eexists|].
      destruct (Hraise e eq_refl) as (_ & j & p & Hp & Hpos & Hlen).
      specialize (Hin j p Hp Hpos). lia. }
    unfold run, Sentiments.infer_record. fold get. rewrite Hys. cbn [bind].
    split_and!.
    + by intros ->.
    + intros s ->. by eexists.
    + intros Hdef Hsent.
      destruct (sentiments_always_cover_padding_default str sentiment_map
                  polarities_dim sent Hdef Hsent) as [s Hs].
      fold used in Hs. rewrite Hs. by eexists.
Qed.

Lemma infer_record_fails_only_on_position_or_label_witness :
  exists r,
    Sentiments.infer_record (fun _ => ""%string)
      (Sentiments.sentiments (fun _ => ""%string)
         (Sentiments.set_sentiment_map None) 3)
      ["nice"; "screen"]%string [-999; 999] 2
    = Ok r
    /\ r.(Sentiments.sentiment) = "Positive"%string.
Proof.
  destruct (infer_record_fails_only_on_position_or_label (fun _ => ""%string)
              None 3 ["nice"; "screen"]%string [-999; 999] 2) as [_ Hok].
  destruct Hok as (_ & Hlabel & _).
  { intros [|[|[|j]]] p Hp Hpos; simpl in *; try lia; discriminate. }
  apply (Hlabel "Positive"%string). reflexivity.
Defined.

(** ** Finding files and loading an extractor *)

Section FilesProofs.

Import Files.

Variable isfile : string -> bool.
Variable listdir : string -> result (list string).
Variable join : string -> string -> string.
Variable lower : string -> string.

Lemma find_all_in_directory (dir_path file_type exclude_key : string)
    (ps : list string) :
  Trainer.truthy dir_path = true -> isfile dir_path = false ->
  listdir dir_path = Ok ps ->
  find_target_file isfile listdir join lower dir_path file_type exclude_key true
  = Ok (FList (map (join dir_path)
                 (List.filter (name_matches lower file_type exclude_key) ps))).
Proof.
  intros Hd Hf Hl. unfold find_target_file. by rewrite Hd, Hf, Hl.
Qed.

End FilesProofs.

(** X10: for a path that is a regular file, [find_target_file] never
    lists a directory and ignores [exclude_key]: the path is returned
    when it contains [file_type], also when it contains the excluded
    key. For a directory, the single-result mode returns the first
    entry of the all-results mode and raises [IndexError] exactly
    when that list is empty, while the all-results mode returns the
    empty list; every path of the list is a directory entry joined
    to the directory. *)
Theorem find_target_file_single_is_first_of_all
    (isfile : string -> bool) (listdir : string -> result (list string))
    (join : string -> string -> string) (lower : string -> string)
    (dir_path file_type exclude_key : string) :
  let find := Files.find_target_file isfile listdir join lower dir_path
                file_type in
  Trainer.truthy dir_path = true ->
  (isfile dir_path = true ->
   forall find_all,
     find exclude_key find_all
     = Ok (if Py.str_in file_type dir_path
           then (if find_all then Files.FList [dir_path]
                 else Files.FStr dir_path)
           else Files.FStr ""))
  /\ (isfile dir_path = false ->
      find exclude_key false
      = (let* all := find exclude_key true in
         let* first := Files.found_first all in
         Ok (Files.FStr first))
      /\ forall ps,
           listdir dir_path = Ok ps ->
           exists hits,
             find exclude_key true = Ok (Files.FList (map (join dir_path) hits))
             /\ (forall p, p ∈ hits <->
                   p ∈ ps
                   /\ Py.str_in file_type (lower p) = true
                   /\ (exclude_key = ""%string
                       \/ Py.str_in exclude_key (lower p) = false))).
Proof.
  intros find Hd. unfold find, Files.find_target_file. rewrite Hd. cbn [negb].
  split.
  - intros Hf find_all. rewrite Hf. cbn [andb].
    by destruct (Py.str_in file_type dir_path).
  - intros Hf. rewrite Hf. cbn [andb negb]. split.
    + destruct (listdir dir_path) as [ps|e]; [|done]. cbn [bind].
      by destruct (List.filter _ ps).
    + intros ps ->. cbn [bind]. eexists. split; [reflexivity|].
      intros p. rewrite list_elem_of_In, filter_In, <- list_elem_of_In.
      unfold Files.name_matches, Trainer.truthy.
      rewrite andb_true_iff, negb_true_iff, andb_false_iff, negb_false_iff.
      destruct (String.eqb_spec exclude_key ""); intuition congruence.
Qed.

Lemma find_target_file_single_is_first_of_all_witness :
  Files.find_target_file MoreExamples.isfile MoreExamples.listdir
    MoreExamples.join MoreExamples.lower "ckpt" ".config" "" false
  = Ok (Files.FStr "ckpt/lcf.config").
Proof.
  destruct (find_target_file_single_is_first_of_all MoreExamples.isfile
              MoreExamples.listdir MoreExamples.join MoreExamples.lower
              "ckpt" ".config" "") as [_ Hdir]; [reflexivity|].
  destruct Hdir as [-> _]; reflexivity.
Defined.


Section ExtractorProofs.

Import ExtractorInit.

Context {M Tk : Type}.
Variable isfile : string -> bool.
Variable listdir : string -> result (list string).
Variable join : string -> string -> string.
Variable lower : string -> string.
Variable load_config : string -> result Trainer.Opt.
Variable bert_from_pretrained : Trainer.Opt -> result unit.
Variable torch_load : string -> result M.
Variable load_tokenizer : string -> result Tk.
Variable tokenizer_from_pretrained : Trainer.Opt -> result Tk.
Variable named_parameters : M -> list string.

Lemma init_from_path_failed_load (path : string)
    (sentiment_map : option (gmap Z string)) (e : init_exn) :
  load isfile listdir join lower load_config bert_from_pretrained torch_load
    load_tokenizer tokenizer_from_pretrained path = Failed e ->
  __init__ isfile listdir join lower load_config bert_from_pretrained
    torch_load load_tokenizer tokenizer_from_pretrained named_parameters
    (FromPath path) sentiment_map
  = Failed FileNotFoundError.
Proof. intros Hload. unfold __init__. by rewrite Hload. Qed.

End ExtractorProofs.

(** X11: loading an extractor from a directory. (a) When the
    directory holds an entry whose lower-case name contains
    ".state_dict", construction always ends in [FileNotFoundError]:
    the state-dict branch reads [self.num_labels], which is assigned
    after the loading block only. (b) Without an entry containing
    ".config" it ends in [FileNotFoundError] as well. (c) With a
    readable configuration but neither a state dict nor a model
    file, loading succeeds and construction ends in [AttributeError]
    when the parameters of the model are read. (d) No exception of
    the loading block leaves the constructor under its own class:
    the only other exceptions are the [ValueError] of the
    accumulation check and the [KeyError] of an unknown optimizer. *)
Theorem extractor_from_directory {M Tk : Type}
    (isfile : string -> bool) (listdir : string -> result (list string))
    (join : string -> string -> string) (lower : string -> string)
    (load_config : string -> result Trainer.Opt)
    (bert_from_pretrained : Trainer.Opt -> result unit)
    (torch_load : string -> result M) (load_tokenizer : string -> result Tk)
    (tokenizer_from_pretrained : Trainer.Opt -> result Tk)
    (named_parameters : M -> list string)
    (path : string) (sentiment_map : option (gmap Z string))
    (ps : list string) :
  let init :=
    ExtractorInit.__init__ isfile listdir join lower load_config
      bert_from_pretrained torch_load load_tokenizer tokenizer_from_pretrained
      named_parameters (ExtractorInit.FromPath path) sentiment_map in
  let hits file_type :=
    List.filter (Files.name_matches lower file_type "") ps in
  Trainer.truthy path = true -> isfile path = false -> listdir path = Ok ps ->
  (hits ".state_dict"%string <> [] ->
   init = ExtractorInit.Failed ExtractorInit.FileNotFoundError)
  /\ (hits ".config"%string = [] ->
      init = ExtractorInit.Failed ExtractorInit.FileNotFoundError)
  /\ (forall c cs o tk,
        hits ".state_dict"%string = [] -> hits ".model"%string = [] ->
        hits ".tokenizer"%string = [] -> hits ".config"%string = c :: cs ->
        load_config (join path c) = Ok o ->
        tokenizer_from_pretrained o = Ok tk ->
        1 <= o.(Trainer.gradient_accumulation_steps) ->
        init = ExtractorInit.Failed ExtractorInit.AttributeError)
  /\ (forall e,
        init = ExtractorInit.Failed (ExtractorInit.Uncaught e) ->
        e = ValueError \/ e = KeyError).
Proof.
  intros init hits Hd Hf Hl.
  assert (forall t,
            ExtractorInit.find isfile listdir join lower path t
            = ExtractorInit.Built (Files.FList (map (join path) (hits t))))
    as Hfind.
  { intros t. unfold ExtractorInit.find.
    by rewrite (find_all_in_directory isfile listdir join lower path t "" ps). }
  split_and!.
  - intros Hsd. apply init_from_path_failed_load with (e := 
      match ExtractorInit.load isfile listdir join lower load_config
              bert_from_pretrained torch_load load_tokenizer
              tokenizer_from_pretrained path with
      | ExtractorInit.Failed e => e
      | _ => ExtractorInit.FileNotFoundError
      end).
    unfold ExtractorInit.load. rewrite !Hfind. cbn [ExtractorInit.init_bind].
    destruct (Files.found_first _) as [cfg|]; [|done].
    cbn [ExtractorInit.lift ExtractorInit.init_bind].
    destruct (load_config cfg) as [o|]; [|done].
    cbn [ExtractorInit.lift ExtractorInit.init_bind].
    destruct (hits ".state_dict"%string) as [|h hs] eqn:Hh; [done|].
    cbn [map Files.found_truthy].
    by destruct (bert_from_pretrained o).
  - intros Hcfg. apply init_from_path_failed_load with
      (e := ExtractorInit.Uncaught IndexError).
    unfold ExtractorInit.load. rewrite !Hfind. cbn [ExtractorInit.init_bind].
    by rewrite Hcfg.
  - intros c cs o tk Hsd Hm Ht Hc Hcfg Htk Hgas.
    unfold init, ExtractorInit.__init__, ExtractorInit.load.
    rewrite !Hfind. rewrite Hsd, Hm, Ht, Hc.
    cbn [map Files.found_first Files.found_truthy ExtractorInit.lift
         ExtractorInit.init_bind].
    rewrite Hcfg. cbn [ExtractorInit.lift ExtractorInit.init_bind].
    rewrite Htk.
    cbn [ExtractorInit.lift ExtractorInit.init_bind ExtractorInit.or_file_not_found].
    by destruct (Z.ltb_spec (Trainer.gradient_accumulation_steps o) 1); [lia|].
  - intros e. unfold init, ExtractorInit.__init__.
    destruct (ExtractorInit.load _ _ _ _ _ _ _ _ _ _) as [[[m o] tk]|];
      cbn [ExtractorInit.or_file_not_found ExtractorInit.init_bind]; [|done].
    destruct (_ <? 1); [intros [= <-]; by left|].
    destruct m; [|done].
    destruct (existsb _ _); [done|]. intros [= <-]. by right.
Qed.

Lemma extractor_from_directory_witness :
  ExtractorInit.__init__ MoreExamples.isfile MoreExamples.listdir
    MoreExamples.join MoreExamples.lower MoreExamples.load_config
    (fun _ => Ok ()) (fun _ => Ok ()) (fun _ => Ok ()) (fun _ => Ok ())
    (fun _ : unit => [])
    (ExtractorInit.FromPath "ckpt") None
  = ExtractorInit.Failed ExtractorInit.FileNotFoundError.
Proof.
  destruct (extractor_from_directory MoreExamples.isfile MoreExamples.listdir
              MoreExamples.join MoreExamples.lower MoreExamples.load_config
              (fun _ => Ok ()) (fun _ => Ok ()) (fun _ => Ok ())
              (fun _ => Ok ()) (fun _ : unit => [])
              "ckpt" None ["lcf.state_dict"; "lcf.config"]%string)
    as [Hsd _]; [reflexivity..|].
  apply Hsd. discriminate.
Defined.



(** ** Retries of the constructor *)

Section RetryProofs.

Import Trainer Runs.

Variable worlds : nat -> World.
Variable eval_pass : Z -> Metrics.
Variable randperm : Z -> list nat.

Lemma loop_retries (k fuel : nat) (o : Opt) (attempt : nat) (sleeps : list Z) :
  (forall i, (i < k)%nat ->
     (Instructor__init__ (opt_after_retries o worlds attempt i)
        (worlds (attempt + i)%nat)).2 = Raise ValueError) ->
  train4atepc_loop (k + fuel) o worlds attempt eval_pass randperm sleeps
  = train4atepc_loop fuel (opt_after_retries o worlds attempt k) worlds
      (attempt + k) eval_pass randperm (sleeps ++ replicate k 60).
Proof.
  revert o attempt sleeps. induction k as [|k IH]; intros o attempt sleeps Hfail.
  - simpl. by rewrite Nat.add_0_r, app_nil_r.
  - pose proof (Hfail 0%nat ltac:(lia)) as H0. simpl in H0.
    rewrite Nat.add_0_r in H0.
    cbn [Nat.add train4atepc_loop opt_after_retries].
    destruct (Instructor__init__ o (worlds attempt)) as [o' r] eqn:Hinit.
    simpl in H0. subst r. cbn [fst].
    rewrite IH.
    + f_equal; [lia|]. by rewrite <- app_assoc.
    + intros i Hi. specialize (Hfail (S i) ltac:(lia)).
      cbn [opt_after_retries] in Hfail. rewrite Hinit in Hfail. cbn [fst] in Hfail.
      by replace (S attempt + i)%nat with (attempt + S i)%nat by lia.
Qed.

Lemma opt_after_retries_batch_size (o : Opt) (attempt k : nat) :
  1 <= gradient_accumulation_steps o ->
  gradient_accumulation_steps (opt_after_retries o worlds attempt k)
  = gradient_accumulation_steps o
  /\ batch_size (opt_after_retries o worlds attempt k)
     = Nat.iter k (fun b => b / gradient_accumulation_steps o) (batch_size o).
Proof.
  revert o attempt. induction k as [|k IH]; intros o attempt Hgas; [done|].
  cbn [opt_after_retries].
  assert (gradient_accumulation_steps (Instructor__init__ o (worlds attempt)).1
          = gradient_accumulation_steps o
          /\ batch_size (Instructor__init__ o (worlds attempt)).1
             = batch_size o / gradient_accumulation_steps o) as [Hg Hb].
  { unfold Instructor__init__.
    destruct o as [? ? [] ? ? ? ? ? ? ? ? ?]; cbn in *;
      by destruct (Z.ltb_spec gradient_accumulation_steps0 1); [lia|]. }
  destruct (IH (Instructor__init__ o (worlds attempt)).1 (S attempt)) as [-> ->];
    [lia|].
  split; [done|]. by rewrite Hg, Hb, Nat.iter_succ_r.
Qed.

End RetryProofs.

(** X13: [train4atepc] retries the constructor exactly on
    [ValueError]. When the first [k] attempts raise [ValueError] and
    the next one raises another exception, this exception leaves
    [train4atepc] after [k] sleeps of 60 seconds (at once when [k] is
    0, as for an [OSError] of the network); when the next one
    succeeds, training runs with the trainer of that attempt. Since
    every attempt divides the batch size of the shared options by
    [gradient_accumulation_steps] again, attempt [k] starts from the
    configured batch size divided [k] times. *)
Theorem retries_only_on_value_error_and_shrink_batch_size (k fuel : nat)
    (o : Trainer.Opt) (worlds : nat -> Trainer.World)
    (eval_pass : Z -> Trainer.Metrics) (randperm : Z -> list nat) :
  let o_k := Runs.opt_after_retries o worlds 0 k in
  (forall i, (i < k)%nat ->
     (Trainer.Instructor__init__ (Runs.opt_after_retries o worlds 0 i)
        (worlds i)).2 = Raise ValueError) ->
  (forall e,
      (Trainer.Instructor__init__ o_k (worlds k)).2 = Raise e ->
      e <> ValueError ->
      Trainer.train4atepc (k + S fuel) o worlds eval_pass randperm
      = (Trainer.Propagated e, replicate k 60))
  /\ (forall ins,
      (Trainer.Instructor__init__ o_k (worlds k)).2 = Ok ins ->
      Trainer.train4atepc (k + S fuel) o worlds eval_pass randperm
      = (Trainer.Trained (Trainer.train ins eval_pass randperm),
         replicate k 60))
  /\ (1 <= o.(Trainer.gradient_accumulation_steps) ->
      o_k.(Trainer.batch_size)
      = Nat.iter k (fun b => b / o.(Trainer.gradient_accumulation_steps))
          o.(Trainer.batch_size)).
Proof.
  intros o_k Hfail. unfold Trainer.train4atepc.
  rewrite (loop_retries worlds eval_pass randperm k (S fuel) o 0 []) by done.
  fold o_k. cbn [Nat.add app Trainer.train4atepc_loop].
  split_and!.
  - intros e He Hne.
    destruct (Trainer.Instructor__init__ o_k (worlds k)) as [o' r].
    simpl in He. subst r. by destruct e.
  - intros ins Hins.
    destruct (Trainer.Instructor__init__ o_k (worlds k)) as [o' r].
    simpl in Hins. by subst r.
  - intros Hgas. by apply opt_after_retries_batch_size.
Qed.

Lemma retries_only_on_value_error_and_shrink_batch_size_witness :
  let worlds (i : nat) :=
    if (i <? 2)%nat then
      {| Trainer.from_pretrained := Raise ValueError;
         Trainer.train_examples := Ok 5%nat;
         Trainer.train_features := Ok ();
         Trainer.eval_examples := Ok 3%nat;
         Trainer.eval_features := Ok ();
         Trainer.build_model := Ok ();
         Trainer.named_parameters := [] |}
    else
      {| Trainer.from_pretrained := Raise OSError;
         Trainer.train_examples := Ok 5%nat;
         Trainer.train_features := Ok ();
         Trainer.eval_examples := Ok 3%nat;
         Trainer.eval_features := Ok ();
         Trainer.build_model := Ok ();
         Trainer.named_parameters := [] |} in
  Trainer.train4atepc 3 Examples.opt_ok worlds Examples.scores
    Examples.no_shuffle
  = (Trainer.Propagated OSError, [60; 60]).
Proof.
  intros worlds.
  destruct (retries_only_on_value_error_and_shrink_batch_size 2 0
              Examples.opt_ok worlds Examples.scores Examples.no_shuffle)
    as (Hprop & _).
  { intros [|[|i]] Hi; [reflexivity|reflexivity|lia]. }
  apply Hprop; [reflexivity|discriminate].
Defined.

(** ** What a run of [train] returns *)

Section RunProofs.

Import Trainer Runs.

Variable o : Opt.
Variable eval_pass : Z -> Metrics.

Lemma sum_scores_app (f : Metrics -> Z) (l1 l2 : list Metrics) :
  sum_scores f (l1 ++ l2) = sum_scores f l1 + sum_scores f l2.
Proof.
  unfold sum_scores. induction l1 as [|m l1 IH]; simpl; lia.
Qed.

Lemma continues_refl (st : TrainState) : continues o st st.
Proof.
  exists []. rewrite app_nil_r. simpl.
  split_and!; try done; try lia. by destruct (truthy _).
Qed.

Lemma continues_trans (st1 st2 st3 : TrainState) :
  continues o st1 st2 -> continues o st2 st3 -> continues o st1 st3.
Proof.
  intros (n1 & He1 & Ha1 & Hf1 & Ht1 & Hp1 & Hs1)
         (n2 & He2 & Ha2 & Hf2 & Ht2 & Hp2 & Hs2).
  exists (n1 ++ n2). rewrite evaluations_app, !sum_scores_app.
  split_and!.
  - by rewrite He2, He1, app_assoc.
  - lia.
  - lia.
  - lia.
  - rewrite Hp2, Hp1, last_app. destruct (truthy _); [|done].
    by destruct (last (evaluations n2)).
  - intros Hno. rewrite forallb_app, Hs1, Hs2; done.
Qed.

Lemma optimize_batch_continues (st : TrainState) :
  continues o st (optimize_batch st).
Proof.
  exists batch_events. simpl.
  split_and!; try done; try lia. by destruct (truthy _).
Qed.

Lemma evaluation_event_continues (st : TrainState) :
  continues o st (evaluation_event o eval_pass st).
Proof.
  unfold evaluation_event.
  set (m := evaluate eval_pass (global_step st) (eval_ATE_flag o)).
  destruct (truthy (model_path_to_save o)) eqn:Hpath.
  - destruct (improves m (max_test_metrics st)).
    + exists [EvEvaluate (eval_ATE_flag o) m;
              EvSaveModel (checkpoint_path o m)].
      cbn. rewrite Hpath, <- app_assoc. split_and!; try done; lia.
    + exists [EvEvaluate (eval_ATE_flag o) m].
      cbn. rewrite Hpath. split_and!; try done; lia.
  - exists [EvEvaluate (eval_ATE_flag o) m].
    cbn. rewrite Hpath. split_and!; try done; lia.
Qed.

Lemma train_batch_continues (epoch : Z) (st st' : TrainState) :
  train_batch o eval_pass epoch st = Ok st' -> continues o st st'.
Proof.
  unfold train_batch.
  destruct (evaluation_due o epoch (optimize_batch st)) as [[]|e];
    cbn [bind]; intros H; [| |done]; injection H as <-.
  - eapply continues_trans;
      [apply optimize_batch_continues|apply evaluation_event_continues].
  - apply optimize_batch_continues.
Qed.

Lemma train_batches_continues (epoch : Z) (batches : list (list nat))
    (st st' : TrainState) :
  train_batches o eval_pass epoch batches st = Ok st' -> continues o st st'.
Proof.
  revert st. induction batches as [|b batches IH]; intros st; simpl.
  - intros [= <-]. apply continues_refl.
  - destruct (train_batch o eval_pass epoch st) as [st1|] eqn:H1;
      cbn [bind]; [|done].
    intros H2. eapply continues_trans;
      [by eapply train_batch_continues|by apply IH].
Qed.

Lemma train_epochs_continues (dl : DataLoader) (randperm : Z -> list nat)
    (epochs : list Z) (st st' : TrainState) :
  train_epochs o eval_pass dl randperm epochs st = Ok st' -> continues o st st'.
Proof.
  revert st. induction epochs as [|epoch epochs IH]; intros st; simpl.
  - intros [= <-]. apply continues_refl.
  - destruct (train_batches o eval_pass epoch _ st) as [st1|] eqn:H1;
      cbn [bind]; [|done].
    intros H2. eapply continues_trans;
      [by eapply train_batches_continues|by apply IH].
Qed.

End RunProofs.

(** X14: when [train] returns, the accumulated scores are the sums
    over all evaluations of the run. With a save directory
    configured and at least one evaluation, [train] returns the
    checkpoint path of the last evaluation, whether or not a model
    was saved at that evaluation; otherwise it returns the model
    with the three sums, and without a save directory no model is
    ever saved. *)
Theorem train_returns_path_of_last_evaluation (ins : Trainer.Instructor)
    (eval_pass : Z -> Trainer.Metrics) (randperm : Z -> list nat)
    (st : Trainer.TrainState) (r : Trainer.TrainReturn) :
  let o := ins.(Trainer.opt) in
  Trainer.train ins eval_pass randperm = Ok (st, r) ->
  let ms := Trainer.evaluations st.(Trainer.events) in
  st.(Trainer.sum_apc_test_acc) = Runs.sum_scores Trainer.apc_test_acc ms
  /\ st.(Trainer.sum_apc_test_f1) = Runs.sum_scores Trainer.apc_test_f1 ms
  /\ st.(Trainer.sum_ate_test_f1) = Runs.sum_scores Trainer.ate_result ms
  /\ r = (if Trainer.truthy o.(Trainer.model_path_to_save) then
            match last ms with
            | Some m => Trainer.RetPath (Trainer.checkpoint_path o m)
            | None => Trainer.RetModel 0 0 0
            end
          else
            Trainer.RetModel st.(Trainer.sum_apc_test_acc)
              st.(Trainer.sum_apc_test_f1) st.(Trainer.sum_ate_test_f1))
  /\ (Trainer.truthy o.(Trainer.model_path_to_save) = false ->
      forallb (fun e => negb (Runs.is_save e)) st.(Trainer.events) = true).
Proof.
  intros o. unfold Trainer.train. fold o.
  destruct (Trainer.train_epochs o eval_pass _ randperm _ _) as [st_loop|]
    eqn:Hloop; cbn [bind]; [|done].
  apply train_epochs_continues in Hloop.
  destruct Hloop as (new & Hev & Hacc & Hf1 & Hate & Hpath & Hsave).
  cbn in Hev, Hacc, Hf1, Hate, Hpath. subst new.
  destruct (Trainer.truthy (Trainer.model_path_to_save o)) eqn:Htruthy.
  - destruct (last (Trainer.evaluations (Trainer.events st_loop))) as [m|]
      eqn:Hlast; cbn in Hpath; rewrite Hpath.
    + intros [= <- <-]. cbn zeta. rewrite Hlast. split_and!; try done; lia.
    + intros [= <- <-]. cbn [Trainer.events Trainer.sum_apc_test_acc
        Trainer.sum_apc_test_f1 Trainer.sum_ate_test_f1].
      rewrite evaluations_app. cbn [Trainer.evaluations]. rewrite app_nil_r.
      rewrite Hlast.
      apply last_None in Hlast. rewrite Hlast in *. cbn in *.
      rewrite Hacc, Hf1, Hate. by split_and!.
  - rewrite Hpath. intros [= <- <-]. cbn.
    split_and!; try done; try lia.
Qed.

Lemma train_returns_path_of_last_evaluation_witness :
  exists st r,
    Trainer.train Examples.trainer_ok Examples.scores Examples.no_shuffle
    = Ok (st, r)
    /\ r = Trainer.RetPath
             (Trainer.CheckpointPath "checkpoints" "lcf_atepc_large" "cdm"
                6000 6100 5000).
Proof.
  destruct (Trainer.train Examples.trainer_ok Examples.scores
              Examples.no_shuffle) as [[st r]|e] eqn:Hrun; [|discriminate Hrun].
  exists st, r. split; [reflexivity|].
  destruct (train_returns_path_of_last_evaluation Examples.trainer_ok
              Examples.scores Examples.no_shuffle st r Hrun)
    as (_ & _ & _ & Hr & _).
  rewrite Hr. vm_compute in Hrun. injection Hrun as <- _. reflexivity.
Defined.

(** ** Runs without evaluation, and the one error of [train] *)

Section IdleProofs.

Import Trainer Runs.

Variable o : Opt.
Variable eval_pass : Z -> Metrics.

Lemma train_batch_idle (epoch : Z) (st : TrainState) :
  has_test o = false \/ (log_step o <> 0 /\ epoch < evaluate_begin o) ->
  train_batch o eval_pass epoch st = Ok (optimize_batch st).
Proof.
  unfold train_batch, evaluation_due.
  intros [-> | [Hlog Hepoch]]; [done|].
  destruct (has_test o); [|done].
  destruct (Z.eqb_spec (log_step o) 0); [done|].
  rewrite Z.geb_leb. destruct (Z.leb_spec (evaluate_begin o) epoch); [lia|].
  by rewrite andb_false_r.
Qed.

Lemma train_batches_idle (epoch : Z) (batches : list (list nat))
    (st : TrainState) :
  has_test o = false \/ (log_step o <> 0 /\ epoch < evaluate_begin o) ->
  train_batches o eval_pass epoch batches st
  = Ok (Nat.iter (length batches) optimize_batch st).
Proof.
  intros Hidle. revert st.
  induction batches as [|b batches IH]; intros st; [done|].
  cbn [train_batches length]. rewrite train_batch_idle by done. cbn [bind].
  by rewrite IH, Nat.iter_succ_r.
Qed.

Lemma train_epochs_idle (dl : DataLoader) (randperm : Z -> list nat)
    (epochs : list Z) (st : TrainState) :
  has_test o = false
  \/ (log_step o <> 0 /\ Forall (fun epoch => epoch < evaluate_begin o) epochs) ->
  train_epochs o eval_pass dl randperm epochs st
  = Ok (Nat.iter (batches_run dl randperm epochs) optimize_batch st).
Proof.
  intros Hidle. revert st.
  induction epochs as [|epoch epochs IH]; intros st; [done|].
  cbn [train_epochs].
  rewrite train_batches_idle.
  - cbn [bind]. rewrite IH.
    + change (batches_run dl randperm (epoch :: epochs))
        with (length (DataLoader_iter dl (randperm epoch))
              + batches_run dl randperm epochs)%nat.
      by rewrite Nat.add_comm, Nat.iter_add.
    + destruct Hidle as [?|[? Hall]]; [by left|right].
      by inversion Hall.
  - destruct Hidle as [?|[? Hall]]; [by left|right].
    by inversion Hall.
Qed.

Lemma iter_optimize_batch (k : nat) (st : TrainState) :
  Nat.iter k optimize_batch st
  = {| global_step := global_step st + 2 * Z.of_nat k;
       sum_apc_test_acc := sum_apc_test_acc st;
       sum_apc_test_f1 := sum_apc_test_f1 st;
       sum_ate_test_f1 := sum_ate_test_f1 st;
       max_test_metrics := max_test_metrics st;
       save_path := save_path st;
       events := events st ++ concat (replicate k batch_events) |}.
Proof.
  revert st. induction k as [|k IH]; intros st.
  - destruct st. cbn. by rewrite Z.add_0_r, app_nil_r.
  - rewrite Nat.iter_succ_r, IH. unfold optimize_batch.
    cbn [global_step sum_apc_test_acc sum_apc_test_f1 sum_ate_test_f1
         max_test_metrics save_path events replicate concat].
    f_equal; [lia|]. by rewrite <- app_assoc.
Qed.

Lemma range_below (n : Z) : Forall (fun epoch => 0 <= epoch < n) (Py.range n).
Proof.
  apply Forall_forall. intros epoch Hin. unfold Py.range in Hin.
  apply elem_of_seqZ in Hin. lia.
Qed.







End IdleProofs.

(** X15: without a test set, or when evaluation only begins after
    the last epoch ([num_epoch <= evaluate_begin], [log_step]
    nonzero), [train] never evaluates: the trace is the four batch
    events once per batch, followed by the one save of the final
    model when a save directory is configured; the maxima stay 0 and
    the model is returned with zero sums. Without a test set this
    holds for [log_step = 0] too. *)
Theorem no_evaluation_without_test_set_or_before_begin
    (ins : Trainer.Instructor) (eval_pass : Z -> Trainer.Metrics)
    (randperm : Z -> list nat) :
  let o := ins.(Trainer.opt) in
  let k := Trainer.batches_run ins.(Trainer.train_dataloader) randperm
             (Py.range o.(Trainer.num_epoch)) in
  o.(Trainer.has_test) = false
  \/ (o.(Trainer.log_step) <> 0
      /\ o.(Trainer.num_epoch) <= o.(Trainer.evaluate_begin)) ->
  exists st,
    Trainer.train ins eval_pass randperm = Ok (st, Trainer.RetModel 0 0 0)
    /\ st.(Trainer.events)
       = concat (replicate k Trainer.batch_events)
         ++ (if Trainer.truthy o.(Trainer.model_path_to_save)
             then [Trainer.EvSaveModel
                     (Trainer.FinalPath o.(Trainer.model_path_to_save)
                        o.(Trainer.model_name) o.(Trainer.lcf))]
             else [])
    /\ st.(Trainer.global_step) = 2 * Z.of_nat k
    /\ st.(Trainer.max_test_metrics)
       = Trainer.initial_state.(Trainer.max_test_metrics).
Proof.
  intros o k Hidle. unfold Trainer.train. fold o.
  rewrite train_epochs_idle.
  - fold k. rewrite iter_optimize_batch. cbn.
    destruct (Trainer.truthy _); eexists; (split; [reflexivity|]); cbn;
      rewrite ?app_nil_r; done.
  - destruct Hidle as [?|[? Hle]]; [by left|right]. split; [done|].
    eapply Forall_impl; [apply range_below|]. simpl. intros; lia.
Qed.

Lemma no_evaluation_without_test_set_or_before_begin_witness :
  let ins :=
    {| Trainer.opt :=
         {| Trainer.model_name := "lcf_atepc"; Trainer.lcf := "cdw";
            Trainer.use_bert_spc := false;
            Trainer.gradient_accumulation_steps := 1;
            Trainer.batch_size := 2; Trainer.model_path_to_save := "out";
            Trainer.has_test := false; Trainer.optimizer := "adam";
            Trainer.l2reg := (1 # 100)%Q; Trainer.num_epoch := 2;
            Trainer.log_step := 0; Trainer.evaluate_begin := 0 |};
       Trainer.train_dataloader :=
         Examples.trainer_ok.(Trainer.train_dataloader);
       Trainer.eval_dataloader := None;
       Trainer.optimizer_grouped_parameters := [];
       Trainer.optimizer_weight_decay := (1 # 100)%Q |} in
  exists st,
    Trainer.train ins Examples.scores Examples.no_shuffle
    = Ok (st, Trainer.RetModel 0 0 0)
    /\ st.(Trainer.global_step) = 12.
Proof.
  intros ins.
  destruct (no_evaluation_without_test_set_or_before_begin ins Examples.scores
              Examples.no_shuffle) as (st & Hrun & _ & Hstep & _).
  { left. reflexivity. }
  exists st. split; [exact Hrun|]. rewrite Hstep. reflexivity.
Defined.




(** ** How often [train] evaluates *)

Lemma evaluation_period_even (L : Z) :
  Z.even L = true -> L = 2 * Runs.evaluation_period L.
Proof.
  intros Heven. unfold Runs.evaluation_period. rewrite Heven.
  apply Z.even_spec in Heven as [q ->].
  rewrite (Z.mul_comm 2 q), Z.div_mul by lia. lia.
Qed.

Lemma evaluation_period_pos (L : Z) : 0 < L -> 0 < Runs.evaluation_period L.
Proof.
  intros HL. destruct (Z.even L) eqn:Heven.
  - pose proof (evaluation_period_even L Heven). lia.
  - unfold Runs.evaluation_period. by rewrite Heven.
Qed.

Lemma doubled_step_due (L x : Z) :
  0 < L -> (2 * x) mod L = 0 <-> x mod Runs.evaluation_period L = 0.
Proof.
  intros HL. pose proof (evaluation_period_pos L HL) as Hp.
  destruct (Z.even L) eqn:Heven.
  - rewrite (evaluation_period_even L Heven) at 1.
    rewrite Z.mul_mod_distr_l by lia. lia.
  - unfold Runs.evaluation_period in *. rewrite Heven in *.
    rewrite !Z.mod_divide by lia. split.
    + intros [t Ht].
      assert (Z.even t = true) as Ht_even.
      { assert (Z.even (2 * x) = true) as H2 by (by rewrite Z.even_mul).
        rewrite Ht, Z.even_mul, Heven, orb_false_r in H2. done. }
      apply Z.even_spec in Ht_even as [s ->]. exists s. lia.
    + intros [t ->]. exists (2 * t). lia.
Qed.

Lemma div_succ (p k : Z) :
  0 < p -> 0 <= k ->
  (k + 1) / p = k / p + (if (k + 1) mod p =? 0 then 1 else 0).
Proof.
  intros Hp Hk.
  pose proof (Z.div_mod k p ltac:(lia)) as Hdm.
  pose proof (Z.mod_pos_bound k p Hp) as Hb.
  destruct (decide (k mod p + 1 = p)) as [Hfull|Hpart].
  - assert ((k + 1) mod p = 0) as ->.
    { symmetry. apply (Z.mod_unique _ _ (k / p + 1)); lia. }
    simpl. symmetry. apply (Z.div_unique _ _ _ 0); lia.
  - assert ((k + 1) mod p = k mod p + 1) as ->.
    { symmetry. apply (Z.mod_unique _ _ (k / p)); lia. }
    destruct (Z.eqb_spec (k mod p + 1) 0); [lia|].
    rewrite Z.add_0_r. symmetry. apply (Z.div_unique _ _ _ (k mod p + 1)); lia.
Qed.

Section CountProofs.

Import Trainer Runs.

Variable o : Opt.
Variable eval_pass : Z -> Metrics.

Hypothesis test_set : has_test o = true.
Hypothesis log_step_positive : 0 < log_step o.
Hypothesis begins_at_once : evaluate_begin o <= 0.

Lemma evaluation_event_one_more (st : TrainState) :
  evaluations (events (evaluation_event o eval_pass st))
  = evaluations (events st)
    ++ [evaluate eval_pass (global_step st) (eval_ATE_flag o)]
  /\ global_step (evaluation_event o eval_pass st) = global_step st.
Proof.
  unfold evaluation_event.
  destruct (truthy _); [destruct (improves _ _)|]; cbn [events global_step];
    rewrite !evaluations_app; cbn [evaluations]; by rewrite ?app_nil_r.
Qed.

Lemma train_batch_counted (epoch k : Z) (st : TrainState) :
  0 <= epoch -> counted o k st ->
  exists st', train_batch o eval_pass epoch st = Ok st' /\ counted o (k + 1) st'.
Proof.
  intros Hepoch (Hk & Hstep & Hcount).
  pose proof (evaluation_period_pos _ log_step_positive) as Hp.
  unfold train_batch, evaluation_due. rewrite test_set.
  destruct (Z.eqb_spec (log_step o) 0); [lia|]. cbn [bind].
  assert (global_step (optimize_batch st) = 2 * (k + 1)) as Hstep'
    by (cbn; lia).
  assert (evaluations (events (optimize_batch st)) = evaluations (events st))
    as Hevs.
  { cbn [optimize_batch events]. rewrite evaluations_app. cbn.
    by rewrite app_nil_r. }
  assert ((epoch >=? evaluate_begin o) = true) as ->.
  { rewrite Z.geb_leb. apply Z.leb_le. lia. }
  rewrite andb_true_r, Hstep'.
  pose proof (doubled_step_due (log_step o) (k + 1) log_step_positive) as Hdue.
  pose proof (div_succ (evaluation_period (log_step o)) k Hp Hk) as Hdiv.
  destruct (Z.eqb_spec ((2 * (k + 1)) mod log_step o) 0) as [Hz|Hnz].
  - eexists. split; [done|]. unfold counted.
    destruct (evaluation_event_one_more (optimize_batch st)) as [-> ->].
    apply Hdue in Hz. rewrite Hz in Hdiv. simpl in Hdiv.
    split_and!; [lia|done|]. rewrite length_app, Hevs. simpl. lia.
  - eexists. split; [done|]. unfold counted.
    destruct (Z.eqb_spec ((k + 1) mod evaluation_period (log_step o)) 0)
      as [Hz|_]; [by apply Hdue in Hz|].
    split_and!; [lia|done|]. rewrite Hevs. lia.
Qed.

Lemma train_batches_counted (epoch k : Z) (batches : list (list nat))
    (st : TrainState) :
  0 <= epoch -> counted o k st ->
  exists st', train_batches o eval_pass epoch batches st = Ok st'
              /\ counted o (k + Z.of_nat (length batches)) st'.
Proof.
  intros Hepoch. revert k st.
  induction batches as [|b batches IH]; intros k st Hc.
  - exists st. split; [done|]. simpl. by rewrite Z.add_0_r.
  - destruct (train_batch_counted epoch k st Hepoch Hc) as (st1 & H1 & Hc1).
    destruct (IH _ _ Hc1) as (st2 & H2 & Hc2).
    exists st2. cbn [train_batches]. rewrite H1. cbn [bind].
    split; [done|].
    by replace (k + Z.of_nat (length (b :: batches)))
      with (k + 1 + Z.of_nat (length batches)) by (simpl length; lia).
Qed.

Lemma train_epochs_counted (dl : DataLoader) (randperm : Z -> list nat)
    (epochs : list Z) (k : Z) (st : TrainState) :
  Forall (fun epoch => 0 <= epoch) epochs -> counted o k st ->
  exists st', train_epochs o eval_pass dl randperm epochs st = Ok st'
              /\ counted o (k + Z.of_nat (batches_run dl randperm epochs)) st'.
Proof.
  intros Hepochs. revert k st.
  induction Hepochs as [|epoch epochs Hepoch _ IH]; intros k st Hc.
  - exists st. split; [done|]. unfold batches_run. simpl. by rewrite Z.add_0_r.
  - destruct (train_batches_counted epoch k
                (DataLoader_iter dl (randperm epoch)) st Hepoch Hc)
      as (st1 & H1 & Hc1).
    destruct (IH _ _ Hc1) as (st2 & H2 & Hc2).
    exists st2. cbn [train_epochs]. rewrite H1. cbn [bind].
    split; [done|].
    change (batches_run dl randperm (epoch :: epochs))
      with (length (DataLoader_iter dl (randperm epoch))
            + batches_run dl randperm epochs)%nat.
    by rewrite Nat2Z.inj_add, Z.add_assoc.
Qed.

Lemma train_epochs_evaluation_count (dl : DataLoader)
    (randperm : Z -> list nat) (n : Z) :
  exists st,
    train_epochs o eval_pass dl randperm (Py.range n) initial_state = Ok st
    /\ Z.of_nat (length (evaluations (events st)))
       = Z.of_nat (batches_run dl randperm (Py.range n))
         / evaluation_period (log_step o).
Proof.
  destruct (train_epochs_counted dl randperm (Py.range n) 0 initial_state)
    as (st & Hrun & _ & _ & Hcount).
  - eapply Forall_impl; [apply range_below|]. simpl. intros; lia.
  - split_and!; [done|done|]. simpl.
    by rewrite Z.div_0_l
      by (pose proof (evaluation_period_pos _ log_step_positive); lia).
  - exists st. split; [done|]. by rewrite Hcount, Z.add_0_l.
Qed.

End CountProofs.

(** X18: since the step counter grows by two per batch, [log_step]
    counts half batches. With a test set, a positive [log_step] and
    evaluation from the first epoch on, [train] evaluates once every
    [log_step / 2] batches when [log_step] is even and once every
    [log_step] batches when it is odd: the number of evaluations of
    a run is the number of batches divided by this period. *)
Theorem evaluations_once_per_period (ins : Trainer.Instructor)
    (eval_pass : Z -> Trainer.Metrics) (randperm : Z -> list nat) :
  let o := ins.(Trainer.opt) in
  let k := Trainer.batches_run ins.(Trainer.train_dataloader) randperm
             (Py.range o.(Trainer.num_epoch)) in
  o.(Trainer.has_test) = true ->
  0 < o.(Trainer.log_step) ->
  o.(Trainer.evaluate_begin) <= 0 ->
  exists st r,
    Trainer.train ins eval_pass randperm = Ok (st, r)
    /\ Z.of_nat (length (Trainer.evaluations st.(Trainer.events)))
       = Z.of_nat k / Runs.evaluation_period o.(Trainer.log_step).
Proof.
  intros o k Htest Hlog Hbegin.
  destruct (train_epochs_evaluation_count o eval_pass Htest Hlog Hbegin
              ins.(Trainer.train_dataloader) randperm o.(Trainer.num_epoch))
    as (st_loop & Hloop & Hcount).
  fold k in Hcount. rewrite <- Hcount.
  unfold Trainer.train. fold o. rewrite Hloop. cbn [bind].
  destruct (Trainer.save_path st_loop).
  - eexists _, _. split; [reflexivity|]. cbn [Trainer.events].
    destruct (Trainer.truthy _); [|done].
    rewrite evaluations_app. simpl. by rewrite app_nil_r.
  - by eexists _, _.
  - by eexists _, _.
Qed.

Lemma evaluations_once_per_period_witness :
  exists st r,
    Trainer.train Examples.trainer_ok Examples.scores Examples.no_shuffle
    = Ok (st, r)
    /\ length (Trainer.evaluations st.(Trainer.events)) = 6%nat.
Proof.
  destruct (evaluations_once_per_period Examples.trainer_ok Examples.scores
              Examples.no_shuffle) as (st & r & Hrun & Hcount).
  { reflexivity. }
  { reflexivity. }
  { discriminate. }
  exists st, r. split; [exact Hrun|].
  apply Nat2Z.inj. rewrite Hcount. reflexivity.
Defined.

(** ** The tag sequences that [evaluate] collects *)

Section CollectProofs.

Import Evaluate.

Variable label_list : list string.

Lemma collect_loop_marker (j : nat) (body rest preds : list Z)
    (t1 t2 : list string) :
  (1 <= j)%nat -> (end_marker label_list) ∉ body -> (j + length body <= length preds)%nat ->
  collect_loop label_list j (body ++ (end_marker label_list) :: rest) (Some preds) t1 t2
  = Ok (Some (t1 ++ (AspectExtractor.label_map_get label_list <$> body),
              t2 ++ (AspectExtractor.label_map_get label_list
                       <$> take (length body) (drop j preds)))).
Proof.
  revert j t1 t2. induction body as [|m body IH]; intros j t1 t2 Hj Hnot Hlen.
  - cbn [app collect_loop]. destruct j; [lia|]. cbn [Nat.eqb].
    rewrite Z.eqb_refl. by rewrite take_0, !app_nil_r.
  - apply not_elem_of_cons in Hnot as [Hne Hnot]. simpl in Hlen.
    cbn [app collect_loop]. destruct j as [|j]; [lia|]. cbn [Nat.eqb].
    destruct (Z.eqb_spec m (end_marker label_list)); [congruence|].
    cbn [mbind option_bind].
    destruct (lookup_lt_is_Some_2 preds (S j) ltac:(lia)) as [p Hp].
    rewrite Hp, IH by (done || lia).
    rewrite (drop_S preds p (S j) Hp). cbn [length take fmap list_fmap].
    by rewrite <- !app_assoc.
Qed.

(** Without the end (end_marker label_list) the loop appends nothing; it only
    matters whether the predictions reach as far as the labels. *)
Lemma collect_loop_no_marker (j : nat) (label : list Z)
    (ate_row : option (list Z)) (t1 t2 : list string) :
  (1 <= j)%nat -> (end_marker label_list) ∉ label ->
  collect_loop label_list j label ate_row t1 t2
  = if reaches j label ate_row then Ok None else Raise IndexError.
Proof.
  revert j t1 t2. induction label as [|m label IH]; intros j t1 t2 Hj Hnot.
  - done.
  - apply not_elem_of_cons in Hnot as [Hne Hnot].
    cbn [collect_loop]. destruct j as [|j]; [lia|]. cbn [Nat.eqb].
    destruct (Z.eqb_spec m (end_marker label_list)); [congruence|].
    destruct ate_row as [preds|]; cbn [mbind option_bind]; [|done].
    unfold reaches at 1.
    destruct (preds !! S j) as [p|] eqn:Hp.
    + rewrite IH by (done || lia).
      apply lookup_lt_Some in Hp.
      destruct label as [|m' label].
      * cbn [reaches length]. symmetry.
        destruct (Nat.leb_spec (S j + 1) (length preds)); [done|lia].
      * unfold reaches.
        replace (S (S j) + length (m' :: label))%nat
          with (S j + length (m :: m' :: label))%nat by (simpl; lia).
        done.
    + apply lookup_ge_None in Hp. symmetry.
      destruct (Nat.leb_spec (S j + length (m :: label)) (length preds));
        [simpl in *; lia|done].
Qed.

Lemma collect_loop_aligned (j : nat) (label : list Z)
    (ate_row : option (list Z)) (t1 t2 r1 r2 : list string) :
  collect_loop label_list j label ate_row t1 t2 = Ok (Some (r1, r2)) ->
  length t1 = length t2 -> length r1 = length r2.
Proof.
  revert j t1 t2. induction label as [|m label IH]; intros j t1 t2; [done|].
  cbn [collect_loop]. destruct (Nat.eqb j 0); [apply IH|].
  destruct (m =? (end_marker label_list)); [by intros [= <- <-]|].
  destruct (ate_row ≫= _); [|done].
  intros Hrun Hlen. apply (IH _ _ _ Hrun). rewrite !length_app. simpl. lia.
Qed.

Lemma collect_step_aligned (ate_logits : list (list Z))
    (acc acc' : list (list string) * list (list string)) (il : nat * list Z) :
  collect_step label_list ate_logits acc il = Ok acc' ->
  aligned acc ->
  aligned acc'
  /\ (length acc.1 <= length acc'.1 <= length acc.1 + 1)%nat
  /\ acc.1 `prefix_of` acc'.1 /\ acc.2 `prefix_of` acc'.2.
Proof.
  unfold collect_step, collect_row.
  destruct (collect_loop _ _ _ _ _ _) as [[[r1 r2]|]|] eqn:Hrow;
    cbn [bind]; intros H Hal; [| |done]; injection H as <-.
  - cbn [fst snd]. split_and!.
    + apply Forall2_app; [done|]. constructor; [|done].
      by apply (collect_loop_aligned _ _ _ _ _ _ _ Hrow).
    + rewrite length_app. simpl. lia.
    + rewrite length_app. simpl. lia.
    + by apply prefix_app_r.
    + by apply prefix_app_r.
  - split_and!; try done; lia.
Qed.

Lemma foldM_collect_aligned (ate_logits : list (list Z))
    (rows : list (nat * list Z))
    (acc acc' : list (list string) * list (list string)) :
  foldM (collect_step label_list ate_logits) rows acc = Ok acc' ->
  aligned acc ->
  aligned acc'
  /\ (length acc.1 <= length acc'.1 <= length acc.1 + length rows)%nat
  /\ acc.1 `prefix_of` acc'.1 /\ acc.2 `prefix_of` acc'.2.
Proof.
  revert acc. induction rows as [|il rows IH]; intros acc; cbn [foldM].
  - intros [= <-] Hal. split_and!; try done; simpl; lia.
  - destruct (collect_step label_list ate_logits acc il) as [acc1|] eqn:H1;
      cbn [bind]; [|done].
    intros Hrun Hal.
    destruct (collect_step_aligned _ _ _ _ H1 Hal) as (Hal1 & Hn1 & Hp1 & Hq1).
    destruct (IH _ Hrun Hal1) as (Hal2 & Hn2 & Hp2 & Hq2).
    split_and!; [done|lia|simpl; lia|by etrans|by etrans].
Qed.

(** What follows the end marker is never read. *)
Lemma collect_loop_rest_irrelevant (j : nat) (pre rest rest' : list Z)
    (ate_row : option (list Z)) (t1 t2 : list string) :
  (1 <= j)%nat ->
  collect_loop label_list j (pre ++ (end_marker label_list) :: rest) ate_row
    t1 t2
  = collect_loop label_list j (pre ++ (end_marker label_list) :: rest')
      ate_row t1 t2.
Proof.
  revert j t1 t2. induction pre as [|m pre IH]; intros j t1 t2 Hj.
  - cbn [app collect_loop]. destruct j; [lia|]. cbn [Nat.eqb].
    by rewrite Z.eqb_refl.
  - cbn [app collect_loop]. destruct j as [|j]; [lia|]. cbn [Nat.eqb].
    destruct (m =? _); [done|].
    destruct (ate_row ≫= _); [|done]. apply IH. lia.
Qed.

(** The conversion does not change what is collected from a row
    that does not begin with the separator id, when the end (end_marker label_list)
    is that id. *)
Lemma collect_row_converted (l0 : Z) (tl : list Z)
    (ate_row : option (list Z)) :
  (end_marker label_list) = 5 -> l0 <> 5 ->
  exists row',
    zero_after_first 5 (l0 :: tl) = Ok row'
    /\ collect_row label_list row' ate_row
       = collect_row label_list (l0 :: tl) ate_row.
Proof.
  intros Hmarker Hl0.
  destruct (decide (5 ∈ tl)) as [Hin|Hnot].
  - destruct (elem_of_split_first 5 tl Hin) as (pre & post & -> & Hpre).
    exists ((l0 :: pre) ++ 5 :: replicate (length post) 0). split.
    + apply (zero_after_first_present 5 (l0 :: pre) post).
      apply not_elem_of_cons. by split.
    + unfold collect_row. cbn [app collect_loop Nat.eqb].
      rewrite <- Hmarker. by apply collect_loop_rest_irrelevant.
  - exists (l0 :: replicate (length tl) 0). split.
    + rewrite zero_after_first_absent;
        [|done|apply not_elem_of_cons; by split].
      simpl. by rewrite Nat.sub_0_r.
    + unfold collect_row. cbn [collect_loop Nat.eqb].
      rewrite !collect_loop_no_marker; try lia.
      * unfold reaches. rewrite length_replicate. by destruct tl.
      * by rewrite Hmarker.
      * rewrite Hmarker. intros Hin. apply elem_of_replicate in Hin. lia.
Qed.

Lemma mapM_zero_after_first_collect (rows : list (list Z))
    (ate_logits : list (list Z)) (k : nat)
    (acc : list (list string) * list (list string)) :
  (end_marker label_list) = 5 ->
  Forall (fun row => exists l0 tl, row = l0 :: tl /\ l0 <> 5) rows ->
  exists rows',
    mapM (zero_after_first 5) rows = Ok rows'
    /\ foldM (collect_step label_list ate_logits)
         (imap (fun i => pair (k + i)%nat) rows') acc
       = foldM (collect_step label_list ate_logits)
           (imap (fun i => pair (k + i)%nat) rows) acc.
Proof.
  intros Hmarker Hrows. revert k acc.
  induction Hrows as [|row rows (l0 & tl & -> & Hl0) _ IH]; intros k acc.
  - by exists [].
  - destruct (collect_row_converted l0 tl (ate_logits !! (k + 0)%nat)
                Hmarker Hl0) as (row' & Hconv & Hsame).
    assert (forall acc0, exists rows',
      mapM (zero_after_first 5) rows = Ok rows'
      /\ foldM (collect_step label_list ate_logits)
           (imap (fun i => pair (k + S i)%nat) rows') acc0
         = foldM (collect_step label_list ate_logits)
             (imap (fun i => pair (k + S i)%nat) rows) acc0) as IH'.
    { intros acc0. destruct (IH (S k) acc0) as (rows' & Hm & Hf).
      exists rows'. split; [done|].
      rewrite (imap_ext (fun i => pair (k + S i)%nat)
                 (fun i => pair (S k + i)%nat) rows')
        by (intros; f_equal; lia).
      rewrite (imap_ext (fun i => pair (k + S i)%nat)
                 (fun i => pair (S k + i)%nat) rows)
        by (intros; f_equal; lia).
      done. }
    destruct (IH' acc) as (rows' & Hm & _).
    exists (row' :: rows'). split.
    + cbn [mapM]. rewrite Hconv. cbn [bind]. by rewrite Hm.
    + cbn [imap foldM]. unfold collect_step at 1 3. cbn [fst snd].
      rewrite Hsame.
      destruct (collect_row label_list (l0 :: tl) _) as [r|]; [|done].
      cbn [bind].
      destruct (IH' (match r with
                     | Some (t1, t2) => (acc.1 ++ [t1], acc.2 ++ [t2])
                     | None => acc
                     end)) as (rows'' & Hm' & Hf).
      rewrite Hm in Hm'. injection Hm' as <-. exact Hf.
Qed.

End CollectProofs.

(** X19: from a row of gold label ids, [evaluate] reads the positions
    after the first one up to the first position (not counting
    position 0) that holds the id [len(label_list)]: the gold and the
    predicted tags of exactly these positions are appended, decoded
    with the label map. A row that holds this id at no position from
    1 on contributes nothing at all, neither to [y_true] nor to
    [y_pred]. *)
Theorem evaluation_row_is_read_up_to_end_marker (label_list : list string)
    (l0 : Z) (body rest preds : list Z) :
  let n := Evaluate.end_marker label_list in
  let get := AspectExtractor.label_map_get label_list in
  n ∉ body ->
  (length body < length preds)%nat ->
  Evaluate.collect_row label_list (l0 :: body ++ n :: rest) (Some preds)
  = Ok (Some (get <$> body, get <$> take (length body) (drop 1 preds)))
  /\ Evaluate.collect_row label_list (l0 :: body) (Some preds) = Ok None.
Proof.
  intros n get Hnot Hlen. unfold Evaluate.collect_row.
  cbn [Evaluate.collect_loop Nat.eqb]. split.
  - rewrite collect_loop_marker by (done || lia). done.
  - rewrite collect_loop_no_marker by (done || lia).
    unfold Evaluate.reaches. destruct body; [done|].
    by destruct (Nat.leb_spec (1 + length (z :: body)) (length preds));
      [|simpl in *; lia].
Qed.

Lemma evaluation_row_is_read_up_to_end_marker_witness :
  Evaluate.collect_row ["O"; "B-ASP"; "I-ASP"; "[CLS]"; "[SEP]"]
    [4; 1; 2; 3; 5; 0; 0] (Some [4; 1; 2; 2; 5; 1; 1])
  = Ok (Some (["O"; "B-ASP"; "I-ASP"], ["O"; "B-ASP"; "B-ASP"])).
Proof.
  refine (proj1 (evaluation_row_is_read_up_to_end_marker
                   ["O"; "B-ASP"; "I-ASP"; "[CLS]"; "[SEP]"] 4 [1; 2; 3]
                   [0; 0] [4; 1; 2; 2; 5; 1; 1] _ _)).
  - intros Hin.
    repeat (apply elem_of_cons in Hin as [Hin|Hin]; [discriminate Hin|]).
    by apply elem_of_nil in Hin.
  - simpl. lia.
Defined.

(** X20: [y_true] and [y_pred] stay aligned over any batch that
    [evaluate] collects without an exception: both keep the rows they
    had, grow by the same number of rows, at most one per row of
    [label_ids], and corresponding rows are equally long. *)
Theorem collected_tags_stay_aligned (label_list : list string)
    (use_bert_spc : bool) (label_ids ate_logits : list (list Z))
    (acc acc' : list (list string) * list (list string)) :
  Evaluate.collect_batch label_list use_bert_spc label_ids ate_logits acc
  = Ok acc' ->
  Evaluate.aligned acc ->
  Evaluate.aligned acc'
  /\ length acc'.1 = length acc'.2
  /\ (length acc.1 <= length acc'.1 <= length acc.1 + length label_ids)%nat
  /\ acc.1 `prefix_of` acc'.1 /\ acc.2 `prefix_of` acc'.2.
Proof.
  unfold Evaluate.collect_batch. intros Hrun Hal.
  assert (exists rows, length rows = length label_ids
            /\ foldM (Evaluate.collect_step label_list ate_logits)
                 (imap pair rows) acc = Ok acc') as (rows & Hlen & Hfold).
  { destruct use_bert_spc; cbn [negb] in Hrun.
    - by exists label_ids.
    - destruct (mapM (zero_after_first 5) label_ids) as [rows|] eqn:Hm;
        [|done].
      exists rows. split; [|done].
      apply mapM_Ok in Hm. apply (f_equal length) in Hm.
      by rewrite !length_map in Hm. }
  destruct (foldM_collect_aligned _ _ _ _ _ Hfold Hal)
    as (Hal' & Hn & Hp & Hq).
  rewrite length_imap, Hlen in Hn.
  split_and!; try done; try lia. by eapply Forall2_length.
Qed.

Lemma collected_tags_stay_aligned_witness :
  exists acc',
    Evaluate.collect_batch ["O"; "B-ASP"; "I-ASP"; "[CLS]"; "[SEP]"] false
      [[4; 1; 2; 5; 5]; [4; 1; 1; 1; 1]] [[4; 1; 1; 5; 0]; [4; 1; 1; 1; 1]]
      ([], []) = Ok acc'
    /\ length acc'.1 = length acc'.2.
Proof.
  eexists. split; [reflexivity|].
  refine (proj1 (proj2 (collected_tags_stay_aligned
            ["O"; "B-ASP"; "I-ASP"; "[CLS]"; "[SEP]"] false
            [[4; 1; 2; 5; 5]; [4; 1; 1; 1; 1]]
            [[4; 1; 1; 5; 0]; [4; 1; 1; 1; 1]] ([], []) _ eq_refl _))).
  constructor.
Defined.

(** X21: with five labels the end marker of [evaluate] is the
    separator id 5 of the conversion, and then converting the gold
    labels first (the case [use_bert_spc = False]) changes nothing of
    what is collected, as long as no row begins with the id 5: the
    conversion only zeroes what lies behind the position where the
    collecting loop stops. *)
Theorem conversion_does_not_change_collected_tags (label_list : list string)
    (label_ids ate_logits : list (list Z))
    (acc : list (list string) * list (list string)) :
  length label_list = 5%nat ->
  Forall (fun row => exists l0 tl, row = l0 :: tl /\ l0 <> 5) label_ids ->
  Evaluate.collect_batch label_list false label_ids ate_logits acc
  = Evaluate.collect_batch label_list true label_ids ate_logits acc.
Proof.
  intros Hfive Hrows. unfold Evaluate.collect_batch. cbn [negb].
  assert (Evaluate.end_marker label_list = 5) as Hmarker
    by (unfold Evaluate.end_marker; by rewrite Hfive).
  destruct (mapM_zero_after_first_collect label_list label_ids ate_logits 0
              acc Hmarker Hrows) as (rows' & -> & Hsame).
  cbn [bind]. exact Hsame.
Qed.

Lemma conversion_does_not_change_collected_tags_witness :
  Evaluate.collect_batch ["O"; "B-ASP"; "I-ASP"; "[CLS]"; "[SEP]"] false
    [[4; 2; 3; 5; 1; 5]; [4; 1; 1; 1; 1; 1]]
    [[4; 2; 2; 5; 0; 0]; [4; 1; 1; 1; 1; 1]] ([], [])
  = Ok ([["B-ASP"; "I-ASP"]], [["B-ASP"; "B-ASP"]]).
Proof.
  rewrite (conversion_does_not_change_collected_tags
             ["O"; "B-ASP"; "I-ASP"; "[CLS]"; "[SEP]"]
             [[4; 2; 3; 5; 1; 5]; [4; 1; 1; 1; 1; 1]]
             [[4; 2; 2; 5; 0; 0]; [4; 1; 1; 1; 1; 1]] ([], []) eq_refl).
  - reflexivity.
  - repeat constructor; eexists _, _; (split; [reflexivity|lia]).
Defined.

(** ** The record loop of the APC dataset *)

Lemma mapM_lookup {A B : Type} (f : A -> result B) (l : list A)
    (ys : list B) :
  mapM f l = Ok ys ->
  length ys = length l
  /\ forall k y, ys !! k = Some y -> exists x, l !! k = Some x /\ f x = Ok y.
Proof.
  revert ys. induction l as [|x l IH]; intros ys; cbn [mapM].
  - intros [= <-]. split; [done|]. intros k y Hk. by rewrite lookup_nil in Hk.
  - destruct (f x) as [y0|] eqn:Hx; cbn [bind]; [|done].
    destruct (mapM f l) as [ys0|] eqn:Hl; cbn [bind]; [|done].
    intros [= <-]. destruct (IH ys0 eq_refl) as [Hlen Hlook].
    split; [simpl; by rewrite Hlen|].
    intros [|k] y; simpl.
    + intros [= <-]. by exists x.
    + apply Hlook.
Qed.

Lemma size_list_to_set_le (l : list Z) :
  (size (list_to_set l : gset Z) <= length l)%nat.
Proof.
  induction l as [|x l IH]; cbn [list_to_set length].
  - pose proof (size_empty (C := gset Z)). lia.
  - rewrite size_union_alt, size_singleton.
    assert (size (list_to_set l ∖ {[x]} : gset Z)
            <= size (list_to_set l : gset Z))%nat
      by (apply subseteq_size; intros y Hy;
          by apply elem_of_difference in Hy as [? _]).
    lia.
Qed.

Lemma length_range3 (n : nat) :
  length (DatasetRecords.range3 n) = ((n + 2) / 3)%nat.
Proof. unfold DatasetRecords.range3. by rewrite length_fmap, length_seq. Qed.

Lemma lookup_range3 (n k i : nat) :
  DatasetRecords.range3 n !! k = Some i <-> i = (3 * k)%nat /\ (3 * k < n)%nat.
Proof.
  unfold DatasetRecords.range3. rewrite list_lookup_fmap.
  pose proof (Nat.div_mod_eq (n + 2) 3) as Hdm.
  pose proof (Nat.mod_upper_bound (n + 2) 3 ltac:(lia)) as Hb.
  split.
  - destruct (seq 0 ((n + 2) / 3) !! k) as [j|] eqn:Hj; [|done].
    apply lookup_seq in Hj as [-> Hlt]. simpl. intros [= <-]. lia.
  - intros [-> Hlt]. rewrite (lookup_seq_lt 0 ((n + 2) / 3) k) by lia.
    done.
Qed.

Section RecordProofs.

Import DatasetRecords.

Context {T : Type}.

Variable model : model_class.
Variable model_name : string.
Variable lcf : string.
Variable strip : string -> string.
Variable lower : string -> string.
Variable partition : string -> string * string * string.
Variable int : string -> result Z.
Variable prepare_input_for_apc :
  string -> string -> string -> result (@prepared T).
Variable build_spc_mask_vec : T -> result T.
Variable build_sentiment_window :
  list (@data T) -> result (list (@data T)).

Lemma no_model_keeps_aspect_indices (cols : list string) :
  input_colses model = Ok cols ->
  has_column "aspect_bert_indices" cols = false.
Proof. destruct model; intros [= <-]; reflexivity. Qed.

Lemma read_record_Ok (lines : list string) (i : nat) (d : @data T) :
  read_record model lcf strip lower partition int prepare_input_for_apc
    build_spc_mask_vec lines i = Ok d ->
  aspect_bert_indices d = None
  /\ exists l2, lines !! (i + 2)%nat = Some l2
                /\ int (strip l2) = Ok (polarity d).
Proof.
  unfold read_record, line.
  destruct (lines !! i) as [l0|]; cbn [bind]; [|done].
  destruct (partition l0) as [[text_left ?] text_right].
  destruct (lines !! (i + 1)%nat) as [l1|]; cbn [bind]; [|done].
  destruct (lines !! (i + 2)%nat) as [l2|]; cbn [bind]; [|done].
  destruct (int (strip l2)) as [p|] eqn:Hint; cbn [bind]; [|done].
  destruct (prepare_input_for_apc _ _ _) as [prep|]; cbn [bind]; [|done].
  destruct (input_colses model) as [cols|] eqn:Hcols; cbn [bind]; [|done].
  pose proof (no_model_keeps_aspect_indices cols Hcols) as Hasp.
  destruct (has_column "spc_mask_vec" cols);
    [destruct (build_spc_mask_vec _); cbn [bind]; [|done]|];
    intros [= <-]; cbn [aspect_bert_indices polarity]; unfold keep;
    rewrite Hasp; eauto.
Qed.

(** A record is read from its own three lines only. *)
Lemma read_record_take (lines : list string) (i m : nat) :
  (i + 2 < m)%nat ->
  read_record model lcf strip lower partition int prepare_input_for_apc
    build_spc_mask_vec (take m lines) i
  = read_record model lcf strip lower partition int prepare_input_for_apc
      build_spc_mask_vec lines i.
Proof.
  intros Hm. unfold read_record, line.
  by rewrite !lookup_take_lt by lia.
Qed.

Lemma read_record_incomplete (lines : list string) (i : nat) :
  (i < length lines)%nat -> (length lines <= i + 2)%nat ->
  read_record model lcf strip lower partition int prepare_input_for_apc
    build_spc_mask_vec lines i = Raise IndexError.
Proof.
  intros Hi Hlen. unfold read_record, line.
  destruct (lookup_lt_is_Some_2 lines i Hi) as [l0 ->]. cbn [bind].
  destruct (partition l0) as [[text_left ?] text_right].
  destruct (lines !! (i + 1)%nat) as [l1|] eqn:H1; cbn [bind]; [|done].
  by rewrite (lookup_ge_None_2 lines (i + 2)) by lia.
Qed.

Lemma read_records_Ok (lines : list string) (records : list (@data T)) :
  read_records model lcf strip lower partition int prepare_input_for_apc
    build_spc_mask_vec lines = Ok records ->
  length lines = (3 * length records)%nat
  /\ forall k d, records !! k = Some d ->
       aspect_bert_indices d = None
       /\ exists l2, lines !! (3 * k + 2)%nat = Some l2
                     /\ int (strip l2) = Ok (polarity d).
Proof.
  unfold read_records. intros Hrun.
  apply mapM_lookup in Hrun as [Hlen Hlook].
  rewrite length_range3 in Hlen.
  assert (forall k d, records !! k = Some d ->
            aspect_bert_indices d = None
            /\ exists l2, lines !! (3 * k + 2)%nat = Some l2
                          /\ int (strip l2) = Ok (polarity d)) as Hrec.
  { intros k d Hk. destruct (Hlook k d Hk) as (i & Hi & Hread).
    apply lookup_range3 in Hi as [-> _]. by apply read_record_Ok in Hread. }
  split; [|done].
  pose proof (Nat.div_mod_eq (length lines + 2) 3) as Hdm.
  pose proof (Nat.mod_upper_bound (length lines + 2) 3 ltac:(lia)) as Hb.
  destruct (length records) as [|m] eqn:Hn; [lia|].
  destruct (lookup_lt_is_Some_2 records m ltac:(lia)) as [d Hd].
  destruct (Hrec m d Hd) as (_ & l2 & Hl2 & _).
  apply lookup_lt_Some in Hl2. lia.
Qed.

Lemma mapM_app_raise {A B : Type} (f : A -> result B) (l1 : list A)
    (ys : list B) (x : A) (l2 : list A) (e : exn) :
  mapM f l1 = Ok ys -> f x = Raise e -> mapM f (l1 ++ x :: l2) = Raise e.
Proof.
  revert ys. induction l1 as [|a l1 IH]; intros ys; cbn [mapM app].
  - intros _ ->. done.
  - destruct (f a); cbn [bind]; [|done].
    destruct (mapM f l1) as [ys0|]; cbn [bind]; [|done].
    intros _ Hx. by rewrite (IH ys0 eq_refl Hx).
Qed.

Lemma mapM_ext_in {A B : Type} (f g : A -> result B) (l : list A) :
  (forall x, x ∈ l -> f x = g x) -> mapM f l = mapM g l.
Proof.
  induction l as [|a l IH]; intros Hfg; [done|]. cbn [mapM].
  rewrite Hfg by left. rewrite IH; [done|].
  intros x Hx. apply Hfg. by right.
Qed.

Lemma read_records_incomplete (lines : list string)
    (records : list (@data T)) :
  (length lines mod 3 <> 0)%nat ->
  read_records model lcf strip lower partition int prepare_input_for_apc
    build_spc_mask_vec (take (3 * (length lines / 3)) lines) = Ok records ->
  read_records model lcf strip lower partition int prepare_input_for_apc
    build_spc_mask_vec lines = Raise IndexError.
Proof.
  intros Hmod. unfold read_records.
  pose proof (Nat.div_mod_eq (length lines) 3) as Hdm.
  pose proof (Nat.mod_upper_bound (length lines) 3 ltac:(lia)) as Hb.
  set (q := (length lines / 3)%nat) in *.
  rewrite length_take, Nat.min_l by lia.
  assert (range3 (3 * q) = (fun k => 3 * k)%nat <$> seq 0 q) as ->.
  { unfold range3. do 2 f_equal.
    symmetry. apply (Nat.div_unique _ _ _ 2); lia. }
  assert (range3 (length lines)
          = ((fun k => 3 * k)%nat <$> seq 0 q) ++ [(3 * q)%nat]) as ->.
  { unfold range3.
    replace ((length lines + 2) / 3)%nat with (q + 1)%nat.
    - by rewrite seq_app, fmap_app.
    - apply (Nat.div_unique _ _ _ (length lines mod 3 - 1)); lia. }
  intros Hprefix.
  rewrite (mapM_ext_in _
             (read_record model lcf strip lower partition int
                prepare_input_for_apc build_spc_mask_vec lines)) in Hprefix.
  - eapply mapM_app_raise; [exact Hprefix|].
    apply read_record_incomplete; lia.
  - intros i Hi. apply list_elem_of_fmap in Hi as (k & -> & Hk).
    apply elem_of_seq in Hk. apply read_record_take. lia.
Qed.

End RecordProofs.

(** X22: when [ABSADataset.__init__] returns, the file is not empty
    and consists of complete records of three lines; the loop has
    read one record per three lines, whose label is the integer on
    the third line of the record; the column [aspect_bert_indices]
    is replaced by 0 in every record, whatever the model, because no
    entry of [input_colses] lists it; and [polarities_dim] lies
    between 1 and the number of records. *)
Theorem dataset_has_one_record_per_three_lines {T : Type}
    (model : DatasetRecords.model_class) (model_name lcf : string)
    (strip lower : string -> string)
    (partition : string -> string * string * string)
    (int : string -> result Z)
    (prepare_input_for_apc :
       string -> string -> string -> result (@DatasetRecords.prepared T))
    (build_spc_mask_vec : T -> result T)
    (build_sentiment_window :
       list (@DatasetRecords.data T) -> result (list (@DatasetRecords.data T)))
    (lines : list string) (all_data : list (@DatasetRecords.data T))
    (polarities_dim : Z) :
  DatasetRecords.__init__ model model_name lcf strip lower partition int
    prepare_input_for_apc build_spc_mask_vec build_sentiment_window lines
  = Ok (all_data, polarities_dim) ->
  exists records,
    DatasetRecords.read_records model lcf strip lower partition int
      prepare_input_for_apc build_spc_mask_vec lines = Ok records
    /\ lines <> []
    /\ length lines = (3 * length records)%nat
    /\ (Py.str_in "slide" model_name = false -> all_data = records)
    /\ (forall k d, records !! k = Some d ->
          DatasetRecords.aspect_bert_indices d = None
          /\ exists l2, lines !! (3 * k + 2)%nat = Some l2
               /\ int (strip l2) = Ok (DatasetRecords.polarity d))
    /\ 1 <= polarities_dim <= Z.of_nat (length records).
Proof.
  unfold DatasetRecords.__init__.
  destruct (DatasetRecords.read_records _ _ _ _ _ _ _ _ lines)
    as [records|] eqn:Hread; cbn [bind]; [|done].
  destruct (read_records_Ok _ _ _ _ _ _ _ _ _ _ Hread) as [Hlen Hrec].
  intros Hrun. exists records.
  assert ((Py.str_in "slide" model_name = false -> all_data = records)
          /\ ABSADataset.__init__ (DatasetRecords.polarity <$> records)
             = Ok polarities_dim) as [Hall Hdim].
  { destruct (Py.str_in "slide" model_name);
      [destruct (build_sentiment_window records); cbn [bind] in Hrun; [|done]|];
      cbn [bind] in Hrun;
      destruct (ABSADataset.__init__ _); cbn [bind] in Hrun; [|done| |done];
      injection Hrun as <- <-; by split. }
  assert (1 <= polarities_dim <= Z.of_nat (length records)) as Hbounds.
  { revert Hdim. unfold ABSADataset.__init__.
    set (s := ABSADataset.polarities_set (DatasetRecords.polarity <$> records)).
    pose proof (py_min_spec s) as Hmin.
    destruct (Py.min s) as [p_min|]; cbn [bind]; [|done].
    destruct (Py.max s) as [p_max|]; cbn [bind]; [|done].
    destruct (p_min <? 0); [done|]. destruct (bool_decide _); [|done].
    intros [= <-]. destruct Hmin as [Hin _].
    assert (size s <> 0%nat) as Hpos.
    { intros Hz. apply size_empty_inv in Hz. by apply Hz in Hin. }
    assert (size s <= length records)%nat as Hle.
    { unfold s, ABSADataset.polarities_set.
      etrans; [apply size_list_to_set_le|]. by rewrite length_fmap. }
    lia. }
  split_and!.
  - done.
  - intros ->. destruct records; [simpl in Hbounds; lia|done].
  - done.
  - done.
  - done.
  - lia.
  - lia.
Qed.

Lemma dataset_has_one_record_per_three_lines_witness :
  exists records,
    DatasetExamples.read_records DatasetExamples.lines = Ok records
    /\ length records = 2%nat.
Proof.
  destruct (dataset_has_one_record_per_three_lines DatasetRecords.LCF_BERT
              "lcf_bert" "cdm" DatasetExamples.strip DatasetExamples.lower
              DatasetExamples.partition DatasetExamples.int
              DatasetExamples.prepare_input_for_apc
              DatasetExamples.build_spc_mask_vec (fun data => Ok data)
              DatasetExamples.lines
              (default [] (match DatasetExamples.read_records
                                   DatasetExamples.lines with
                           | Ok records => Some records
                           | Raise _ => None
                           end)) 2 eq_refl)
    as (records & Hread & _ & Hlen & _).
  exists records. split; [exact Hread|]. simpl in Hlen. lia.
Defined.

(** X23: a file whose number of lines is not a multiple of three
    is rejected with [IndexError] when the loop reaches the
    incomplete last record, that is, whenever the complete records
    before it can be read; nothing of them is kept. An empty file is
    rejected with the [ValueError] of [min] on an empty set (for
    models without the sliding window). *)
Theorem incomplete_last_record_raises_index_error {T : Type}
    (model : DatasetRecords.model_class) (model_name lcf : string)
    (strip lower : string -> string)
    (partition : string -> string * string * string)
    (int : string -> result Z)
    (prepare_input_for_apc :
       string -> string -> string -> result (@DatasetRecords.prepared T))
    (build_spc_mask_vec : T -> result T)
    (build_sentiment_window :
       list (@DatasetRecords.data T) -> result (list (@DatasetRecords.data T)))
    (lines : list string) (records : list (@DatasetRecords.data T)) :
  let init :=
    DatasetRecords.__init__ model model_name lcf strip lower partition int
      prepare_input_for_apc build_spc_mask_vec build_sentiment_window in
  (length lines mod 3 <> 0)%nat ->
  DatasetRecords.read_records model lcf strip lower partition int
    prepare_input_for_apc build_spc_mask_vec
    (take (3 * (length lines / 3)) lines) = Ok records ->
  init lines = Raise IndexError
  /\ (Py.str_in "slide" model_name = false -> init [] = Raise ValueError).
Proof.
  intros init Hmod Hprefix. unfold init, DatasetRecords.__init__. split.
  - by rewrite (read_records_incomplete _ _ _ _ _ _ _ _ _ _ Hmod Hprefix).
  - intros ->. reflexivity.
Qed.

Lemma incomplete_last_record_raises_index_error_witness :
  DatasetRecords.__init__ DatasetRecords.LCF_BERT "lcf_bert" "cdm"
    DatasetExamples.strip DatasetExamples.lower DatasetExamples.partition
    DatasetExamples.int DatasetExamples.prepare_input_for_apc
    DatasetExamples.build_spc_mask_vec (fun data => Ok data)
    (DatasetExamples.lines ++ ["the $T$ is loud"; "fan"])
  = Raise IndexError.
Proof.
  refine (proj1 (incomplete_last_record_raises_index_error
            DatasetRecords.LCF_BERT "lcf_bert" "cdm" DatasetExamples.strip
            DatasetExamples.lower DatasetExamples.partition
            DatasetExamples.int DatasetExamples.prepare_input_for_apc
            DatasetExamples.build_spc_mask_vec (fun data => Ok data)
            (DatasetExamples.lines ++ ["the $T$ is loud"; "fan"])
            (default [] (match DatasetExamples.read_records
                                 DatasetExamples.lines with
                         | Ok records => Some records
                         | Raise _ => None
                         end)) _ _)).
  - simpl. lia.
  - reflexivity.
Defined.

(** ** Checkpoint lists by version *)

Section CheckpointProofs.

Import Checkpoints.

Context {M : Type}.

Variable version : string.
Variable upper : string -> string.



Lemma foldl_update_step_lacks (task : string)
    (items : list (string * gmap string M)) (current : gmap string M) :
  Forall (fun item => in_range version item.1 = true -> item.2 !! task = None)
    items ->
  current !! task = None ->
  foldl (update_step version) current items !! task = None.
Proof.
  intros Hlack. revert current.
  induction Hlack as [|item items Hitem _ IH]; intros current Hcur; [done|].
  cbn [foldl]. apply IH. unfold update_step.
  destruct (in_range version item.1); [|done].
  apply lookup_union_None. split; [by apply Hitem|done].
Qed.

Lemma leb_digit_first (d : ascii) (rest : string) :
  (48 <= N_of_ascii d <= 57)%N ->
  String.leb (String d rest) "N.A."%string = true.
Proof.
  intros Hd. unfold String.leb. cbn [String.compare].
  unfold Ascii.compare.
  assert ((N_of_ascii d ?= N_of_ascii "N"%char)%N = Lt) as ->; [|done].
  apply N.compare_lt_iff. change (N_of_ascii "N"%char) with 78%N. lia.
Qed.

Lemma append_nil (s : string) : (EmptyString +:+ s = s)%string.
Proof. reflexivity. Qed.

Lemma append_cons (a : ascii) (s1 s2 : string) :
  (String a s1 +:+ s2 = String a (s1 +:+ s2))%string.
Proof. reflexivity. Qed.

Lemma char_in_app_sep (sep : ascii) (s : string) :
  char_in sep (s +:+ String sep EmptyString) = true.
Proof.
  induction s as [|a s IH]; rewrite ?append_nil, ?append_cons; cbn -[Ascii.eqb].
  - by rewrite Ascii.eqb_refl.
  - by rewrite IH, orb_true_r.
Qed.

Lemma char_in_app_other (c sep : ascii) (s : string) :
  c <> sep -> char_in c (s +:+ String sep EmptyString) = char_in c s.
Proof.
  intros Hne. induction s as [|a s IH]; rewrite ?append_nil, ?append_cons; cbn -[Ascii.eqb].
  - apply Ascii.eqb_neq in Hne. rewrite Ascii.eqb_sym in Hne.
    by rewrite Hne.
  - by rewrite IH.
Qed.

Lemma partition_app_sep (sep : ascii) (s : string) :
  char_in sep s = false ->
  partition sep (s +:+ String sep EmptyString) = (s, EmptyString).
Proof.
  induction s as [|a s IH]; rewrite ?append_nil, ?append_cons; cbn -[Ascii.eqb].
  - by rewrite Ascii.eqb_refl.
  - intros Hnot. apply orb_false_iff in Hnot as [Ha Hs].
    by rewrite Ha, IH.
Qed.

Lemma between_open (sep d : ascii) (min_ver rest : string) :
  version = String d rest -> (48 <= N_of_ascii d <= 57)%N ->
  char_in sep min_ver = false ->
  between version sep (min_ver +:+ String sep EmptyString)
  = String.leb min_ver version.
Proof.
  intros Hv Hd Hsep. unfold between. rewrite partition_app_sep by done.
  cbn [Trainer.truthy String.eqb negb]. rewrite Hv at 2.
  by rewrite leb_digit_first, andb_true_r.
Qed.

End CheckpointProofs.



(** X25: the call fails with [KeyError] for every task as soon as
    the matching ranges list no checkpoints for one of the two
    tasks, also when the task asked for is the other one: both
    lists are looked up before the task is considered. *)
Theorem missing_task_list_is_key_error {M : Type}
    (version : string) (upper : string -> string)
    (checkpoint_map : list (string * gmap string M)) (missing task : string) :
  missing = "APC"%string \/ missing = "ATEPC"%string ->
  Forall (fun item => Checkpoints.in_range version item.1 = true ->
                      item.2 !! missing = None) checkpoint_map ->
  Checkpoints.update_checkpoints version upper (Some checkpoint_map) task
  = Raise KeyError.
Proof.
  intros Hmissing Hlack. unfold Checkpoints.update_checkpoints.
  pose proof (foldl_update_step_lacks version missing checkpoint_map ∅ Hlack
                (lookup_empty _)) as Hnone.
  fold (Checkpoints.current_version_map version checkpoint_map) in Hnone.
  unfold Checkpoints.getitem.
  destruct Hmissing as [-> | ->]; rewrite Hnone; [done|].
  by destruct (_ !! "APC"%string).
Qed.

Lemma missing_task_list_is_key_error_witness :
  Checkpoints.update_checkpoints "0.8.5" (fun s => s)
    (Some [("0.6-", {[ "APC" := ["english"] ]});
           ("1.0-", {[ "APC" := ["latest"]; "ATEPC" := ["latest"] ]})])
    "APC"
  = Raise KeyError.
Proof.
  apply (missing_task_list_is_key_error "0.8.5" (fun s => s) _ "ATEPC" "APC").
  - by right.
  - repeat constructor; intros H; (reflexivity || discriminate H).
Defined.

(** X26: versions are compared as strings. For a version that
    begins with a digit, a key with an open upper end, [m-] or [m+],
    matches exactly when [m] is below the version character by
    character, because every such version is below the bound 'N.A.'
    that stands in for the missing end. *)
Theorem open_range_matches_from_lower_end (version : string) (d : ascii)
    (rest min_ver : string) :
  version = String d rest ->
  (48 <= N_of_ascii d <= 57)%N ->
  Checkpoints.char_in "-" min_ver = false ->
  Checkpoints.char_in "+" min_ver = false ->
  Checkpoints.in_range version (min_ver +:+ "-") = String.leb min_ver version
  /\ Checkpoints.in_range version (min_ver +:+ "+")
     = String.leb min_ver version.
Proof.
  intros Hv Hd Hminus Hplus. unfold Checkpoints.in_range.
  rewrite char_in_app_sep, (char_in_app_other "-" "+") by done.
  rewrite Hminus, char_in_app_sep.
  split; by eapply between_open.
Qed.

Lemma open_range_matches_from_lower_end_witness :
  Checkpoints.in_range "0.8.5" "0.10-" = true
  /\ Checkpoints.in_range "0.8.5" "0.9-" = false.
Proof.
  split.
  - change "0.10-"%string with ("0.10" +:+ "-")%string.
    rewrite (proj1 (open_range_matches_from_lower_end "0.8.5" "0" ".8.5"
                      "0.10" eq_refl ltac:(cbn; lia) eq_refl eq_refl)).
    reflexivity.
  - change "0.9-"%string with ("0.9" +:+ "-")%string.
    rewrite (proj1 (open_range_matches_from_lower_end "0.8.5" "0" ".8.5"
                      "0.9" eq_refl ltac:(cbn; lia) eq_refl eq_refl)).
    reflexivity.
Defined.
